(** * typesystem.formats: string <-> native value converters

    A shallow embedding of [typesystem/formats.py]: the seven compiled
    patterns, the six [BaseFormat] subclasses and the parts of the Python
    standard library they call ([re], [datetime], [uuid], [urllib.parse]),
    followed by the properties of the converters.

    Strings are lists of characters with code points below 256; the
    classes [\d], [\w] and [\s] are the ones Python's [re] uses for [str]
    patterns on that range. *)

From Stdlib Require Import List Ascii String ZArith Lia Bool Arith.
Import ListNotations.
Open Scope Z_scope.

Set Implicit Arguments.

(** ** Characters and strings *)

Definition str := list ascii.

Definition code (c : ascii) : nat := nat_of_ascii c.

Definition between (lo hi : nat) (c : ascii) : bool :=
  (Nat.leb lo (code c) && Nat.leb (code c) hi)%bool.

Definition is_digit (c : ascii) : bool := between 48 57 c.

(** [\w] on [str] patterns: alphanumerics and the underscore. *)
Definition is_word (c : ascii) : bool :=
  (between 48 57 c || between 65 90 c || Nat.eqb (code c) 95
   || between 97 122 c || Nat.eqb (code c) 170 || between 178 179 c
   || Nat.eqb (code c) 181 || between 185 186 c || between 188 190 c
   || between 192 214 c || between 216 246 c || between 248 255 c)%bool.

(** [\s] on [str] patterns. *)
Definition is_space (c : ascii) : bool :=
  (between 9 13 c || between 28 32 c || Nat.eqb (code c) 133
   || Nat.eqb (code c) 160)%bool.

Definition lit (s : string) : str := list_ascii_of_string s.

Fixpoint str_eqb (a b : str) : bool :=
  match a, b with
  | [], [] => true
  | x :: a', y :: b' => (Ascii.eqb x y && str_eqb a' b')%bool
  | _, _ => false
  end.

Lemma str_eqb_eq (a b : str) : str_eqb a b = true <-> a = b.
Proof.
  revert b. induction a as [|x a IH]; intros [|y b]; simpl;
    try (split; [discriminate|congruence]); [tauto|].
  rewrite andb_true_iff, Ascii.eqb_eq, IH. split; [intros []|intros [=]];
    subst; auto.
Qed.

(** ** Regular expressions

    The fragment of Python's pattern language the seven patterns use. *)

Inductive cclass : Type :=
| CLit (c : ascii)                 (* a literal character *)
| CRange (lo hi : ascii)           (* [lo-hi] *)
| CDigit                           (* \d *)
| CWord                            (* \w *)
| CSpace                           (* \s *)
| CUnion (a b : cclass)            (* members of a bracket set *)
| CNot (a : cclass).               (* [^...] *)

Fixpoint cmatch (cl : cclass) (c : ascii) : bool :=
  match cl with
  | CLit x => Ascii.eqb x c
  | CRange lo hi => between (code lo) (code hi) c
  | CDigit => is_digit c
  | CWord => is_word c
  | CSpace => is_space c
  | CUnion a b => (cmatch a c || cmatch b c)%bool
  | CNot a => negb (cmatch a c)
  end.

Inductive regex : Type :=
| Eps
| Chr (cl : cclass)
| Seq (r1 r2 : regex)
| Alt (r1 r2 : regex)
| Opt (r : regex)                  (* r?     greedy *)
| Star (r : regex)                 (* r*     greedy *)
| Rep (lo hi : nat) (r : regex)    (* r{lo,hi} greedy *)
| Group (name : string) (r : regex)  (* (?P<name>r) *)
| Paren (r : regex)                (* (r), contents never read by the code *)
| Bol                              (* ^ *)
| Eol                              (* $ *)
| WordB.                           (* \b *)

(** A matcher state: the position in the subject, the character before
    it, the characters still to read and the spans of the named groups
    closed so far. *)
Record mstate : Type := MState {
  pos : nat;
  prev : option ascii;
  rest : str;
  caps : list (string * (nat * nat))
}.

Definition advance (st : mstate) (c : ascii) (tl : str) : mstate :=
  MState (S (pos st)) (Some c) tl (caps st).

Definition set_cap (name : string) (b : nat) (st : mstate) : mstate :=
  MState (pos st) (prev st) (rest st) ((name, (b, pos st)) :: caps st).

Definition word_opt (o : option ascii) : bool :=
  match o with Some c => is_word c | None => false end.

(** [$] without MULTILINE: at the end, or before a final newline. *)
Definition at_eol (st : mstate) : bool :=
  match rest st with
  | [] => true
  | [c] => Ascii.eqb c "010"
  | _ => false
  end.

Definition at_wordb (st : mstate) : bool :=
  xorb (word_opt (prev st)) (word_opt (hd_error (rest st))).

Section Engine.

(** The end states of one sub-pattern, in the order a backtracking
    matcher tries them. *)
Variable body : mstate -> list mstate.

Fixpoint rep_runs (lo hi : nat) (st : mstate) : list mstate :=
  match hi with
  | O => [st]
  | S hi' =>
      match lo with
      | S lo' => flat_map (rep_runs lo' hi') (body st)
      | O => flat_map (rep_runs O hi') (body st) ++ [st]
      end
  end.

(** An iteration that consumed nothing is not repeated. *)
Fixpoint star_runs (fuel : nat) (st : mstate) : list mstate :=
  match fuel with
  | O => [st]
  | S f =>
      flat_map (fun st' => if Nat.ltb (pos st) (pos st')
                           then star_runs f st' else [])
               (body st) ++ [st]
  end.

End Engine.

(** [runs r st]: every state in which [r] can finish from [st], most
    preferred first (greedy quantifiers take the longest first,
    alternatives are tried left to right). *)
Fixpoint runs (r : regex) (st : mstate) : list mstate :=
  match r with
  | Eps => [st]
  | Chr cl =>
      match rest st with
      | c :: tl => if cmatch cl c then [advance st c tl] else []
      | [] => []
      end
  | Seq r1 r2 => flat_map (runs r2) (runs r1 st)
  | Alt r1 r2 => runs r1 st ++ runs r2 st
  | Opt r1 => runs r1 st ++ [st]
  | Star r1 => star_runs (runs r1) (List.length (rest st)) st
  | Rep lo hi r1 => rep_runs (runs r1) lo hi st
  | Group name r1 => map (set_cap name (pos st)) (runs r1 st)
  | Paren r1 => runs r1 st
  | Bol => if Nat.eqb (pos st) 0 then [st] else []
  | Eol => if at_eol st then [st] else []
  | WordB => if at_wordb st then [st] else []
  end.

Definition init (s : str) : mstate := MState 0 None s [].

(** [pattern.match(s)]: the first way of matching at position 0. *)
Definition re_match (r : regex) (s : str) : option mstate :=
  hd_error (runs r (init s)).

Definition substr (s : str) (b e : nat) : str := firstn (e - b) (skipn b s).

Fixpoint assoc (name : string) (l : list (string * (nat * nat)))
  : option (nat * nat) :=
  match l with
  | [] => None
  | (n, v) :: tl => if String.eqb n name then Some v else assoc name tl
  end.

(** [match.groupdict()[name]]: [None] when the group took no part. *)
Definition group (s : str) (m : mstate) (name : string) : option str :=
  match assoc name (caps m) with
  | Some (b, e) => Some (substr s b e)
  | None => None
  end.

(** Pattern shorthands. *)
Definition chr (c : ascii) : regex := Chr (CLit c).
Definition digit : regex := Chr CDigit.
Definition Plus (r : regex) : regex := Seq r (Star r).

Fixpoint seqs (l : list regex) : regex :=
  match l with
  | [] => Eps
  | [r] => r
  | r :: tl => Seq r (seqs tl)
  end.

Fixpoint word (s : str) : regex :=
  match s with
  | [] => Eps
  | [c] => chr c
  | c :: tl => Seq (chr c) (word tl)
  end.

(** ** The patterns of formats.py *)

(** [(?P<year>\d{4})-(?P<month>\d{1,2})-(?P<day>\d{1,2})$] *)
Definition DATE_REGEX : regex :=
  seqs [ Group "year" (Rep 4 4 digit); chr "-";
         Group "month" (Rep 1 2 digit); chr "-";
         Group "day" (Rep 1 2 digit); Eol ].


Definition time_tail : regex :=
  Opt (seqs [ chr ":"; Group "second" (Rep 1 2 digit);
              Opt (seqs [ chr "."; Group "microsecond" (Rep 1 6 digit);
                          Rep 0 6 digit ]) ]).

(** [(?P<hour>\d{1,2}):(?P<minute>\d{1,2})]
    [(?::(?P<second>\d{1,2})(?:\.(?P<microsecond>\d{1,6})\d{0,6})?)?] *)
Definition TIME_REGEX : regex :=
  seqs [ Group "hour" (Rep 1 2 digit); chr ":";
         Group "minute" (Rep 1 2 digit); time_tail ].

(** [Z|[+-]\d{2}(?::?\d{2})?] *)
Definition tz_designator : regex :=
  Alt (chr "Z")
      (seqs [ Chr (CUnion (CLit "+") (CLit "-")); Rep 2 2 digit;
              Opt (Seq (Opt (chr ":")) (Rep 2 2 digit)) ]).

(** [(?P<year>\d{4})-(?P<month>\d{1,2})-(?P<day>\d{1,2})]
    [[T ](?P<hour>\d{1,2}):(?P<minute>\d{1,2})]
    [(?::(?P<second>\d{1,2})(?:\.(?P<microsecond>\d{1,6})\d{0,6})?)?]
    [(?P<tzinfo>Z|[+-]\d{2}(?::?\d{2})?)?$] *)
Definition DATETIME_REGEX : regex :=
  seqs [ Group "year" (Rep 4 4 digit); chr "-";
         Group "month" (Rep 1 2 digit); chr "-";
         Group "day" (Rep 1 2 digit);
         Chr (CUnion (CLit "T") (CLit " "));
         Group "hour" (Rep 1 2 digit); chr ":";
         Group "minute" (Rep 1 2 digit); time_tail;
         Opt (Group "tzinfo" tz_designator); Eol ].

(** [[0-9a-f]] *)
Definition hexlow : regex := Chr (CUnion (CRange "0" "9") (CRange "a" "f")).

(** [[0-9a-f]{8}-[0-9a-f]{4}-[1-5][0-9a-f]{3}-[89ab][0-9a-f]{3}-[0-9a-f]{12}] *)
Definition UUID_REGEX : regex :=
  seqs [ Rep 8 8 hexlow; chr "-"; Rep 4 4 hexlow; chr "-";
         Chr (CRange "1" "5"); Rep 3 3 hexlow; chr "-";
         Chr (CUnion (CLit "8") (CUnion (CLit "9")
                (CUnion (CLit "a") (CLit "b"))));
         Rep 3 3 hexlow; chr "-"; Rep 12 12 hexlow ].

Definition TOP_DOMAINS : list string :=
  [ "com"; "org"; "net"; "us"; "co"; "int"; "mil"; "edu"; "gov"; "biz";
    "info"; "jobs"; "mobi"; "name"; "ly"; "tel"; "kitchen"; "email";
    "tech"; "estate"; "xyz"; "codes"; "bargains"; "bid"; "expert"; "ca";
    "cn"; "fr"; "ch"; "au"; "in"; "de"; "jp"; "nl"; "uk"; "mx"; "no";
    "ru"; "br"; "se"; "es"; "us" ]%string.

Fixpoint alts (l : list regex) : regex :=
  match l with
  | [] => Chr (CNot (CNot (CUnion CSpace (CNot CSpace)))) 
  | [r] => r
  | r :: tl => Alt r (alts tl)
  end.

(** [\b(http[s]?://)?([^:\s]+)(\.\w+)*\.({TOP_DOMAINS})]
    [(/[\w\-.]+[^#?\s]+)*/?\b] *)
Definition URL_REGEX : regex :=
  seqs [ WordB;
         Opt (Paren (seqs [ word (lit "http"); Opt (chr "s");
                            word (lit "://") ]));
         Paren (Plus (Chr (CNot (CUnion (CLit ":") CSpace))));
         Star (Paren (Seq (chr ".") (Plus (Chr CWord))));
         chr ".";
         Paren (alts (map (fun d => word (lit d)) TOP_DOMAINS));
         Star (Paren (seqs
           [ chr "/";
             Plus (Chr (CUnion CWord (CUnion (CLit "-") (CLit "."))));
             Plus (Chr (CNot (CUnion (CLit "#")
                                (CUnion (CLit "?") CSpace)))) ]));
         Opt (chr "/");
         WordB ].

(** [[a-zA-Z0-9]] *)
Definition alnum : cclass :=
  CUnion (CRange "a" "z") (CUnion (CRange "A" "Z") (CRange "0" "9")).

(** [(^[a-zA-Z0-9_.+-]+@[a-zA-Z0-9-]+\.[a-zA-Z0-9-.]+$)] *)
Definition EMAIL_REGEX : regex :=
  Paren (seqs
    [ Bol;
      Plus (Chr (CUnion alnum (CUnion (CLit "_") (CUnion (CLit ".")
                   (CUnion (CLit "+") (CLit "-"))))));
      chr "@";
      Plus (Chr (CUnion alnum (CLit "-")));
      chr ".";
      Plus (Chr (CUnion alnum (CUnion (CLit "-") (CLit "."))));
      Eol ]).

(** ** Python values and exceptions *)

Inductive exn : Type :=
| ValidationError (text code : string)
| ValueError
| TypeError
| KeyError
| AssertionError.

Inductive result (A : Type) : Type :=
| Ok (a : A)
| Raise (e : exn).

Arguments Ok {A} a.
Arguments Raise {A} e.

Definition bind {A B} (r : result A) (f : A -> result B) : result B :=
  match r with
  | Ok a => f a
  | Raise e => Raise e
  end.

Notation "x <- r ;; k" := (bind r (fun x => k))
  (at level 61, r at next level, right associativity).

(** [try: body except ValueError: raise e]. *)
Definition except_ValueError {A} (body : result A) (e : result A) : result A :=
  match body with
  | Raise ValueError => e
  | other => other
  end.

(** [BaseFormat.validation_error]: the templates of formats.py have no
    placeholders, so formatting returns them unchanged. *)
Definition validation_error {A} (errors : list (string * string))
  (code : string) : result A :=
  match find (fun kv => String.eqb (fst kv) code) errors with
  | Some kv => Raise (ValidationError (snd kv) code)
  | None => Raise KeyError
  end.

Definition digit_val (c : ascii) : Z := Z.of_nat (code c) - 48.

Definition digit_char (d : Z) : ascii := ascii_of_nat (48 + Z.to_nat d).

(** Positional notation in base [b]: the value of a digit string, and
    the digits of a non-negative integer, most significant first. *)
Definition of_digits (b : Z) (val_of : ascii -> Z) (s : str) : Z :=
  fold_left (fun acc c => b * acc + val_of c) s 0.

Fixpoint to_digits (b : Z) (chr_of : Z -> ascii) (fuel : nat) (n : Z) : str :=
  match fuel with
  | O => []
  | S f => if n <? b then [chr_of n]
           else to_digits b chr_of f (n / b) ++ [chr_of (n mod b)]
  end.

(** [s.zfill(w)] for a digit string. *)
Definition zfill (w : nat) (s : str) : str :=
  repeat "0"%char (w - List.length s) ++ s.

Definition decimal (s : str) : Z := of_digits 10 digit_val s.

(** [int(v)] on the strings the converters pass to it: slices of groups
    matched by [\d], where it is positional decimal. A string that is
    not a non-empty run of digits is reported as [ValueError]. *)
Definition int_ (v : str) : result Z :=
  match v with
  | [] => Raise ValueError
  | _ => if forallb is_digit v then Ok (decimal v) else Raise ValueError
  end.

(** [v.ljust(n, "0")]. *)
Definition ljust0 (n : nat) (v : str) : str :=
  v ++ repeat "0"%char (n - List.length v).

(** [str(n)] for a non-negative integer. *)
Definition str_of_nat (n : Z) : str :=
  to_digits 10 digit_char (S (Z.to_nat (Z.log2 n))) n.

(** ["%0wd" % n]. *)
Definition fmt_d (w : nat) (n : Z) : str :=
  if n <? 0 then "-"%char :: zfill (w - 1) (str_of_nat (- n))
  else zfill w (str_of_nat n).

(** *** datetime *)

Record date : Type := Date { d_year : Z; d_month : Z; d_day : Z }.

(** A [tzinfo] is represented by the offset it reports, in microseconds;
    [datetime.timezone.utc] is offset 0. *)
Definition tzinfo : Type := option Z.

Record time : Type := Time {
  t_hour : Z; t_minute : Z; t_second : Z; t_microsecond : Z;
  t_tzinfo : tzinfo
}.

Record datetime : Type := DateTime {
  dt_date : date;
  dt_hour : Z; dt_minute : Z; dt_second : Z; dt_microsecond : Z;
  dt_tzinfo : tzinfo
}.

Definition is_leap (y : Z) : bool :=
  ((y mod 4 =? 0) && (negb (y mod 100 =? 0) || (y mod 400 =? 0)))%bool.

Definition days_in_month (y m : Z) : Z :=
  if ((m =? 2) && is_leap y)%bool then 29
  else nth (Z.to_nat m) [-1; 31; 28; 31; 30; 31; 30; 31; 31; 30; 31; 30; 31] 0.

Definition MINYEAR : Z := 1.
Definition MAXYEAR : Z := 9999.

Definition check_date_fields (y m d : Z) : bool :=
  ((MINYEAR <=? y) && (y <=? MAXYEAR) && (1 <=? m) && (m <=? 12)
   && (1 <=? d) && (d <=? days_in_month y m))%bool.

Definition check_time_fields (h mi s us : Z) : bool :=
  ((0 <=? h) && (h <=? 23) && (0 <=? mi) && (mi <=? 59)
   && (0 <=? s) && (s <=? 59) && (0 <=? us) && (us <=? 999999))%bool.

(** A keyword argument that may be missing from the [kwargs] dict. *)
Definition required (o : option Z) : result Z :=
  match o with Some z => Ok z | None => Raise TypeError end.

Definition default0 (o : option Z) : Z :=
  match o with Some z => z | None => 0 end.

(** [datetime.date] called with the [kwargs] dict. *)
Definition date_new (year month day : option Z) : result date :=
  y <- required year ;; m <- required month ;; d <- required day ;;
  if check_date_fields y m d then Ok (Date y m d) else Raise ValueError.

(** [datetime.time] called with [tzinfo=tz] and the [kwargs] dict. *)
Definition time_new (hour minute second microsecond : option Z)
  (tz : tzinfo) : result time :=
  let h := default0 hour in let mi := default0 minute in
  let s := default0 second in let us := default0 microsecond in
  if check_time_fields h mi s us then Ok (Time h mi s us tz)
  else Raise ValueError.

(** [datetime.datetime] called with the [kwargs] dict and [tzinfo=tz]. *)
Definition datetime_new (year month day hour minute second microsecond
  : option Z) (tz : tzinfo) : result datetime :=
  y <- required year ;; m <- required month ;; d <- required day ;;
  let h := default0 hour in let mi := default0 minute in
  let s := default0 second in let us := default0 microsecond in
  if check_date_fields y m d then
    if check_time_fields h mi s us
    then Ok (DateTime (Date y m d) h mi s us tz)
    else Raise ValueError
  else Raise ValueError.

(** [datetime.timedelta(hours=h, minutes=m)], in microseconds. *)
Definition timedelta (hours minutes : Z) : Z :=
  (hours * 3600 + minutes * 60) * 1000000.

Definition day_us : Z := 24 * 3600 * 1000000.

(** [datetime.timezone(delta)]: the offset must lie strictly between
    minus and plus 24 hours. *)
Definition timezone (delta : Z) : result tzinfo :=
  if ((- day_us <? delta) && (delta <? day_us))%bool
  then Ok (Some delta) else Raise ValueError.

Definition utc : tzinfo := Some 0.

Definition date_isoformat (d : date) : str :=
  fmt_d 4 (d_year d) ++ lit "-" ++ fmt_d 2 (d_month d) ++ lit "-"
  ++ fmt_d 2 (d_day d).

Definition format_time (h mi s us : Z) : str :=
  fmt_d 2 h ++ lit ":" ++ fmt_d 2 mi ++ lit ":" ++ fmt_d 2 s
  ++ (if us =? 0 then [] else lit "." ++ fmt_d 6 us).

Definition format_offset (tz : tzinfo) : str :=
  match tz with
  | None => []
  | Some off =>
      let sign := if off <? 0 then lit "-" else lit "+" in
      let a := Z.abs off in
      let hh := a / 3600000000 in
      let r := a mod 3600000000 in
      let mm := r / 60000000 in
      let ss := r mod 60000000 in
      sign ++ fmt_d 2 hh ++ lit ":" ++ fmt_d 2 mm
      ++ (if ss =? 0 then []
          else lit ":" ++ fmt_d 2 (ss / 1000000)
               ++ (if ss mod 1000000 =? 0 then []
                   else lit "." ++ fmt_d 6 (ss mod 1000000)))
  end.

Definition time_isoformat (t : time) : str :=
  format_time (t_hour t) (t_minute t) (t_second t) (t_microsecond t)
  ++ format_offset (t_tzinfo t).

Definition datetime_isoformat (dt : datetime) : str :=
  date_isoformat (dt_date dt) ++ lit "T"
  ++ format_time (dt_hour dt) (dt_minute dt) (dt_second dt)
       (dt_microsecond dt)
  ++ format_offset (dt_tzinfo dt).

(** *** str methods *)

Fixpoint prefixb (p s : str) : bool :=
  match p, s with
  | [], _ => true
  | a :: p', b :: s' => (Ascii.eqb a b && prefixb p' s')%bool
  | _ :: _, [] => false
  end.

Definition startswith (s p : str) : bool := prefixb p s.

Definition endswith (s p : str) : bool := prefixb (rev p) (rev s).

Definition mem (c : ascii) (s : str) : bool := existsb (Ascii.eqb c) s.

(** [s.replace(old, empty)] for a non-empty [old]: [skip] counts the
    characters of an occurrence still to drop. *)
Fixpoint remove_go (old : str) (skip : nat) (s : str) : str :=
  match s with
  | [] => []
  | c :: tl =>
      match skip with
      | S k => remove_go old k tl
      | O => if prefixb old s
             then remove_go old (List.length old - 1) tl
             else c :: remove_go old O tl
      end
  end.

Definition remove (old s : str) : str := remove_go old O s.

Fixpoint lstrip (chars : ascii -> bool) (s : str) : str :=
  match s with
  | c :: tl => if chars c then lstrip chars tl else s
  | [] => []
  end.

Definition rstrip (chars : ascii -> bool) (s : str) : str :=
  rev (lstrip chars (rev s)).

Definition strip (chars : ascii -> bool) (s : str) : str :=
  rstrip chars (lstrip chars s).

(** [s.partition(c)]: the text before the first [c] and, when there is
    one, the text after it. *)
Fixpoint partition_ (c : ascii) (s : str) : str * option str :=
  match s with
  | [] => ([], None)
  | x :: tl =>
      if Ascii.eqb x c then ([], Some tl)
      else let '(a, b) := partition_ c tl in (x :: a, b)
  end.

(** The part of [s] after the last [c], or [s]. *)
Fixpoint after_last (c : ascii) (s : str) : str :=
  match s with
  | [] => []
  | x :: tl => if mem c tl then after_last c tl
               else if Ascii.eqb x c then tl else s
  end.

Fixpoint span_ (p : ascii -> bool) (s : str) : str * str :=
  match s with
  | x :: tl => if p x then let '(a, b) := span_ p tl in (x :: a, b)
               else ([], s)
  | [] => ([], [])
  end.

Definition lower_char (c : ascii) : ascii :=
  if between 65 90 c then ascii_of_nat (code c + 32) else c.

(** *** uuid *)

Record UUID : Type := MkUUID { uuid_int : Z }.

Definition hex_val (c : ascii) : Z :=
  if between 48 57 c then Z.of_nat (code c) - 48
  else if between 97 102 c then Z.of_nat (code c) - 87
  else Z.of_nat (code c) - 55.

Definition is_hex (c : ascii) : bool :=
  (between 48 57 c || between 97 102 c || between 65 70 c)%bool.

Definition hexadecimal (s : str) : Z := of_digits 16 hex_val s.

(** [int(hex, 16)] on runs of hexadecimal digits, the only strings of
    32 characters the converter can pass to it. *)
Definition int16 (v : str) : result Z :=
  match v with
  | [] => Raise ValueError
  | _ => if forallb is_hex v then Ok (hexadecimal v) else Raise ValueError
  end.

Definition is_brace (c : ascii) : bool :=
  (Ascii.eqb c "{" || Ascii.eqb c "}")%bool.

(** [uuid.UUID(hex)]. *)
Definition UUID_new (hex : str) : result UUID :=
  let hex := remove (lit "uuid:") (remove (lit "urn:") hex) in
  let hex := remove (lit "-") (strip is_brace hex) in
  if negb (Nat.eqb (List.length hex) 32) then Raise ValueError
  else n <- int16 hex ;;
       if ((0 <=? n) && (n <? 2 ^ 128))%bool then Ok (MkUUID n)
       else Raise ValueError.

Definition hex_char (d : Z) : ascii :=
  nth (Z.to_nat d) (lit "0123456789abcdef") "0"%char.

(** ["%032x" % n] for a non-negative [n]. *)
Definition fmt_032x (n : Z) : str :=
  zfill 32 (to_digits 16 hex_char (S (Z.to_nat (Z.log2 n))) n).

(** ['%s-%s-%s-%s-%s' % (hex[:8], hex[8:12], hex[12:16], hex[16:20],
    hex[20:])]. *)
Definition hyphenate (hex : str) : str :=
  firstn 8 hex ++ lit "-" ++ substr hex 8 12 ++ lit "-"
  ++ substr hex 12 16 ++ lit "-" ++ substr hex 16 20 ++ lit "-"
  ++ skipn 20 hex.

(** [UUID.__str__]. *)
Definition UUID_str (u : UUID) : str := hyphenate (fmt_032x (uuid_int u)).

(** *** urllib.parse (CPython 3.11) *)

Record ParseResult : Type := MkParseResult {
  scheme : str; netloc : str; path : str;
  params : str; query : str; fragment : str
}.

Definition uses_netloc : list string :=
  [ EmptyString; "ftp"; "http"; "gopher"; "nntp"; "telnet"; "imap"; "wais"; "file";
    "mms"; "https"; "shttp"; "snews"; "prospero"; "rtsp"; "rtspu"; "rsync";
    "svn"; "svn+ssh"; "sftp"; "nfs"; "git"; "git+ssh"; "ws"; "wss" ]%string.

Definition uses_params : list string :=
  [ EmptyString; "ftp"; "hdl"; "prospero"; "http"; "imap"; "https"; "shttp"; "rtsp";
    "rtspu"; "sip"; "sips"; "mms"; "sftp"; "tel" ]%string.

Definition str_in (s : str) (l : list string) : bool :=
  existsb (fun x => str_eqb s (lit x)) l.

(** Membership in [scheme_chars]. *)
Definition is_scheme_char (c : ascii) : bool :=
  (between 97 122 c || between 65 90 c || between 48 57 c
   || Ascii.eqb c "+" || Ascii.eqb c "-" || Ascii.eqb c ".")%bool.

Definition is_ascii_alpha (c : ascii) : bool :=
  (between 97 122 c || between 65 90 c)%bool.

Definition is_c0_or_space (c : ascii) : bool := Nat.leb (code c) 32.

(** [_splitnetloc(url, 2)]. *)
Definition splitnetloc (url : str) : str * str :=
  span_ (fun c => negb (mem c (lit "/?#"))) (skipn 2 url).

(** [str.isascii]. *)
Definition isascii (s : str) : bool :=
  forallb (fun c => Nat.ltb (code c) 128) s.

(** [unicodedata.normalize('NFKC', c)] of a character below U+0100, as
    code points. Fourteen of these characters have a compatibility
    decomposition; the others are their own normal form. None of the
    decompositions begins with a combining mark, so that the normal
    form of a string of such characters is made of the normal forms of
    its characters. *)
Definition NFKC_LATIN1 : list (N * list N) :=
  [ (160, [32]); (168, [32; 776]); (170, [97]); (175, [32; 772]);
    (178, [50]); (179, [51]); (180, [32; 769]); (181, [956]);
    (184, [32; 807]); (185, [49]); (186, [111]);
    (188, [49; 8260; 52]); (189, [49; 8260; 50]);
    (190, [51; 8260; 52]) ]%N.

Definition nfkc (c : ascii) : list N :=
  match find (fun e => N.eqb (fst e) (N_of_ascii c)) NFKC_LATIN1 with
  | Some e => snd e
  | None => [N_of_ascii c]
  end.

Fixpoint codes_eqb (a b : list N) : bool :=
  match a, b with
  | [], [] => true
  | x :: a', y :: b' => (N.eqb x y && codes_eqb a' b')%bool
  | _, _ => false
  end.

(** [_checknetloc]: a netloc that is not ASCII and whose NFKC form, the
    characters [@:#?] left out, differs from it and holds one of
    [/?#@:] is refused. *)
Definition checknetloc (netloc : str) : result unit :=
  if (match netloc with [] => true | _ => false end || isascii netloc)%bool
  then Ok tt
  else
    let n := remove (lit "?") (remove (lit "#")
               (remove (lit ":") (remove (lit "@") netloc))) in
    let netloc2 := flat_map nfkc n in
    if codes_eqb (map N_of_ascii n) netloc2 then Ok tt
    else if existsb (fun c => existsb (N.eqb (N_of_ascii c)) netloc2)
              (lit "/?#@:")
         then Raise ValueError
         else Ok tt.

Section Urlsplit.

(** [_check_bracketed_host] succeeds: the host between brackets is an
    IP literal the [ipaddress] module accepts. That module is not
    part of the converters and enters as a parameter. *)
Variable bracketed_host_ok : str -> bool.

(** [_check_bracketed_netloc]. *)
Definition check_bracketed_netloc (netloc : str) : bool :=
  let hostname_and_port := after_last "@" netloc in
  match partition_ "[" hostname_and_port with
  | (before_bracket, Some bracketed) =>
      match before_bracket with
      | _ :: _ => false
      | [] =>
          let '(hostname, port) := partition_ "]" bracketed in
          match port with
          | Some ((_ :: _) as p) =>
              if startswith p (lit ":") then bracketed_host_ok hostname
              else false
          | _ => bracketed_host_ok hostname
          end
      end
  | (hostname, None) =>
      bracketed_host_ok (fst (partition_ ":" hostname_and_port))
  end.

(** [urlsplit(url)]: scheme, netloc, path, query, fragment. The tab,
    carriage return and line feed characters are removed from the URL;
    the netloc is checked last, as in the source. *)
Definition urlsplit (url : str) : result (str * str * str * str * str) :=
  let url := lstrip is_c0_or_space url in
  let url := remove ["010"%char]
               (remove ["013"%char] (remove ["009"%char] url)) in
  let '(scheme, url) :=
    match partition_ ":" url with
    | ((c :: _) as pre, Some post) =>
        if (is_ascii_alpha c && forallb is_scheme_char pre)%bool
        then (map lower_char pre, post) else ([], url)
    | _ => ([], url)
    end in
  r <- (if startswith url (lit "//") then
          let '(netloc, url) := splitnetloc url in
          if xorb (mem "[" netloc) (mem "]" netloc) then Raise ValueError
          else if (mem "[" netloc && mem "]" netloc
                   && negb (check_bracketed_netloc netloc))%bool
               then Raise ValueError
               else Ok (netloc, url)
        else Ok ([], url)) ;;
  let '(netloc, url) := r in
  let '(url, fragment) :=
    match partition_ "#" url with
    | (a, Some b) => (a, b)
    | (a, None) => (a, [])
    end in
  let '(url, query) :=
    match partition_ "?" url with
    | (a, Some b) => (a, b)
    | (a, None) => (a, [])
    end in
  u <- checknetloc netloc ;;
  Ok (scheme, netloc, url, query, fragment).

(** [_splitparams]: the parameters follow the first [;] of the last
    path segment. *)
Definition splitparams (url : str) : str * str :=
  if mem "/" url then
    let last := after_last "/" url in
    let head := firstn (List.length url - List.length last) url in
    match partition_ ";" last with
    | (a, Some b) => (head ++ a, b)
    | (_, None) => (url, [])
    end
  else
    match partition_ ";" url with
    | (a, Some b) => (a, b)
    | (a, None) => (a, [])
    end.

Definition urlparse (url : str) : result ParseResult :=
  r <- urlsplit url ;;
  let '(scheme, netloc, url, query, fragment) := r in
  let '(url, params) :=
    if (str_in scheme uses_params && mem ";" url)%bool
    then splitparams url else (url, []) in
  Ok (MkParseResult scheme netloc url params query fragment).

End Urlsplit.

Definition nonempty (s : str) : bool :=
  match s with [] => false | _ => true end.

Definition urlunsplit (scheme netloc url query fragment : str) : str :=
  let url :=
    if (nonempty netloc
        || (nonempty scheme && str_in scheme uses_netloc
            && negb (startswith url (lit "//"))))%bool
    then
      let url := if (nonempty url && negb (startswith url (lit "/")))%bool
                 then lit "/" ++ url else url in
      lit "//" ++ netloc ++ url
    else url in
  let url := if nonempty scheme then scheme ++ lit ":" ++ url else url in
  let url := if nonempty query then url ++ lit "?" ++ query else url in
  if nonempty fragment then url ++ lit "#" ++ fragment else url.

Definition urlunparse (p : ParseResult) : str :=
  let url := if nonempty (params p) then path p ++ lit ";" ++ params p
             else path p in
  urlunsplit (scheme p) (netloc p) url (query p) (fragment p).

(** [ParseResult.geturl]. *)
Definition geturl (p : ParseResult) : str := urlunparse p.

(** *** Objects *)

Inductive pyobj : Type :=
| PyNone
| PyStr (s : str)
| PyDate (d : date)
| PyTime (t : time)
| PyDateTime (dt : datetime)
| PyUUID (u : UUID)
| PyParseResult (p : ParseResult).

Definition hex2 (c : ascii) : str :=
  [hex_char (Z.of_nat (code c / 16)); hex_char (Z.of_nat (code c mod 16))].

(** [repr] of a string. *)
Definition str_repr (s : str) : str :=
  let q : ascii := if (mem "'" s && negb (mem "034" s))%bool
                   then "034"%char else "'"%char in
  let esc (c : ascii) : str :=
    if (Ascii.eqb c q || Ascii.eqb c "\")%bool then ["\"%char; c]
    else if Ascii.eqb c "009" then lit "\t"
    else if Ascii.eqb c "010" then lit "\n"
    else if Ascii.eqb c "013" then lit "\r"
    else if (Nat.ltb (code c) 32 || between 127 160 c
             || Nat.eqb (code c) 173)%bool
         then lit "\x" ++ hex2 c
    else [c] in
  q :: flat_map esc s ++ [q].

Definition ParseResult_repr (p : ParseResult) : str :=
  lit "ParseResult(scheme=" ++ str_repr (scheme p)
  ++ lit ", netloc=" ++ str_repr (netloc p)
  ++ lit ", path=" ++ str_repr (path p)
  ++ lit ", params=" ++ str_repr (params p)
  ++ lit ", query=" ++ str_repr (query p)
  ++ lit ", fragment=" ++ str_repr (fragment p) ++ lit ")".

(** [str(obj)]. *)
Definition py_str (obj : pyobj) : str :=
  match obj with
  | PyNone => lit "None"
  | PyStr s => s
  | PyDate d => date_isoformat d
  | PyTime t => time_isoformat t
  | PyDateTime dt =>
      date_isoformat (dt_date dt) ++ lit " "
      ++ format_time (dt_hour dt) (dt_minute dt) (dt_second dt)
           (dt_microsecond dt)
      ++ format_offset (dt_tzinfo dt)
  | PyUUID u => UUID_str u
  | PyParseResult p => ParseResult_repr p
  end.

(** [if groups[name]: groups[name] = groups[name].ljust(6, "0")]. *)
Definition pad_microsecond (g : option str) : option str :=
  match g with
  | Some ((_ :: _) as v) => Some (ljust0 6 v)
  | other => other
  end.

(** One entry of [{k: int(v) for k, v in groups.items() if v is not None}]. *)
Definition int_opt (g : option str) : result (option Z) :=
  match g with
  | Some v => n <- int_ v ;; Ok (Some n)
  | None => Ok None
  end.

(** ** The converters *)

Module DateFormat.

Definition errors : list (string * string) :=
  [ ("format", "Must be a valid date format.");
    ("invalid", "Must be a real date.") ]%string.

(** [datetime.datetime] is a subclass of [datetime.date]. *)
Definition is_native_type (value : pyobj) : bool :=
  match value with
  | PyDate _ | PyDateTime _ => true
  | _ => false
  end.

Definition validate (value : str) : result date :=
  match re_match DATE_REGEX value with
  | None => validation_error errors "format"
  | Some m =>
      year <- int_opt (group value m "year") ;;
      month <- int_opt (group value m "month") ;;
      day <- int_opt (group value m "day") ;;
      except_ValueError (date_new year month day)
                        (validation_error errors "invalid")
  end.

Definition serialize (obj : pyobj) : result pyobj :=
  match obj with
  | PyNone => Ok PyNone
  | PyDate d => Ok (PyStr (date_isoformat d))
  | PyDateTime dt => Ok (PyStr (datetime_isoformat dt))
  | _ => Raise AssertionError
  end.

End DateFormat.

Module TimeFormat.

Definition errors : list (string * string) :=
  [ ("format", "Must be a valid time format.");
    ("invalid", "Must be a real time.") ]%string.

Definition is_native_type (value : pyobj) : bool :=
  match value with
  | PyTime _ => true
  | _ => false
  end.

Definition validate (value : str) : result time :=
  match re_match TIME_REGEX value with
  | None => validation_error errors "format"
  | Some m =>
      let microsecond := pad_microsecond (group value m "microsecond") in
      hour <- int_opt (group value m "hour") ;;
      minute <- int_opt (group value m "minute") ;;
      second <- int_opt (group value m "second") ;;
      microsecond <- int_opt microsecond ;;
      except_ValueError (time_new hour minute second microsecond None)
                        (validation_error errors "invalid")
  end.

Definition serialize (obj : pyobj) : result pyobj :=
  match obj with
  | PyNone => Ok PyNone
  | PyTime t => Ok (PyStr (time_isoformat t))
  | _ => Raise AssertionError
  end.

End TimeFormat.

Module DateTimeFormat.

Definition errors : list (string * string) :=
  [ ("format", "Must be a valid datetime format.");
    ("invalid", "Must be a real datetime.") ]%string.

Definition is_native_type (value : pyobj) : bool :=
  match value with
  | PyDateTime _ => true
  | _ => false
  end.

(** The [tzinfo] computed from the [tzinfo] group; the ValueError of
    [int] and of [datetime.timezone] is raised outside the [try]. *)
Definition parse_tzinfo (tzinfo_str : option str) : result tzinfo :=
  match tzinfo_str with
  | None => Ok None
  | Some tz =>
      if str_eqb tz (lit "Z") then Ok utc
      else
        offset_mins <-
          (if Nat.ltb 3 (List.length tz)
           then int_ (skipn (List.length tz - 2) tz) else Ok 0) ;;
        offset_hours <- int_ (substr tz 1 3) ;;
        let delta := timedelta offset_hours offset_mins in
        let delta := if prefixb (lit "-") tz then - delta else delta in
        timezone delta
  end.

Definition validate (value : str) : result datetime :=
  match re_match DATETIME_REGEX value with
  | None => validation_error errors "format"
  | Some m =>
      let microsecond := pad_microsecond (group value m "microsecond") in
      tz <- parse_tzinfo (group value m "tzinfo") ;;
      year <- int_opt (group value m "year") ;;
      month <- int_opt (group value m "month") ;;
      day <- int_opt (group value m "day") ;;
      hour <- int_opt (group value m "hour") ;;
      minute <- int_opt (group value m "minute") ;;
      second <- int_opt (group value m "second") ;;
      microsecond <- int_opt microsecond ;;
      except_ValueError
        (datetime_new year month day hour minute second microsecond tz)
        (validation_error errors "invalid")
  end.

Definition serialize (obj : pyobj) : result pyobj :=
  match obj with
  | PyNone => Ok PyNone
  | PyDateTime dt =>
      let value := datetime_isoformat dt in
      let value := if endswith value (lit "+00:00")
                   then firstn (List.length value - 6) value ++ lit "Z"
                   else value in
      Ok (PyStr value)
  | _ => Raise AssertionError
  end.

End DateTimeFormat.

Module UUIDFormat.

Definition errors : list (string * string) :=
  [ ("format", "Must be valid UUID format.") ]%string.

Definition is_native_type (value : pyobj) : bool :=
  match value with
  | PyUUID _ => true
  | _ => false
  end.

Definition validate (value : str) : result UUID :=
  match re_match UUID_REGEX value with
  | None => validation_error errors "format"
  | Some _ => UUID_new value
  end.

Definition serialize (obj : pyobj) : result pyobj :=
  Ok (PyStr (py_str obj)).

End UUIDFormat.

Module URLFormat.

Definition errors : list (string * string) :=
  [ ("format", "Must be valid URL format.") ]%string.

Definition is_native_type (value : pyobj) : bool :=
  match value with
  | PyParseResult _ => true
  | _ => false
  end.

Definition validate (bracketed_host_ok : str -> bool) (value : str)
  : result ParseResult :=
  match re_match URL_REGEX value with
  | None => validation_error errors "format"
  | Some _ =>
      let value := if negb (startswith value (lit "http"))
                   then lit "http://" ++ value else value in
      urlparse bracketed_host_ok value
  end.

Definition serialize (obj : pyobj) : result pyobj :=
  match obj with
  | PyNone => Ok PyNone
  | PyParseResult p => Ok (PyStr (geturl p))
  | _ => Raise AssertionError
  end.

End URLFormat.

Module EmailFormat.

Definition errors : list (string * string) :=
  [ ("format", "Must be valid Email format.") ]%string.

Definition is_native_type (value : pyobj) : bool :=
  match value with
  | PyParseResult _ => true
  | _ => false
  end.

Definition validate (value : str) : result str :=
  match re_match EMAIL_REGEX value with
  | None => validation_error errors "format"
  | Some _ => Ok value
  end.

Definition serialize (obj : pyobj) : result pyobj := Ok obj.

End EmailFormat.

(** ** Definitions used to state the properties *)

(** The matcher state at position [i] of subject [s]. *)
Definition state_at (s : str) (i : nat) : mstate :=
  MState i (match i with O => None | S j => nth_error s j end) (skipn i s) [].

(** [pattern.search(s)]: the left-most position at which the pattern
    matches, if any. *)
Definition re_search (r : regex) (s : str) : option nat :=
  find (fun i => match runs r (state_at s i) with [] => false | _ => true end)
       (seq 0 (S (List.length s))).

Definition is_lower_hex (c : ascii) : bool :=
  (between 48 57 c || between 97 102 c)%bool.


Definition last_opt (w : str) (d : option ascii) : option ascii :=
  match rev w with c :: _ => Some c | [] => d end.

(** [x] is reached from [st] by reading [w]. *)
Definition reads (st : mstate) (w : str) (x : mstate) : Prop :=
  rest st = w ++ rest x /\ pos x = (pos st + List.length w)%nat /\
  prev x = last_opt w (prev st).

(** Patterns without [*] and without assertions. *)
Fixpoint simple (r : regex) : bool :=
  match r with
  | Eps | Chr _ => true
  | Seq a b | Alt a b => (simple a && simple b)%bool
  | Opt a | Rep _ _ a | Group _ a | Paren a => simple a
  | Star _ | Bol | Eol | WordB => false
  end.

(** The state [st] when the subject is cut at position [e]. *)
Definition trunc (e : nat) (st : mstate) : mstate :=
  MState (pos st) (prev st) (firstn (e - pos st) (rest st)) (caps st).

Definition within (e : nat) (st : mstate) : bool := Nat.leb (pos st) e.

(** Every recorded span ends at or before the current position. *)
Definition caps_le (st : mstate) : Prop :=
  Forall (fun c => (snd (snd c) <= pos st)%nat) (caps st).

(** The pattern ends with [$]. *)
Fixpoint ends_eol (r : regex) : bool :=
  match r with
  | Eol => true
  | Seq _ b => ends_eol b
  | Paren a => ends_eol a
  | _ => false
  end.

(** Patterns without [$]. *)
Fixpoint no_eol (r : regex) : bool :=
  match r with
  | Eol => false
  | Seq a b | Alt a b => (no_eol a && no_eol b)%bool
  | Opt a | Star a | Rep _ _ a | Group _ a | Paren a => no_eol a
  | Eps | Chr _ | Bol | WordB => true
  end.

(** The state [st] when [t] is appended to the subject. *)
Definition extend (t : str) (st : mstate) : mstate :=
  MState (pos st) (prev st) (rest st ++ t) (caps st).

(** [pattern.match(s)] is not [None]. *)
Definition matches (r : regex) (s : str) : bool :=
  match re_match r s with Some _ => true | None => false end.

(** The [w] least significant digits of [n] in base [b]. *)
Fixpoint fixed_digits (b : Z) (chr_of : Z -> ascii) (w : nat) (n : Z) : str :=
  match w with
  | O => []
  | S w' => fixed_digits b chr_of w' (n / b) ++ [chr_of (n mod b)]
  end.

Definition opt_list (o : option mstate) : list mstate :=
  match o with Some x => [x] | None => [] end.

(** Reading one character of each class in turn. *)
Fixpoint take (cls : list cclass) (st : mstate) : option mstate :=
  match cls with
  | [] => Some st
  | cl :: cls' =>
      match rest st with
      | c :: tl => if cmatch cl c then take cls' (advance st c tl) else None
      | [] => None
      end
  end.

(** The classes of a pattern that is a plain sequence of characters. *)
Fixpoint linear (r : regex) : option (list cclass) :=
  match r with
  | Eps => Some []
  | Chr cl => Some [cl]
  | Seq a b =>
      match linear a, linear b with
      | Some la, Some lb => Some (la ++ lb)
      | _, _ => None
      end
  | Rep lo hi a =>
      match linear a with
      | Some la => if Nat.eqb lo hi then Some (List.concat (repeat la hi)) else None
      | None => None
      end
  | Paren a => linear a
  | _ => None
  end.

Fixpoint classes_match (cls : list cclass) (s : str) : bool :=
  match cls, s with
  | [], [] => true
  | cl :: cls', c :: s' => (cmatch cl c && classes_match cls' s')%bool
  | _, _ => false
  end.

(** The classes of [UUID_REGEX], one per character. *)
Definition UUID_CLASSES : list cclass :=
  match linear UUID_REGEX with Some l => l | None => [] end.

(** A UUID string without its hyphens. *)
Definition unhyphen (s : str) : str :=
  filter (fun c => negb (Ascii.eqb "-" c)) s.

(** The 256 characters. *)
Definition all_ascii : list ascii := map ascii_of_nat (seq 0 256).

(** What [uuid.UUID] keeps of the text after the first 36 characters. *)
Definition uuid_tail (tl : str) : str :=
  unhyphen (rstrip is_brace (remove (lit "uuid:") (remove (lit "urn:") tl))).

(** The tests on characters that matching a pattern can make. *)
Fixpoint tests (r : regex) : list (ascii -> bool) :=
  match r with
  | Eps | Bol => []
  | Chr cl => [cmatch cl]
  | Seq a b | Alt a b => tests a ++ tests b
  | Opt a | Star a | Rep _ _ a | Group _ a | Paren a => tests a
  | Eol => [fun c => Ascii.eqb c "010"]
  | WordB => [is_word]
  end.

(** Two characters that no test of [ts] tells apart. *)
Definition csim (ts : list (ascii -> bool)) (c c' : ascii) : bool :=
  forallb (fun t => Bool.eqb (t c) (t c')) ts.

Definition osim (ts : list (ascii -> bool)) (o o' : option ascii) : Prop :=
  match o, o' with
  | Some c, Some c' => csim ts c c' = true
  | None, None => True
  | _, _ => False
  end.

(** Two states at the same position of subjects that no test of [ts]
    tells apart. *)
Definition ssim (ts : list (ascii -> bool)) (st st' : mstate) : Prop :=
  pos st = pos st' /\ caps st = caps st' /\
  Forall2 (fun c c' => csim ts c c' = true) (rest st) (rest st') /\
  osim ts (prev st) (prev st').

(** Two digits whose value is [n]. *)
Definition two_digits (n : Z) (a b : ascii) : Prop :=
  is_digit a = true /\ is_digit b = true /\ int_ [a; b] = Ok n.

(** The offsets [DateTimeFormat.validate] can produce: whole minutes,
    less than a day. *)
Definition minutes_offset (tz : tzinfo) : Prop :=
  match tz with
  | None => True
  | Some off => exists k, off = k * 60000000 /\ -1440 < k < 1440
  end.

(** The six converters as values: [validate_of C s] and
    [serialize_of C v] are the calls [C.validate(s)] and
    [C.serialize(v)], with the native value as a Python object. *)
Inductive converter : Type :=
  CDate | CTime | CDateTime | CUuid | CUrl | CEmail.

Definition validate_of (bracketed_host_ok : str -> bool) (C : converter)
  (s : str) : result pyobj :=
  match C with
  | CDate => d <- DateFormat.validate s ;; Ok (PyDate d)
  | CTime => t <- TimeFormat.validate s ;; Ok (PyTime t)
  | CDateTime => dt <- DateTimeFormat.validate s ;; Ok (PyDateTime dt)
  | CUuid => u <- UUIDFormat.validate s ;; Ok (PyUUID u)
  | CUrl => p <- URLFormat.validate bracketed_host_ok s ;; Ok (PyParseResult p)
  | CEmail => e <- EmailFormat.validate s ;; Ok (PyStr e)
  end.

Definition serialize_of (C : converter) (v : pyobj) : result pyobj :=
  match C with
  | CDate => DateFormat.serialize v
  | CTime => TimeFormat.serialize v
  | CDateTime => DateTimeFormat.serialize v
  | CUuid => UUIDFormat.serialize v
  | CUrl => URLFormat.serialize v
  | CEmail => EmailFormat.serialize v
  end.

(** The most characters a pattern without [*] can read. *)
Fixpoint maxlen (r : regex) : nat :=
  match r with
  | Chr _ => 1
  | Seq a b => maxlen a + maxlen b
  | Alt a b => Nat.max (maxlen a) (maxlen b)
  | Opt a | Group _ a | Paren a => maxlen a
  | Rep _ hi a => hi * maxlen a
  | Eps | Star _ | Bol | Eol | WordB => 0
  end.

(** One or two digits, as [\d{1,2}] reads them. *)
Definition is_field (s : str) : bool :=
  (Nat.leb 1 (List.length s) && Nat.leb (List.length s) 2
   && forallb is_digit s)%bool.

(** A non-empty run of digits. *)
Definition is_digits (s : str) : bool :=
  (Nat.leb 1 (List.length s) && forallb is_digit s)%bool.

(** The microseconds that the digits [ds] after the decimal point stand
    for: the first six, as a number, times ten for each digit missing
    to six. *)
Definition microseconds (ds : str) : Z :=
  decimal (firstn 6 ds) * 10 ^ Z.of_nat (6 - List.length (firstn 6 ds)).

(** Four digits, as [\d{4}] reads them. *)
Definition is_year (s : str) : bool :=
  (Nat.eqb (List.length s) 4 && forallb is_digit s)%bool.

(** The character between date and time: [[T ]]. *)
Definition is_sep (c : ascii) : bool :=
  (Ascii.eqb c "T" || Ascii.eqb c " ")%bool.

(** The datetimes that [DateTimeFormat.validate] builds: fields in
    range, offset of whole minutes. *)
Definition valid_datetime (dt : datetime) : Prop :=
  check_date_fields (d_year (dt_date dt)) (d_month (dt_date dt))
    (d_day (dt_date dt)) = true /\
  check_time_fields (dt_hour dt) (dt_minute dt) (dt_second dt)
    (dt_microsecond dt) = true /\
  minutes_offset (dt_tzinfo dt).

(** The canonical string of the specification: ISO 8601, with [Z] for
    the offset of UTC. *)
Definition canonical (dt : datetime) : str :=
  match dt_tzinfo dt with
  | Some 0 =>
      date_isoformat (dt_date dt) ++ lit "T"
      ++ format_time (dt_hour dt) (dt_minute dt) (dt_second dt)
           (dt_microsecond dt)
      ++ lit "Z"
  | _ => datetime_isoformat dt
  end.

(** ** The words a pattern reads

    [lang r w tl]: the pattern [r] can read the word [w] when [tl] is
    what follows it in the subject ([tl] matters to [$] only).
    Assertions other than [$] are not looked at, so that [lang] holds
    of every match and of more. *)
Fixpoint pow_lang (L : str -> str -> Prop) (n : nat) (w tl : str) : Prop :=
  match n with
  | O => w = []
  | S k => exists w1 w2,
             w = w1 ++ w2 /\ L w1 (w2 ++ tl) /\ pow_lang L k w2 tl
  end.

Fixpoint lang (r : regex) (w tl : str) : Prop :=
  match r with
  | Eps | Bol | WordB => w = []
  | Chr cl => exists c, w = [c] /\ cmatch cl c = true
  | Seq a b =>
      exists w1 w2, w = w1 ++ w2 /\ lang a w1 (w2 ++ tl) /\ lang b w2 tl
  | Alt a b => lang a w tl \/ lang b w tl
  | Opt a => lang a w tl \/ w = []
  | Star a => exists n, pow_lang (lang a) n w tl
  | Rep lo hi a =>
      exists n, (n <= hi)%nat /\ ((lo <= hi)%nat -> (lo <= n)%nat) /\
                pow_lang (lang a) n w tl
  | Group _ a | Paren a => lang a w tl
  | Eol => w = [] /\ (tl = [] \/ tl = ["010"%char])
  end.
(** What may follow a match of [$]: nothing, or one final line feed. *)
Definition eol_tail (tl : str) : Prop := tl = [] \/ tl = ["010"%char].
(** The text [H:M], [H:M:S] or [H:M:S.ds] of a time, its parts given
    apart, and the numbers it stands for. *)
Definition time_text (H M : str) (tail : option (str * option str)) : str :=
  H ++ lit ":" ++ M ++
  match tail with
  | None => []
  | Some (Se, None) => lit ":" ++ Se
  | Some (Se, Some ds) => lit ":" ++ Se ++ lit "." ++ ds
  end.

Definition time_parts_ok (H M : str) (tail : option (str * option str))
  : bool :=
  (is_field H && is_field M &&
   match tail with
   | None => true
   | Some (Se, None) => is_field Se
   | Some (Se, Some ds) => is_field Se && is_digits ds
   end)%bool.

Definition second_of (tail : option (str * option str)) : Z :=
  match tail with Some (Se, _) => decimal Se | None => 0 end.

Definition microsecond_of (tail : option (str * option str)) : Z :=
  match tail with Some (_, Some ds) => microseconds ds | _ => 0 end.

(** Two digits, as [\d{2}] reads them and [isoformat] writes them. *)
Definition is_pair (s : str) : bool :=
  (Nat.eqb (List.length s) 2 && forallb is_digit s)%bool.

(** A timezone designator: [Z], or a sign, two digits of hours and
    possibly two digits of minutes, with or without a colon before
    them. *)
Inductive designator : Type :=
| TzZ
| TzOffset (neg : bool) (hh : str) (mm : option (bool * str)).

Definition designator_ok (d : designator) : bool :=
  match d with
  | TzZ => true
  | TzOffset _ hh None => is_pair hh
  | TzOffset _ hh (Some (_, mm)) => (is_pair hh && is_pair mm)%bool
  end.

Definition designator_text (d : designator) : str :=
  match d with
  | TzZ => lit "Z"
  | TzOffset neg hh mm =>
      (if neg then lit "-" else lit "+") ++ hh ++
      match mm with
      | None => []
      | Some (colon, mm) => (if colon then lit ":" else []) ++ mm
      end
  end.

(** The offset a designator stands for, in microseconds. *)
Definition offset_of (d : designator) : Z :=
  match d with
  | TzZ => 0
  | TzOffset neg hh mm =>
      let delta :=
        timedelta (decimal hh)
          (match mm with Some (_, mm) => decimal mm | None => 0 end) in
      if neg then - delta else delta
  end.

(** The [tzinfo] of an optional designator; [datetime.timezone] rejects
    an offset of a day or more. *)
Definition tzinfo_of (tz : option designator) : result tzinfo :=
  match tz with
  | None => Ok None
  | Some d => timezone (offset_of d)
  end.

Definition tz_text (tz : option designator) : str :=
  match tz with Some d => designator_text d | None => [] end.

Definition tz_ok (tz : option designator) : bool :=
  match tz with Some d => designator_ok d | None => true end.

(** The text of a date and a time, its parts given apart. *)
Definition datetime_text (Y Mo D : str) (sep : ascii) (H M : str)
  (tail : option (str * option str)) : str :=
  Y ++ lit "-" ++ Mo ++ lit "-" ++ D ++ [sep] ++ time_text H M tail.

(** What [DateTimeFormat.validate] makes of the numbers it read. *)
Definition datetime_of (y mo d h mi s us : Z) (tz : result tzinfo)
  : result datetime :=
  tzv <- tz ;;
  if (check_date_fields y mo d && check_time_fields h mi s us)%bool
  then Ok (DateTime (Date y mo d) h mi s us tzv)
  else Raise (ValidationError "Must be a real datetime." "invalid").

(** Patterns without a named group. *)
Fixpoint nogroup (r : regex) : bool :=
  match r with
  | Group _ _ => false
  | Seq a b | Alt a b => (nogroup a && nogroup b)%bool
  | Opt a | Star a | Rep _ _ a | Paren a => nogroup a
  | Eps | Chr _ | Bol | Eol | WordB => true
  end.

(** The state [st] belongs to a match on the subject [s]. *)
Definition on_subject (s : str) (st : mstate) : Prop :=
  skipn (pos st) s = rest st.
(** The [microsecond] group of a match on a time with the optional
    parts [tail]: with a fraction [ds], its first digits, six at most;
    without one, no group. *)
Definition micro_group (tail : option (str * option str)) (g : option str)
  : Prop :=
  match tail with
  | Some (_, Some ds) =>
      exists d1 d2, g = Some d1 /\ ds = d1 ++ d2 /\ is_digits d1 = true /\
                    (List.length d1 <= 6)%nat
  | _ => g = None
  end.

Definition micro_of_group (g : option str) : Z :=
  match g with Some d1 => microseconds d1 | None => 0 end.

(** The host of a URL without scheme, and what follows it: [urlsplit]
    ends the host at the first of [/], [?] and [#]. *)
Definition url_host (s : str) : str :=
  fst (span_ (fun c => negb (mem c (lit "/?#"))) s).

Definition url_path (s : str) : str :=
  snd (span_ (fun c => negb (mem c (lit "/?#"))) s).

(** A character that [urlparse] does not treat apart in a path: not the
    tab, carriage return or line feed it removes, nor [?], [#] or [;]. *)
Definition path_char (c : ascii) : bool :=
  negb (mem c (["009"; "013"; "010"]%char ++ lit "?#;")).

(** The characters of an e-mail address: letters and digits of ASCII,
    with [_.+-] before the [@], [-] in the first label of the domain,
    and [-.] in what follows its first dot. *)
Definition is_alnum (c : ascii) : bool :=
  (between 97 122 c || between 65 90 c || between 48 57 c)%bool.

Definition is_local (c : ascii) : bool := (is_alnum c || mem c (lit "_.+-"))%bool.

Definition is_label (c : ascii) : bool := (is_alnum c || Ascii.eqb c "-")%bool.

Definition is_domain (c : ascii) : bool := (is_alnum c || mem c (lit "-."))%bool.

(** A non-empty run of characters of one kind. *)
Definition is_run (p : ascii -> bool) (w : str) : bool :=
  (nonempty w && forallb p w)%bool.

Definition email_text (loc label dom nl : str) : str :=
  loc ++ lit "@" ++ label ++ lit "." ++ dom ++ nl.

(** [r] can match from a state where [from] remains of the subject to
    one where [to] remains. *)
Definition can (r : regex) (from to : str) : Prop :=
  forall st, rest st = from -> exists x, In x (runs r st) /\ rest x = to.

(** Patterns whose matches depend on the rest of the subject only: no
    [*], no [^], no [\b], and counts in order. *)
Fixpoint plain (r : regex) : bool :=
  match r with
  | Star _ | Bol | WordB => false
  | Seq a b | Alt a b => (plain a && plain b)%bool
  | Rep lo hi a => (Nat.leb lo hi && plain a)%bool
  | Opt a | Group _ a | Paren a => plain a
  | Eps | Chr _ | Eol => true
  end.

(** [m] is the first state that the continuation [K] reaches from the
    matches of [r] at [st]: what a backtracking matcher returns. *)
Definition first_with (K : mstate -> list mstate) (r : regex)
  (st m : mstate) : Prop :=
  hd_error (flat_map K (runs r st)) = Some m.

(** The characters of a time text: digits, [:] and [.]. *)
Definition time_char (c : ascii) : bool :=
  (is_digit c || Ascii.eqb c ":" || Ascii.eqb c ".")%bool.

(** [t] is empty or begins with a character that no time text holds. *)
Definition ends_time (t : str) : bool :=
  match t with
  | [] => true
  | c :: _ => negb (time_char c)
  end.

(** A URL as [urlsplit] reads it: without its tabs, carriage returns
    and line feeds. *)
Definition url_chars (s : str) : str :=
  remove ["010"%char] (remove ["013"%char] (remove ["009"%char] s)).

(** * Properties *)

(** ** Serializing [None] *)

(** C2: the date, time, datetime, URL and email converters serialize
    [None] to [None]; [UUIDFormat.serialize] has no guard for [None] and
    returns the string "None". *)
Theorem serialize_None :
  DateFormat.serialize PyNone = Ok PyNone /\
  TimeFormat.serialize PyNone = Ok PyNone /\
  DateTimeFormat.serialize PyNone = Ok PyNone /\
  URLFormat.serialize PyNone = Ok PyNone /\
  EmailFormat.serialize PyNone = Ok PyNone /\
  UUIDFormat.serialize PyNone = Ok (PyStr (lit "None")).
Proof. repeat split. Qed.

(** ** Native types *)

(** C6: [EmailFormat.is_native_type] tests for a [ParseResult], as
    [URLFormat.is_native_type] does: it is false on every string, the
    email address "a@b.com" that [EmailFormat.validate] returns included,
    and true on every parsed URL. *)
Theorem EmailFormat_is_native_type :
  (forall s, EmailFormat.is_native_type (PyStr s) = false) /\
  (forall v, EmailFormat.is_native_type v = URLFormat.is_native_type v) /\
  EmailFormat.validate (lit "a@b.com") = Ok (lit "a@b.com") /\
  EmailFormat.is_native_type (PyStr (lit "a@b.com")) = false.
Proof. repeat split. Qed.

(** ** UUIDs *)

(** C4: a canonical UUID followed by one more character passes
    [UUID_REGEX], which has no end anchor, and [uuid.UUID] then raises
    [ValueError], which [UUIDFormat.validate] does not catch. *)
Theorem UUIDFormat_validate_ValueError :
  UUIDFormat.validate (lit "550e8400-e29b-41d4-a716-446655440000x")
  = Raise ValueError.
Proof. vm_compute. reflexivity. Qed.


(** ** URLs *)

(** C5, as stated, fails: " a.com" contains the URL "a.com", which a
    search finds at position 1, and [URLFormat.validate] rejects it. *)
Lemma URLFormat_validate_leading_space :
  re_search URL_REGEX (lit " a.com") = Some 1%nat /\
  URLFormat.validate (fun _ => true) (lit " a.com")
  = Raise (ValidationError "Must be valid URL format." "format").
Proof. split; vm_compute; reflexivity. Qed.

(** ** The matcher: what a run consumes *)

Lemma last_opt_app w1 w2 d :
  last_opt (w1 ++ w2) d = last_opt w2 (last_opt w1 d).
Proof.
  unfold last_opt. rewrite rev_app_distr.
  destruct (rev w2); simpl; reflexivity.
Qed.

Section RunsInvariant.

(** A relation between a state and the states reached from it that
    holds of every step holds of every run. *)
Variable P : mstate -> mstate -> Prop.
Hypothesis P_refl : forall st, P st st.
Hypothesis P_trans : forall st x y, P st x -> P x y -> P st y.
Hypothesis P_advance :
  forall st c tl, rest st = c :: tl -> P st (advance st c tl).
Hypothesis P_set_cap :
  forall st x n, P st x -> P st (set_cap n (pos st) x).

Lemma rep_runs_invariant body
  (Hb : forall st x, In x (body st) -> P st x) hi :
  forall lo st x, In x (rep_runs body lo hi st) -> P st x.
Proof.
  induction hi as [|hi IH]; intros lo st x H; simpl in H.
  - destruct H as [ <- | [] ]. apply P_refl.
  - assert (In x (flat_map (rep_runs body (Nat.pred lo) hi) (body st))
            \/ x = st) as [H' | -> ].
    { destruct lo; simpl; auto.
      apply in_app_or in H. destruct H as [H| [ <- | [] ] ]; auto. }
    + apply in_flat_map in H'. destruct H' as (y & Hy & Hx). eauto.
    + apply P_refl.
Qed.

Lemma star_runs_invariant body
  (Hb : forall st x, In x (body st) -> P st x) fuel :
  forall st x, In x (star_runs body fuel st) -> P st x.
Proof.
  induction fuel as [|f IH]; intros st x H; simpl in H.
  - destruct H as [ <- | [] ]. apply P_refl.
  - apply in_app_or in H. destruct H as [H| [ <- | [] ] ]; [|apply P_refl].
    apply in_flat_map in H. destruct H as (y & Hy & Hx).
    destruct (Nat.ltb (pos st) (pos y)); [|destruct Hx]. eauto.
Qed.

Lemma runs_invariant r : forall st x, In x (runs r st) -> P st x.
Proof.
  induction r; intros st x H; simpl in H.
  - destruct H as [ <- | [] ]. apply P_refl.
  - destruct (rest st) as [|c tl] eqn:E; [destruct H|].
    destruct (cmatch cl c); [|destruct H]. destruct H as [ <- | [] ].
    apply P_advance, E.
  - apply in_flat_map in H. destruct H as (y & Hy & Hx). eauto.
  - apply in_app_or in H. destruct H; eauto.
  - apply in_app_or in H. destruct H as [H| [ <- | [] ] ]; eauto.
  - eapply star_runs_invariant; eauto.
  - eapply rep_runs_invariant; eauto.
  - apply in_map_iff in H. destruct H as (y & <- & Hy). eauto.
  - eauto.
  - destruct (Nat.eqb (pos st) 0); [|destruct H].
    destruct H as [ <- | [] ]. apply P_refl.
  - destruct (at_eol st); [|destruct H].
    destruct H as [ <- | [] ]. apply P_refl.
  - destruct (at_wordb st); [|destruct H].
    destruct H as [ <- | [] ]. apply P_refl.
Qed.

End RunsInvariant.

Lemma reads_refl st : reads st [] st.
Proof. unfold reads; simpl. repeat split. lia. Qed.

Lemma reads_trans st w1 x w2 y :
  reads st w1 x -> reads x w2 y -> reads st (w1 ++ w2) y.
Proof.
  intros (H1 & H2 & H3) (H4 & H5 & H6). unfold reads.
  rewrite H1, H4, H5, H2, H6, H3, length_app, <- app_assoc, last_opt_app.
  repeat split. lia.
Qed.

Lemma runs_reads r st x : In x (runs r st) -> exists w, reads st w x.
Proof.
  apply (runs_invariant (fun st x => exists w, reads st w x)); clear.
  - intros st. exists []. apply reads_refl.
  - intros st x y (w1 & R1) (w2 & R2). exists (w1 ++ w2).
    eapply reads_trans; eauto.
  - intros st c tl E. exists [c]. unfold reads, advance; simpl.
    rewrite E. repeat split. lia.
  - intros st x n (w & R). exists w. exact R.
Qed.

Lemma runs_pos_le r st x : In x (runs r st) -> (pos st <= pos x)%nat.
Proof.
  intros H. destruct (runs_reads _ _ _ H) as (w & _ & R & _). lia.
Qed.

Lemma runs_caps_le r st x : In x (runs r st) -> caps_le st -> caps_le x.
Proof.
  intros H. 
  apply (runs_invariant
           (fun st x => (pos st <= pos x)%nat /\ (caps_le st -> caps_le x)))
    in H; [tauto| | | |]; clear; unfold caps_le.
  - intros st; split; auto.
  - intros st x y (L1 & C1) (L2 & C2). split; [lia|auto].
  - intros st c tl _. simpl. split; [lia|]. intros H.
    eapply Forall_impl; [|exact H]. simpl. intros; lia.
  - intros st x n (L & C). simpl. split; [exact L|]. intros H.
    constructor; simpl; auto.
Qed.

Lemma re_match_In r s m : re_match r s = Some m -> In m (runs r (init s)).
Proof.
  unfold re_match. destruct (runs r (init s)); simpl; [discriminate|].
  intros [= ->]. now left.
Qed.

(** A match is a prefix of the subject. *)
Lemma re_match_prefix r s m :
  re_match r s = Some m ->
  s = firstn (pos m) s ++ rest m /\ List.length (firstn (pos m) s) = pos m.
Proof.
  intros H. apply re_match_In in H. destruct (runs_reads _ _ _ H) as (w & R).
  destruct R as (R1 & R2 & _). simpl in R1, R2. subst s. rewrite R2.
  rewrite firstn_app, firstn_all, Nat.sub_diag. simpl.
  rewrite app_nil_r. split; reflexivity.
Qed.

(** ** Cutting the subject after the match *)

Lemma flat_map_ext_in {A B} (f g : A -> list B) l :
  (forall x, In x l -> f x = g x) -> flat_map f l = flat_map g l.
Proof.
  induction l as [|a l IH]; simpl; intros H; [reflexivity|].
  rewrite H, IH; auto.
Qed.

Lemma flat_map_map {A B C} (f : B -> list C) (g : A -> B) l :
  flat_map f (map g l) = flat_map (fun x => f (g x)) l.
Proof. induction l; simpl; congruence. Qed.

Lemma flat_map_filter {A B} (f : A -> list B) P l :
  flat_map f (filter P l) = flat_map (fun x => if P x then f x else []) l.
Proof.
  induction l as [|a l IH]; simpl; [reflexivity|].
  destruct (P a); simpl; congruence.
Qed.

Lemma filter_flat_map {A B} (f : A -> list B) P l :
  filter P (flat_map f l) = flat_map (fun x => filter P (f x)) l.
Proof.
  induction l as [|a l IH]; simpl; [reflexivity|].
  rewrite filter_app; congruence.
Qed.

Lemma map_flat_map {A B C} (f : A -> list B) (g : B -> C) l :
  map g (flat_map f l) = flat_map (fun x => map g (f x)) l.
Proof.
  induction l as [|a l IH]; simpl; [reflexivity|].
  rewrite map_app; congruence.
Qed.

Lemma filter_none {A} (P : A -> bool) l :
  (forall x, In x l -> P x = false) -> filter P l = [].
Proof.
  induction l as [|a l IH]; simpl; intros H; [reflexivity|].
  rewrite (H a), IH; auto.
Qed.

Section Trunc.

Variable e : nat.

Let T (f : mstate -> list mstate) (st : mstate) : Prop :=
  f (trunc e st) = map (trunc e) (filter (within e) (f st)).

Lemma trunc_seq f g :
  (forall st x, In x (f st) -> (pos st <= pos x)%nat) ->
  (forall st x, In x (g st) -> (pos st <= pos x)%nat) ->
  (forall st, (pos st <= e)%nat -> T f st) ->
  (forall st, (pos st <= e)%nat -> T g st) ->
  forall st, (pos st <= e)%nat -> T (fun st => flat_map g (f st)) st.
Proof.
  intros Mf Mg Hf Hg st L. unfold T in *.
  rewrite Hf by exact L.
  rewrite flat_map_map, flat_map_filter, filter_flat_map, map_flat_map.
  apply flat_map_ext_in. intros x Hx. unfold within at 1.
  destruct (Nat.leb (pos x) e) eqn:E.
  - apply Hg. apply Nat.leb_le, E.
  - rewrite filter_none; [reflexivity|].
    intros y Hy. unfold within. apply Nat.leb_gt. apply Nat.leb_gt in E.
    specialize (Mg _ _ Hy). lia.
Qed.

Lemma trunc_app f g st :
  T f st -> T g st -> T (fun st => f st ++ g st) st.
Proof. unfold T. intros -> ->. now rewrite filter_app, map_app. Qed.

Lemma trunc_self st : (pos st <= e)%nat -> T (fun st => [st]) st.
Proof.
  unfold T. intros L. simpl. unfold within.
  apply Nat.leb_le in L. now rewrite L.
Qed.

Lemma runs_trunc r :
  simple r = true ->
  forall st, (pos st <= e)%nat -> T (runs r) st.
Proof.
  induction r; simpl; intros Hs; try discriminate;
    try (apply andb_prop in Hs; destruct Hs as [S1 S2]).
  - apply trunc_self.
  - intros st L. unfold T. cbn [runs trunc rest].
    destruct (rest st) as [|c tl] eqn:E.
    + now rewrite firstn_nil.
    + destruct (Nat.eq_dec (pos st) e) as [Q|N].
      * rewrite Q, Nat.sub_diag. cbn [firstn].
        destruct (cmatch cl c); [|reflexivity].
        cbn [filter]. unfold within at 1. cbn [advance pos].
        replace (Nat.leb (S (pos st)) e) with false; [reflexivity|].
        symmetry. apply Nat.leb_gt. lia.
      * replace (e - pos st)%nat with (S (e - S (pos st))) by lia.
        cbn [firstn].
        destruct (cmatch cl c); [|reflexivity].
        cbn [filter]. unfold within at 1. cbn [advance pos].
        replace (Nat.leb (S (pos st)) e) with true
          by (symmetry; apply Nat.leb_le; lia).
        reflexivity.
  - apply (@trunc_seq (runs r1) (runs r2));
      [apply runs_pos_le|apply runs_pos_le|apply IHr1, S1|apply IHr2, S2].
  - intros st L. apply (@trunc_app (runs r1) (runs r2));
      [apply IHr1|apply IHr2]; assumption.
  - intros st L. apply (@trunc_app (runs r) (fun st => [st]));
      [apply IHr; assumption|now apply trunc_self].
  - specialize (IHr Hs). clear Hs. revert lo.
    induction hi as [|hi IH]; intros lo; simpl.
    + apply trunc_self.
    + assert (M : forall lo st x, In x (rep_runs (runs r) lo hi st) ->
                                  (pos st <= pos x)%nat).
      { intros lo' st x. apply (@rep_runs_invariant
          (fun st x => (pos st <= pos x)%nat)); [lia|lia|].
        apply runs_pos_le. }
      destruct lo.
      * intros st L.
        apply (@trunc_app (fun st => flat_map (rep_runs (runs r) 0 hi)
                                      (runs r st)) (fun st => [st]));
          [|now apply trunc_self].
        apply (@trunc_seq (runs r) (rep_runs (runs r) 0 hi));
          [apply runs_pos_le|apply M|apply IHr|apply IH|exact L].
      * apply (@trunc_seq (runs r) (rep_runs (runs r) lo hi));
          [apply runs_pos_le|apply M|apply IHr|apply IH].
  - intros st L. unfold T. simpl. rewrite (IHr Hs st L).
    rewrite !map_map.
    assert (F : forall l, filter (within e) (map (set_cap name (pos st)) l)
                = map (set_cap name (pos st)) (filter (within e) l)).
    { induction l as [|a l IHl]; [reflexivity|]. cbn [map filter].
      change (within e (set_cap name (pos st) a)) with (within e a).
      destruct (within e a); cbn [map]; congruence. }
    rewrite F, map_map. reflexivity.
  - apply IHr, Hs.
Qed.

End Trunc.

(** A simple pattern that matches [s] matches the matched prefix of [s]
    in the same way. *)
Lemma re_match_trunc r s m :
  simple r = true -> re_match r s = Some m ->
  re_match r (firstn (pos m) s) = Some (trunc (pos m) m).
Proof.
  intros Hs H. unfold re_match in *.
  assert (E : init (firstn (pos m) s) = trunc (pos m) (init s)).
  { unfold trunc, init; simpl. now rewrite Nat.sub_0_r. }
  rewrite E, runs_trunc by (simpl; auto; lia).
  destruct (runs r (init s)) as [|a l]; [discriminate|].
  simpl in H. injection H as ->. simpl. unfold within at 1.
  rewrite Nat.leb_refl. reflexivity.
Qed.

Lemma substr_firstn s b e e' :
  (e' <= e)%nat -> substr (firstn e s) b e' = substr s b e'.
Proof.
  intros L. unfold substr. rewrite skipn_firstn_comm, firstn_firstn.
  f_equal. lia.
Qed.

Lemma assoc_In n l v : assoc n l = Some v -> In (n, v) l.
Proof.
  induction l as [|[k w] l IH]; simpl; [discriminate|].
  destruct (String.eqb k n) eqn:E.
  - apply String.eqb_eq in E. intros [= ->]. left. congruence.
  - auto.
Qed.

Lemma group_trunc s m n :
  caps_le m ->
  group (firstn (pos m) s) (trunc (pos m) m) n = group s m n.
Proof.
  intros C. unfold group. cbn [trunc caps].
  destruct (assoc n (caps m)) as [[b e]|] eqn:E; [|reflexivity].
  f_equal. apply substr_firstn.
  apply assoc_In in E. unfold caps_le in C. rewrite Forall_forall in C.
  apply (C _ E).
Qed.

Lemma re_match_caps_le r s m : re_match r s = Some m -> caps_le m.
Proof.
  intros H. apply re_match_In in H. eapply runs_caps_le; eauto.
  constructor.
Qed.

Lemma runs_ends_eol r :
  ends_eol r = true -> forall st x, In x (runs r st) -> at_eol x = true.
Proof.
  induction r; simpl; try discriminate; intros E st x H.
  - apply in_flat_map in H. destruct H as (y & _ & H). eauto.
  - eauto.
  - destruct (at_eol st) eqn:A; [|destruct H].
    destruct H as [ <- | [] ]. exact A.
Qed.

(** With a final [$] the match runs to the end of the subject, or to
    the newline that ends it. *)
Lemma re_match_ends_eol r s m :
  ends_eol r = true -> re_match r s = Some m ->
  s = firstn (pos m) s \/ s = firstn (pos m) s ++ ["010"%char].
Proof.
  intros E H. destruct (re_match_prefix _ _ H) as (P & _).
  apply re_match_In in H. apply (@runs_ends_eol r E) in H.
  unfold at_eol in H. destruct (rest m) as [|c [|d tl]]; try discriminate.
  - left. rewrite app_nil_r in P. exact P.
  - right. apply Ascii.eqb_eq in H. subst c. exact P.
Qed.

(** ** TimeFormat is not anchored at the end *)

Lemma TimeFormat_validate_prefix s m :
  re_match TIME_REGEX s = Some m ->
  TimeFormat.validate (firstn (pos m) s) = TimeFormat.validate s.
Proof.
  intros H. unfold TimeFormat.validate.
  rewrite (@re_match_trunc TIME_REGEX s m eq_refl H), H.
  rewrite !group_trunc by (eapply re_match_caps_le; eauto).
  reflexivity.
Qed.

(** ** Appending text to the subject *)

Section Extend.

Variable t : str.
Hypothesis t_boundary : word_opt (hd_error t) = false.

Let X (f : mstate -> list mstate) : Prop :=
  forall st x, In x (f st) -> In (extend t x) (f (extend t st)).

Lemma extend_seq f g : X f -> X g -> X (fun st => flat_map g (f st)).
Proof.
  intros Hf Hg st x H. apply in_flat_map in H. destruct H as (y & Hy & Hx).
  apply in_flat_map. exists (extend t y). split; [apply Hf, Hy|apply Hg, Hx].
Qed.

Lemma extend_app f g : X f -> X g -> X (fun st => f st ++ g st).
Proof.
  intros Hf Hg st x H. apply in_app_or in H. apply in_or_app.
  destruct H; [left; apply Hf|right; apply Hg]; assumption.
Qed.

Lemma extend_self : X (fun st => [st]).
Proof. intros st x [ <- | [] ]. now left. Qed.

Lemma extend_rep body : X body -> forall hi lo, X (rep_runs body lo hi).
Proof.
  intros Hb. induction hi as [|hi IH]; intros lo.
  - apply extend_self.
  - destruct lo; cbn [rep_runs].
    + apply (@extend_app (fun st => flat_map (rep_runs body 0 hi) (body st))
                         (fun st => [st])); [|apply extend_self].
      apply (@extend_seq body (rep_runs body 0 hi)); auto.
    + apply (@extend_seq body (rep_runs body lo hi)); auto.
Qed.

Lemma extend_star body : X body ->
  forall f f' st x, (f <= f')%nat -> In x (star_runs body f st) ->
  In (extend t x) (star_runs body f' (extend t st)).
Proof.
  intros Hb. induction f as [|f IH]; intros f' st x L H.
  - destruct H as [ <- | [] ].
    destruct f'; cbn [star_runs]; [now left|].
    apply in_or_app. right. now left.
  - destruct f' as [|f']; [lia|]. cbn [star_runs] in *.
    apply in_app_or in H. apply in_or_app.
    destruct H as [H| [ <- | [] ] ]; [left|right; now left].
    apply in_flat_map in H. destruct H as (y & Hy & Hx).
    apply in_flat_map. exists (extend t y). split; [apply Hb, Hy|].
    cbn [extend pos].
    destruct (Nat.ltb (pos st) (pos y)); [|destruct Hx].
    apply IH; [lia|exact Hx].
Qed.

Lemma runs_extend r : no_eol r = true -> X (runs r).
Proof.
  induction r; cbn [no_eol]; intros N; try discriminate;
    try (apply andb_prop in N; destruct N as [N1 N2]).
  - apply extend_self.
  - intros st x H. cbn [runs] in *. cbn [extend rest].
    destruct (rest st) as [|c tl]; [destruct H|]. cbn [app].
    destruct (cmatch cl c); [|destruct H].
    destruct H as [ <- | [] ]. now left.
  - apply (@extend_seq (runs r1) (runs r2)); auto.
  - apply (@extend_app (runs r1) (runs r2)); auto.
  - apply (@extend_app (runs r) (fun st => [st])); auto using extend_self.
  - intros st x H. cbn [runs] in *.
    apply (@extend_star (runs r) (IHr N) (List.length (rest st)));
      [|exact H].
    cbn [extend rest]. rewrite length_app. lia.
  - intros st x H. cbn [runs] in *. apply extend_rep; auto.
  - intros st x H. cbn [runs] in *. apply in_map_iff in H.
    destruct H as (y & <- & Hy). apply in_map_iff.
    exists (extend t y). split; [reflexivity|]. apply IHr; auto.
  - apply IHr, N.
  - intros st x H. cbn [runs] in *. cbn [extend pos].
    destruct (Nat.eqb (pos st) 0); [|destruct H].
    destruct H as [ <- | [] ]. now left.
  - intros st x H. cbn [runs] in *.
    assert (E : at_wordb (extend t st) = at_wordb st).
    { unfold at_wordb. cbn [extend prev rest]. f_equal.
      destruct (rest st); [exact t_boundary|reflexivity]. }
    rewrite E. destruct (at_wordb st); [|destruct H].
    destruct H as [ <- | [] ]. now left.
Qed.

(** A pattern without [$] that matches [s] matches [s ++ t]. *)
Lemma matches_extend r s :
  no_eol r = true -> matches r s = true -> matches r (s ++ t) = true.
Proof.
  unfold matches, re_match. intros N H.
  destruct (runs r (init s)) as [|m l] eqn:E; [discriminate|].
  assert (I : In (extend t m) (runs r (init (s ++ t)))).
  { apply (@runs_extend r N (init s)). rewrite E. now left. }
  destruct (runs r (init (s ++ t))); [destruct I|reflexivity].
Qed.

End Extend.

Lemma runs_Seq_inv a b st x :
  In x (runs (Seq a b) st) -> exists y, In y (runs a st) /\ In x (runs b y).
Proof. intros H. apply in_flat_map in H. exact H. Qed.

(** [URL_REGEX] begins with [\b]: a match starts with a word character. *)
Lemma URL_REGEX_first_char s :
  matches URL_REGEX s = true -> word_opt (hd_error s) = true.
Proof.
  unfold matches. destruct (re_match URL_REGEX s) as [m|] eqn:H;
    [intros _|discriminate].
  apply re_match_In in H. unfold URL_REGEX in H. cbn [seqs] in H.
  apply runs_Seq_inv in H. destruct H as (y & Hy & _).
  cbn [runs] in Hy. destruct (at_wordb (init s)) eqn:A; [|destruct Hy].
  unfold at_wordb in A. cbn in A. exact A.
Qed.

(** C5, amended: [URLFormat.validate] matches at the start of the
    string. A string the pattern matches begins with a word character,
    so text before the URL is not tolerated; it is still matched when
    text that begins with a non-word character is appended, and
    [validate] then hands the whole string to [urlparse]. *)
Theorem URLFormat_validate_start_anchored
  (bracketed_host_ok : str -> bool) (u t : str) :
  matches URL_REGEX u = true ->
  word_opt (hd_error t) = false ->
  word_opt (hd_error u) = true /\
  matches URL_REGEX (u ++ t) = true /\
  URLFormat.validate bracketed_host_ok (u ++ t)
  = urlparse bracketed_host_ok
      (if negb (startswith (u ++ t) (lit "http"))
       then lit "http://" ++ u ++ t else u ++ t).
Proof.
  intros M B. split; [apply URL_REGEX_first_char, M|].
  assert (M' := @matches_extend t B URL_REGEX u eq_refl M).
  split; [exact M'|].
  unfold URLFormat.validate. unfold matches in M'.
  destruct (re_match URL_REGEX (u ++ t)); [reflexivity|discriminate].
Qed.

Lemma URLFormat_validate_start_anchored_witness :
  matches URL_REGEX (lit "a.com") = true /\
  word_opt (hd_error (lit " and more")) = false /\
  URLFormat.validate (fun _ => true) (lit "a.com" ++ lit " and more")
  = urlparse (fun _ => true) (lit "http://a.com and more").
Proof.
  assert (M : matches URL_REGEX (lit "a.com") = true)
    by (vm_compute; reflexivity).
  assert (B : word_opt (hd_error (lit " and more")) = false)
    by (vm_compute; reflexivity).
  split; [exact M|]. split; [exact B|].
  exact (proj2 (proj2 (@URLFormat_validate_start_anchored
                         (fun _ => true) (lit "a.com") (lit " and more")
                         M B))).
Defined.

(** ** Positional notation *)

Section Positional.

Variables (b : Z) (chr_of : Z -> ascii) (val_of : ascii -> Z).
Hypothesis b_ge_2 : 2 <= b.
Hypothesis val_chr : forall d, 0 <= d < b -> val_of (chr_of d) = d.
Hypothesis chr_0 : chr_of 0 = "0"%char.

Lemma of_digits_snoc s c :
  of_digits b val_of (s ++ [c]) = b * of_digits b val_of s + val_of c.
Proof. unfold of_digits. now rewrite fold_left_app. Qed.

Lemma length_fixed_digits w : forall n,
  List.length (fixed_digits b chr_of w n) = w.
Proof.
  induction w as [|w IH]; intros n; simpl; [reflexivity|].
  rewrite length_app, IH. simpl. lia.
Qed.

Lemma of_digits_fixed w : forall n, 0 <= n ->
  of_digits b val_of (fixed_digits b chr_of w n) = n mod b ^ Z.of_nat w.
Proof.
  induction w as [|w IH]; intros n Hn.
  - simpl. now rewrite Z.mod_1_r.
  - cbn [fixed_digits]. rewrite of_digits_snoc, IH, val_chr.
    + rewrite Nat2Z.inj_succ, Z.pow_succ_r by lia.
      rewrite Z.rem_mul_r by (try apply Z.pow_pos_nonneg; lia). lia.
    + apply Z.mod_pos_bound. lia.
    + apply Z.div_pos; lia.
Qed.

Lemma fixed_digits_0 w : fixed_digits b chr_of w 0 = repeat "0"%char w.
Proof.
  induction w as [|w IH]; [reflexivity|]. cbn [fixed_digits].
  rewrite Z.div_0_l, Z.mod_0_l, IH, chr_0 by lia.
  now rewrite <- repeat_cons.
Qed.

Lemma zfill_snoc w s c : zfill (S w) (s ++ [c]) = zfill w s ++ [c].
Proof.
  unfold zfill. rewrite length_app, <- app_assoc. simpl.
  replace (w - List.length s)%nat with (S w - (List.length s + 1))%nat by lia.
  reflexivity.
Qed.

Lemma zfill_to_digits w : forall f n,
  (1 <= w)%nat -> 0 <= n < b ^ Z.of_nat w -> n < b ^ Z.of_nat f ->
  zfill w (to_digits b chr_of f n) = fixed_digits b chr_of w n.
Proof.
  induction w as [|w IH]; intros f n Hw Hn Hf; [lia|].
  destruct (Z.ltb_spec n b) as [L|L].
  - assert (E : fixed_digits b chr_of (S w) n = repeat "0"%char w ++ [chr_of n]).
    { cbn [fixed_digits]. rewrite Z.div_small, Z.mod_small, fixed_digits_0
        by lia. reflexivity. }
    rewrite E. destruct f as [|f].
    + simpl in Hf. assert (n = 0) by lia. subst n.
      cbn [to_digits]. unfold zfill. simpl. rewrite chr_0, app_nil_r.
      now rewrite <- repeat_cons.
    + cbn [to_digits]. apply Z.ltb_lt in L. rewrite L. unfold zfill.
      simpl. now rewrite Nat.sub_0_r.
  - destruct f as [|f]; [simpl in Hf; lia|].
    cbn [to_digits fixed_digits].
    assert (F : (n <? b) = false) by (apply Z.ltb_ge; lia). rewrite F.
    rewrite zfill_snoc. f_equal.
    rewrite Nat2Z.inj_succ, Z.pow_succ_r in Hn, Hf by lia.
    destruct w as [|w].
    { simpl in Hn. lia. }
    apply IH; [lia| |].
    + split; [apply Z.div_pos; lia|].
      apply Z.div_lt_upper_bound; lia.
    + apply Z.div_lt_upper_bound; lia.
Qed.

Lemma log2_fuel n : 0 <= n -> n < b ^ Z.of_nat (S (Z.to_nat (Z.log2 n))).
Proof.
  intros Hn. rewrite Nat2Z.inj_succ, Z2Nat.id by apply Z.log2_nonneg.
  destruct (Z.eq_dec n 0) as [->|N].
  - apply Z.pow_pos_nonneg; simpl; lia.
  - apply Z.lt_le_trans with (2 ^ Z.succ (Z.log2 n)).
    + apply Z.log2_spec. lia.
    + apply Z.pow_le_mono_l. pose proof (Z.log2_nonneg n). lia.
Qed.

Lemma of_digits_bound s :
  Forall (fun c => 0 <= val_of c < b) s ->
  0 <= of_digits b val_of s < b ^ Z.of_nat (List.length s).
Proof.
  induction s as [|c s IH] using rev_ind; intros F.
  - simpl. unfold of_digits. simpl. lia.
  - apply Forall_app in F. destruct F as [F1 F2]. inversion_clear F2.
    specialize (IH F1). rewrite of_digits_snoc, length_app. simpl.
    rewrite Nat2Z.inj_add, Z.pow_add_r by lia. simpl Z.of_nat.
    rewrite Z.pow_1_r. nia.
Qed.

Lemma fixed_of_digits s :
  Forall (fun c => 0 <= val_of c < b /\ chr_of (val_of c) = c) s ->
  fixed_digits b chr_of (List.length s) (of_digits b val_of s) = s.
Proof.
  induction s as [|c s IH] using rev_ind; intros F; [reflexivity|].
  apply Forall_app in F. destruct F as [F1 F2]. inversion_clear F2.
  destruct H as [Hc1 Hc2].
  rewrite of_digits_snoc, length_app, Nat.add_comm. cbn [List.length Nat.add].
  cbn [fixed_digits].
  replace ((b * of_digits b val_of s + val_of c) / b)
    with (of_digits b val_of s).
  2:{ rewrite Z.mul_comm, Z.div_add_l, Z.div_small by lia. lia. }
  replace ((b * of_digits b val_of s + val_of c) mod b) with (val_of c).
  2:{ rewrite Z.add_comm, Z.mul_comm, Z.mod_add, Z.mod_small by lia. lia. }
  now rewrite IH, Hc2.
Qed.

End Positional.

(** ** Patterns that are a plain sequence of characters *)

Lemma take_app l1 l2 st :
  take (l1 ++ l2) st =
  match take l1 st with Some x => take l2 x | None => None end.
Proof.
  revert st. induction l1 as [|cl l1 IH]; intros st; simpl; [reflexivity|].
  destruct (rest st) as [|c tl]; [reflexivity|].
  destruct (cmatch cl c); [apply IH|reflexivity].
Qed.

Lemma flat_map_opt_list (f : mstate -> option mstate) o :
  flat_map (fun x => opt_list (f x)) (opt_list o) =
  opt_list (match o with Some x => f x | None => None end).
Proof. destruct o; simpl; [apply app_nil_r|reflexivity]. Qed.

Lemma rep_runs_linear body la
  (Hb : forall st, body st = opt_list (take la st)) n :
  forall st, rep_runs body n n st = opt_list (take (List.concat (repeat la n)) st).
Proof.
  induction n as [|n IH]; intros st; [reflexivity|].
  cbn [rep_runs repeat List.concat]. rewrite take_app, Hb.
  rewrite (flat_map_ext _ _ IH). apply flat_map_opt_list.
Qed.

Lemma runs_linear r : forall cls, linear r = Some cls ->
  forall st, runs r st = opt_list (take cls st).
Proof.
  induction r; intros cls L st; cbn [linear] in L; try discriminate.
  - injection L as <-. reflexivity.
  - injection L as <-. cbn [runs take].
    destruct (rest st) as [|c tl]; [reflexivity|].
    destruct (cmatch cl c); reflexivity.
  - destruct (linear r1) as [la|]; [|discriminate].
    destruct (linear r2) as [lb|]; [|discriminate]. injection L as <-.
    cbn [runs]. rewrite take_app, (IHr1 la eq_refl).
    rewrite (flat_map_ext _ _ (IHr2 lb eq_refl)). apply flat_map_opt_list.
  - destruct (linear r) as [la|]; [|discriminate].
    destruct (Nat.eqb lo hi) eqn:E; [|discriminate]. injection L as <-.
    apply Nat.eqb_eq in E. subst lo. cbn [runs].
    apply rep_runs_linear. intros st'. apply IHr. reflexivity.
  - cbn [runs]. apply IHr, L.
Qed.

Lemma take_classes_match cls : forall st x,
  take cls st = Some x ->
  exists p, rest st = p ++ rest x /\ classes_match cls p = true.
Proof.
  induction cls as [|cl cls IH]; intros st x H; simpl in H.
  - injection H as <-. exists []. split; reflexivity.
  - destruct (rest st) as [|c tl] eqn:E; [discriminate|].
    destruct (cmatch cl c) eqn:M; [|discriminate].
    destruct (IH _ _ H) as (p & P1 & P2). exists (c :: p).
    simpl in *. rewrite P1, M, P2. split; reflexivity.
Qed.

Lemma classes_match_take cls : forall p st tl,
  classes_match cls p = true -> rest st = p ++ tl ->
  exists x, take cls st = Some x.
Proof.
  induction cls as [|cl cls IH]; intros p st tl M E; simpl.
  - eauto.
  - destruct p as [|c p]; [discriminate|]. simpl in M, E.
    apply andb_prop in M. destruct M as [M1 M2]. rewrite E, M1.
    eapply IH; eauto. reflexivity.
Qed.

(** [UUID_REGEX] matches the strings whose first 36 characters belong,
    one by one, to its 36 classes. *)
Lemma UUID_REGEX_matches s :
  matches UUID_REGEX s = true <->
  exists p tl, s = p ++ tl /\ classes_match UUID_CLASSES p = true.
Proof.
  unfold matches, re_match.
  rewrite (@runs_linear UUID_REGEX UUID_CLASSES eq_refl). split.
  - destruct (take UUID_CLASSES (init s)) as [x|] eqn:T; [|discriminate].
    intros _. destruct (take_classes_match _ _ T) as (p & P1 & P2).
    exists p, (rest x). split; assumption.
  - intros (p & tl & E & M).
    destruct (@classes_match_take _ p (init s) tl M E) as (x & ->).
    reflexivity.
Qed.

(** ** Facts about characters, by enumeration *)

Lemma ascii_forall (P : ascii -> bool) :
  forallb P all_ascii = true -> forall c, P c = true.
Proof.
  intros H c. rewrite forallb_forall in H. apply H.
  unfold all_ascii. rewrite <- (ascii_nat_embedding c).
  apply in_map, in_seq. pose proof (nat_ascii_bounded c). lia.
Qed.

Lemma lower_hex_facts c :
  is_lower_hex c = true ->
  Ascii.eqb "u" c = false /\ is_brace c = false /\ Ascii.eqb "-" c = false /\
  is_hex c = true /\ 0 <= hex_val c < 16 /\ hex_char (hex_val c) = c.
Proof.
  intros H.
  assert (A := ascii_forall
    (fun c => implb (is_lower_hex c)
       (negb (Ascii.eqb "u" c) && negb (is_brace c)
        && negb (Ascii.eqb "-" c) && is_hex c && (0 <=? hex_val c)
        && (hex_val c <? 16) && Ascii.eqb (hex_char (hex_val c)) c))
    eq_refl c).
  cbv beta in A. rewrite H in A. cbn [implb] in A.
  repeat (apply andb_prop in A; destruct A as [A ?]).
  repeat match goal with
         | H : negb _ = true |- _ => apply negb_true_iff in H
         end.
  apply Ascii.eqb_eq in H0. apply Z.ltb_lt in H1. apply Z.leb_le in H2.
  repeat split; assumption || lia.
Qed.

(** ** Strings *)

Lemma remove_go_absent h o p tl :
  Forall (fun c => Ascii.eqb h c = false) p ->
  remove_go (h :: o) 0 (p ++ tl) = p ++ remove_go (h :: o) 0 tl.
Proof.
  induction 1 as [|c p Hc _ IH]; [reflexivity|].
  cbn [app remove_go prefixb]. rewrite Hc. cbn [andb]. now rewrite IH.
Qed.

Lemma remove_single x s :
  remove [x] s = filter (fun c => negb (Ascii.eqb x c)) s.
Proof.
  unfold remove. induction s as [|c s IH]; [reflexivity|].
  cbn [remove_go prefixb filter List.length Nat.sub].
  destruct (Ascii.eqb x c); cbn [andb negb].
  - destruct s; exact IH.
  - now rewrite IH.
Qed.

Lemma lstrip_app f a b :
  lstrip f (a ++ b) =
  if forallb f a then lstrip f b else lstrip f a ++ b.
Proof.
  induction a as [|c a IH]; [reflexivity|]. cbn [app lstrip forallb].
  destruct (f c); [exact IH|reflexivity].
Qed.

Lemma lstrip_all f a : forallb f a = true -> lstrip f a = [].
Proof.
  induction a as [|c a IH]; [reflexivity|]. cbn [lstrip forallb].
  destruct (f c); [exact IH|discriminate].
Qed.

Lemma rstrip_app f p c tl :
  f c = false -> rstrip f ((p ++ [c]) ++ tl) = (p ++ [c]) ++ rstrip f tl.
Proof.
  intros Hc. unfold rstrip. rewrite rev_app_distr, lstrip_app.
  assert (E : lstrip f (rev (p ++ [c])) = rev (p ++ [c])).
  { rewrite rev_app_distr. cbn [rev app lstrip]. now rewrite Hc. }
  destruct (forallb f (rev tl)) eqn:A.
  - rewrite E, rev_involutive, lstrip_all by exact A.
    cbn [rev]. now rewrite app_nil_r.
  - now rewrite rev_app_distr, rev_involutive.
Qed.

(** ** The shape of a string that [UUID_REGEX] matches *)

Lemma version_lower_hex c :
  cmatch (CRange "1" "5") c = true -> is_lower_hex c = true.
Proof.
  intros H.
  assert (A := ascii_forall
    (fun c => implb (cmatch (CRange "1" "5") c) (is_lower_hex c)) eq_refl c).
  cbv beta in A. now rewrite H in A.
Qed.

Lemma variant_lower_hex c :
  cmatch (CUnion (CLit "8") (CUnion (CLit "9")
            (CUnion (CLit "a") (CLit "b")))) c = true ->
  is_lower_hex c = true.
Proof.
  intros H.
  assert (A := ascii_forall
    (fun c => implb (cmatch (CUnion (CLit "8") (CUnion (CLit "9")
                       (CUnion (CLit "a") (CLit "b")))) c)
                    (is_lower_hex c)) eq_refl c).
  cbv beta in A. now rewrite H in A.
Qed.

Ltac uuid_chars p H :=
  let l := eval vm_compute in UUID_CLASSES in
  change UUID_CLASSES with l in H;
  cbn [classes_match] in H;
  repeat (destruct p as [|? p]; [discriminate H|];
          cbn iota in H; apply andb_prop in H;
          let M := fresh "M" in
          destruct H as [M H];
          lazymatch type of M with
          | cmatch (CLit _) ?c = true =>
              cbn [cmatch] in M; apply Ascii.eqb_eq in M; subst c
          | cmatch (CRange _ _) ?c = true =>
              pose proof (version_lower_hex _ M)
          | cmatch (CUnion (CLit _) _) ?c = true =>
              pose proof (variant_lower_hex _ M)
          | cmatch (CUnion (CRange _ _) _) ?c = true =>
              change (is_lower_hex c = true) in M
          end);
  destruct p; [clear H|discriminate H].

Lemma unhyphen_hex c l :
  is_lower_hex c = true -> unhyphen (c :: l) = c :: unhyphen l.
Proof.
  intros H. unfold unhyphen. cbn [filter].
  now rewrite (proj1 (proj2 (proj2 (lower_hex_facts _ H)))).
Qed.

Lemma unhyphen_hyphen l : unhyphen ("-"%char :: l) = unhyphen l.
Proof. reflexivity. Qed.

Lemma lstrip_keep f c l : f c = false -> lstrip f (c :: l) = c :: l.
Proof. intros H. cbn [lstrip]. now rewrite H. Qed.

Lemma UUID_shape p :
  classes_match UUID_CLASSES p = true ->
  List.length (unhyphen p) = 32%nat /\
  Forall (fun c => is_lower_hex c = true) (unhyphen p) /\
  hyphenate (unhyphen p) = p /\
  Forall (fun c => Ascii.eqb "u" c = false) p /\
  lstrip is_brace p = p /\
  exists q c, p = q ++ [c] /\ is_brace c = false.
Proof.
  intros H. uuid_chars p H.
  repeat (rewrite unhyphen_hyphen || rewrite unhyphen_hex by assumption).
  change (unhyphen []) with (@nil ascii).
  split; [reflexivity|]. split; [repeat constructor; assumption|].
  split; [reflexivity|]. split.
  { repeat (apply Forall_cons || apply Forall_nil);
      solve [reflexivity | apply lower_hex_facts; assumption]. }
  split.
  { apply lstrip_keep. apply lower_hex_facts. assumption. }
  match goal with
  | |- exists q c, ?P = _ /\ _ =>
      exists (removelast P), (last P "0"%char)
  end.
  split; [reflexivity|]. cbn [last]. apply lower_hex_facts. assumption.
Qed.

(** ** What [uuid.UUID] makes of a matched string *)

Lemma lstrip_length f l : (List.length (lstrip f l) <= List.length l)%nat.
Proof.
  induction l as [|c l IH]; [reflexivity|]. cbn [lstrip].
  destruct (f c); cbn [List.length]; lia.
Qed.

Lemma lstrip_app_keep f p tl :
  p <> [] -> lstrip f p = p -> lstrip f (p ++ tl) = p ++ tl.
Proof.
  destruct p as [|c p]; [congruence|]. intros _ H.
  cbn [lstrip app] in *. destruct (f c); [|reflexivity].
  pose proof (lstrip_length f p) as L. rewrite H in L.
  cbn [List.length] in L. lia.
Qed.

Lemma hex_val_chr d : 0 <= d < 16 -> hex_val (hex_char d) = d.
Proof.
  intros H.
  assert (d = 0 \/ d = 1 \/ d = 2 \/ d = 3 \/ d = 4 \/ d = 5 \/ d = 6
          \/ d = 7 \/ d = 8 \/ d = 9 \/ d = 10 \/ d = 11 \/ d = 12
          \/ d = 13 \/ d = 14 \/ d = 15) as C by lia.
  repeat (destruct C as [->|C]; [reflexivity|]). subst d. reflexivity.
Qed.

Lemma lower_hex_digits h :
  Forall (fun c => is_lower_hex c = true) h ->
  Forall (fun c => 0 <= hex_val c < 16 /\ hex_char (hex_val c) = c) h /\
  forallb is_hex h = true.
Proof.
  induction 1 as [|c h Hc _ [IH1 IH2]]; [split; [constructor|reflexivity]|].
  destruct (lower_hex_facts _ Hc) as (_ & _ & _ & Hx & Hv & Hr).
  split; [constructor; auto|]. cbn [forallb]. now rewrite Hx, IH2.
Qed.

(** ["%032x"] of the value of 32 lower-case digits gives them back. *)
Lemma fmt_032x_hexadecimal h :
  List.length h = 32%nat -> Forall (fun c => is_lower_hex c = true) h ->
  0 <= hexadecimal h < 2 ^ 128 /\ fmt_032x (hexadecimal h) = h.
Proof.
  intros L F. destruct (lower_hex_digits F) as [D _].
  assert (B : 0 <= hexadecimal h < 16 ^ Z.of_nat (List.length h)).
  { apply of_digits_bound; [lia|].
    eapply Forall_impl; [|exact D]. cbv beta. tauto. }
  rewrite L in B. change (16 ^ Z.of_nat 32) with (2 ^ 128) in B.
  split; [exact B|]. unfold fmt_032x.
  rewrite (@zfill_to_digits 16 hex_char); try lia; try reflexivity.
  - rewrite <- L. apply (@fixed_of_digits 16 hex_char hex_val); [lia|exact D].
  - apply log2_fuel; lia.
Qed.

Lemma unhyphen_app a b : unhyphen (a ++ b) = unhyphen a ++ unhyphen b.
Proof. apply filter_app. Qed.

Lemma UUID_new_app p tl :
  classes_match UUID_CLASSES p = true ->
  UUID_new (p ++ tl) =
  match uuid_tail tl with
  | [] => Ok (MkUUID (hexadecimal (unhyphen p)))
  | _ :: _ => Raise ValueError
  end.
Proof.
  intros H.
  destruct (UUID_shape _ H) as (L & F & _ & Fu & Ls & q & c & Pq & Bc).
  assert (Np : p <> []) by (rewrite Pq; destruct q; discriminate).
  unfold UUID_new, remove, strip.
  change (lit "urn:") with ("u"%char :: lit "rn:").
  change (lit "uuid:") with ("u"%char :: lit "uid:").
  rewrite !remove_go_absent by exact Fu.
  rewrite lstrip_app_keep by assumption.
  rewrite Pq, rstrip_app by exact Bc. rewrite <- Pq.
  change (remove_go (lit "-") 0) with (remove ["-"%char]).
  rewrite remove_single.
  change (filter (fun c => negb (Ascii.eqb "-" c))) with unhyphen.
  rewrite !unhyphen_app.
  change (unhyphen (rstrip is_brace
            (remove_go ("u"%char :: lit "uid:") 0
               (remove_go ("u"%char :: lit "rn:") 0 tl))))
    with (uuid_tail tl).
  rewrite length_app, L.
  destruct (uuid_tail tl) as [|x t].
  - rewrite app_nil_r. cbn [List.length Nat.add Nat.eqb negb].
    destruct (fmt_032x_hexadecimal L F) as [B _].
    destruct (lower_hex_digits F) as [_ X].
    unfold int16. rewrite X.
    destruct (unhyphen p) as [|y u]; [discriminate L|].
    cbn [bind].
    assert (E : ((0 <=? hexadecimal (y :: u))
                 && (hexadecimal (y :: u) <? 2 ^ 128))%bool = true).
    { apply andb_true_intro. split; [apply Z.leb_le|apply Z.ltb_lt]; lia. }
    now rewrite E.
  - replace (Nat.eqb (32 + List.length (x :: t)) 32) with false; [reflexivity|].
    symmetry. apply Nat.eqb_neq. cbn [List.length]. lia.
Qed.

(** ** The layout that [UUIDFormat.validate] accepts *)





Lemma classes_match_length cls : forall p,
  classes_match cls p = true -> List.length p = List.length cls.
Proof.
  induction cls as [|cl cls IH]; intros [|c p] H; try discriminate;
    [reflexivity|].
  cbn [classes_match] in H. apply andb_prop in H. destruct H as [_ H].
  cbn [List.length]. now rewrite (IH _ H).
Qed.





(** ** Subjects that the pattern cannot tell apart *)

Lemma Forall2_flat_map {A B} (R : A -> A -> Prop) (Q : B -> B -> Prop)
  (f g : A -> list B) l l' :
  Forall2 R l l' -> (forall x x', R x x' -> Forall2 Q (f x) (g x')) ->
  Forall2 Q (flat_map f l) (flat_map g l').
Proof.
  intros H Hf. induction H; cbn [flat_map]; [constructor|].
  apply Forall2_app; auto.
Qed.

Section Sim.

Variable ts : list (ascii -> bool).

Lemma csim_test t c c' : In t ts -> csim ts c c' = true -> t c = t c'.
Proof.
  intros I H. unfold csim in H. rewrite forallb_forall in H.
  apply Bool.eqb_prop, H, I.
Qed.

Lemma csim_refl c : csim ts c c = true.
Proof.
  unfold csim. apply forallb_forall. intros t _. apply Bool.eqb_reflx.
Qed.

Let S (f : mstate -> list mstate) : Prop :=
  forall st st', ssim ts st st' -> Forall2 (ssim ts) (f st) (f st').

Lemma sim_seq f g : S f -> S g -> S (fun st => flat_map g (f st)).
Proof.
  intros Hf Hg st st' H. eapply Forall2_flat_map; [apply Hf, H|].
  intros x x' Hx. apply Hg, Hx.
Qed.

Lemma sim_app f g : S f -> S g -> S (fun st => f st ++ g st).
Proof. intros Hf Hg st st' H. apply Forall2_app; [apply Hf|apply Hg]; exact H. Qed.

Lemma sim_self : S (fun st => [st]).
Proof. intros st st' H. constructor; [exact H|constructor]. Qed.

Lemma sim_rep body : S body -> forall hi lo, S (rep_runs body lo hi).
Proof.
  intros Hb. induction hi as [|hi IH]; intros lo; [apply sim_self|].
  destruct lo; cbn [rep_runs].
  - apply (@sim_app (fun st => flat_map (rep_runs body 0 hi) (body st))
                    (fun st => [st])); [|apply sim_self].
    apply (@sim_seq body (rep_runs body 0 hi)); auto.
  - apply (@sim_seq body (rep_runs body lo hi)); auto.
Qed.

Lemma sim_star body : S body -> forall fuel, S (star_runs body fuel).
Proof.
  intros Hb. induction fuel as [|f IH]; [apply sim_self|].
  intros st st' H. cbn [star_runs].
  apply Forall2_app; [|constructor; [exact H|constructor]].
  eapply Forall2_flat_map; [apply Hb, H|].
  intros x x' Hx. destruct H as (P & _). destruct Hx as (Px & Hx).
  rewrite <- P, <- Px.
  destruct (Nat.ltb (pos st) (pos x)); [|constructor].
  apply IH. split; assumption.
Qed.

Lemma runs_sim r : incl (tests r) ts -> S (runs r).
Proof.
  induction r; cbn [tests]; intros I.
  - apply sim_self.
  - intros st st' (P & C & R & O). cbn [runs].
    destruct R as [|c c' tl tl' Hc R]; [constructor|].
    rewrite (@csim_test (cmatch cl) c c' (I _ (or_introl eq_refl)) Hc).
    destruct (cmatch cl c'); constructor; [|constructor].
    unfold ssim, advance; cbn. rewrite P, C. repeat split; assumption.
  - apply incl_app_inv in I. destruct I as [I1 I2].
    apply (@sim_seq (runs r1) (runs r2)); auto.
  - apply incl_app_inv in I. destruct I as [I1 I2].
    apply (@sim_app (runs r1) (runs r2)); auto.
  - apply (@sim_app (runs r) (fun st => [st])); auto using sim_self.
  - intros st st' H. cbn [runs].
    assert (L : List.length (rest st) = List.length (rest st')).
    { destruct H as (_ & _ & R & _). eapply Forall2_length, R. }
    rewrite L. apply sim_star; auto.
  - intros st st' H. cbn [runs]. apply sim_rep; auto.
  - intros st st' H. cbn [runs]. destruct (H) as (P & _). rewrite <- P.
    specialize (IHr I _ _ H). clear H.
    induction IHr as [|x x' l l' Hx _ IH]; cbn [map]; constructor; auto.
    destruct Hx as (Px & Cx & Rx & Ox). unfold ssim, set_cap; cbn.
    rewrite Px, Cx. repeat split; assumption.
  - auto.
  - intros st st' H. cbn [runs]. destruct (H) as (P & _). rewrite <- P.
    destruct (Nat.eqb (pos st) 0); [apply sim_self, H|constructor].
  - intros st st' H. cbn [runs].
    assert (E : at_eol st = at_eol st').
    { destruct H as (_ & _ & R & _). unfold at_eol.
      destruct R as [|c c' tl tl' Hc R]; [reflexivity|].
      destruct R; [|reflexivity].
      apply (@csim_test (fun c => Ascii.eqb c "010") c c'); auto.
      apply I. now left. }
    rewrite <- E. destruct (at_eol st); [apply sim_self, H|constructor].
  - intros st st' H. cbn [runs].
    assert (E : at_wordb st = at_wordb st').
    { destruct H as (_ & _ & R & O). unfold at_wordb. f_equal.
      - destruct (prev st), (prev st'); cbn in *; try tauto.
        apply (@csim_test is_word); auto. apply I. now left.
      - destruct R; cbn; [reflexivity|].
        apply (@csim_test is_word); auto. apply I. now left. }
    rewrite <- E. destruct (at_wordb st); [apply sim_self, H|constructor].
Qed.

End Sim.

(** Subjects that the tests of a pattern cannot tell apart are matched
    with the same group spans. *)
Lemma re_match_sim r s s' :
  Forall2 (fun c c' => csim (tests r) c c' = true) s s' ->
  option_map caps (re_match r s) = option_map caps (re_match r s') /\
  option_map pos (re_match r s) = option_map pos (re_match r s').
Proof.
  intros H. unfold re_match.
  assert (X : Forall2 (ssim (tests r)) (runs r (init s)) (runs r (init s'))).
  { apply runs_sim; [apply incl_refl|].
    unfold ssim, init; cbn. repeat split. exact H. }
  destruct X as [|x x' l l' (P & C & _) _]; cbn; [split; reflexivity|].
  now rewrite P, C.
Qed.

(** ** Decimal digits *)

Lemma digit_char_facts d :
  0 <= d < 10 ->
  is_digit (digit_char d) = true /\ digit_val (digit_char d) = d.
Proof.
  intros H.
  assert (d = 0 \/ d = 1 \/ d = 2 \/ d = 3 \/ d = 4 \/ d = 5 \/ d = 6
          \/ d = 7 \/ d = 8 \/ d = 9) as C by lia.
  repeat (destruct C as [->|C]; [split; reflexivity|]). subst d.
  split; reflexivity.
Qed.

Lemma fixed_digits_decimal w : forall n, 0 <= n ->
  forallb is_digit (fixed_digits 10 digit_char w n) = true.
Proof.
  induction w as [|w IH]; intros n Hn; [reflexivity|].
  cbn [fixed_digits]. rewrite forallb_app, IH by (apply Z.div_pos; lia).
  cbn [forallb andb].
  destruct (@digit_char_facts (n mod 10)) as [A _];
    [apply Z.mod_pos_bound; lia|].
  now rewrite A.
Qed.

Lemma int_digits s :
  s <> [] -> forallb is_digit s = true -> int_ s = Ok (decimal s).
Proof.
  intros N H. unfold int_. rewrite H. destruct s; [congruence|reflexivity].
Qed.

(** ["%0wd"] of a number of at most [w] digits: [w] digits whose value
    is the number. *)
Lemma fmt_d_spec w n :
  (1 <= w)%nat -> 0 <= n < 10 ^ Z.of_nat w ->
  List.length (fmt_d w n) = w /\ forallb is_digit (fmt_d w n) = true /\
  int_ (fmt_d w n) = Ok n.
Proof.
  intros Hw Hn.
  assert (E : fmt_d w n = fixed_digits 10 digit_char w n).
  { unfold fmt_d. replace (n <? 0) with false
      by (symmetry; apply Z.ltb_ge; lia).
    unfold str_of_nat.
    apply zfill_to_digits; try lia; try reflexivity.
    apply log2_fuel; lia. }
  rewrite E.
  pose proof (@length_fixed_digits 10 digit_char w n) as L.
  pose proof (@fixed_digits_decimal w n (proj1 Hn)) as D.
  split; [exact L|]. split; [exact D|].
  rewrite int_digits; [|intros Z; rewrite Z in L; cbn in L; lia|exact D].
  unfold decimal.
  rewrite (@of_digits_fixed 10 digit_char digit_val); try lia.
  - now rewrite Z.mod_small.
  - intros d Hd. apply digit_char_facts, Hd.
Qed.

Lemma decimal_snoc s c : decimal (s ++ [c]) = 10 * decimal s + digit_val c.
Proof. apply of_digits_snoc. Qed.

Lemma decimal_zeros s k :
  decimal (s ++ repeat "0"%char k) = decimal s * 10 ^ Z.of_nat k.
Proof.
  induction k as [|k IH]; cbn [repeat].
  - rewrite app_nil_r. simpl. lia.
  - rewrite repeat_cons, app_assoc, decimal_snoc, IH.
    rewrite Nat2Z.inj_succ, Z.pow_succ_r by lia.
    change (digit_val "0") with 0. lia.
Qed.

(** The value of a fraction of seconds padded to six digits. *)
Lemma decimal_ljust0 s :
  decimal (ljust0 6 s) = decimal s * 10 ^ Z.of_nat (6 - List.length s).
Proof. apply decimal_zeros. Qed.

(** ** Round trip: dates *)

Lemma digit_csim_DATE c :
  is_digit c = true -> csim (tests DATE_REGEX) c "0" = true.
Proof.
  intros H.
  assert (A := ascii_forall
    (fun c => implb (is_digit c) (csim (tests DATE_REGEX) c "0")) eq_refl c).
  cbv beta in A. now rewrite H in A.
Qed.

Lemma days_in_month_le y m : days_in_month y m <= 31.
Proof.
  unfold days_in_month. destruct ((m =? 2) && is_leap y)%bool; [lia|].
  destruct (Z.to_nat m) as [|[|[|[|[|[|[|[|[|[|[|[|[|k]]]]]]]]]]]]];
    cbn; try lia.
  destruct k; cbn; lia.
Qed.

Lemma check_date_fields_range y m d :
  check_date_fields y m d = true ->
  0 <= y < 10 ^ 4 /\ 0 <= m < 10 ^ 2 /\ 0 <= d < 10 ^ 2.
Proof.
  unfold check_date_fields, MINYEAR, MAXYEAR. intros H.
  repeat (apply andb_prop in H; destruct H as [H ?]).
  pose proof (days_in_month_le y m).
  repeat match goal with
         | H : (_ <=? _) = true |- _ => apply Z.leb_le in H
         end.
  lia.
Qed.

Lemma DateFormat_validate_fields s d :
  DateFormat.validate s = Ok d ->
  check_date_fields (d_year d) (d_month d) (d_day d) = true.
Proof.
  unfold DateFormat.validate.
  destruct (re_match DATE_REGEX s) as [m|]; [|discriminate].
  destruct (int_opt (group s m "year")) as [[y|]|]; try discriminate;
  destruct (int_opt (group s m "month")) as [[mo|]|]; try discriminate;
  destruct (int_opt (group s m "day")) as [[da|]|]; try discriminate.
  cbn. destruct (check_date_fields y mo da) eqn:E; [|discriminate].
  intros [= <-]. exact E.
Qed.

Ltac digits_of s L D I :=
  repeat (destruct s as [|? s]; [discriminate L|]);
  destruct s; [clear L|discriminate L];
  cbn [forallb] in D;
  repeat (apply andb_prop in D; let X := fresh "Hd" in destruct D as [X D]);
  clear D.

Lemma DateFormat_roundtrip s d :
  DateFormat.validate s = Ok d ->
  DateFormat.validate (date_isoformat d) = Ok d.
Proof.
  intros V. pose proof (DateFormat_validate_fields _ V) as F.
  destruct d as [y mo da]. cbn [d_year d_month d_day] in F.
  destruct (check_date_fields_range _ _ _ F) as (Ry & Rm & Rd).
  unfold date_isoformat. cbn [d_year d_month d_day].
  destruct (@fmt_d_spec 4 y) as (Ly & Dy & Iy); [lia|exact Ry|].
  destruct (@fmt_d_spec 2 mo) as (Lm & Dm & Im); [lia|exact Rm|].
  destruct (@fmt_d_spec 2 da) as (Ld & Dd & Id); [lia|exact Rd|].
  set (sy := fmt_d 4 y) in *. set (sm := fmt_d 2 mo) in *.
  set (sd := fmt_d 2 da) in *. clearbody sy sm sd.
  digits_of sy Ly Dy Iy. digits_of sm Lm Dm Im. digits_of sd Ld Dd Id.
  cbn [app lit list_ascii_of_string].
  match goal with
  | |- DateFormat.validate ?s' = _ =>
      assert (C : option_map caps (re_match DATE_REGEX s')
                  = option_map caps (re_match DATE_REGEX (lit "0000-00-00")))
  end.
  { apply re_match_sim.
    repeat (apply Forall2_cons;
            [first [apply digit_csim_DATE; assumption | apply csim_refl]|]).
    apply Forall2_nil. }
  vm_compute (option_map caps (re_match DATE_REGEX (lit "0000-00-00"))) in C.
  unfold DateFormat.validate.
  match goal with
  | |- context [re_match DATE_REGEX ?s'] =>
      destruct (re_match DATE_REGEX s') as [m|]; [|discriminate C]
  end.
  cbn [option_map] in C. injection C as C. unfold group. rewrite C.
  cbn [assoc String.eqb Ascii.eqb Bool.eqb substr firstn skipn Nat.sub].
  unfold int_opt. rewrite Iy, Im, Id. cbn [bind].
  unfold date_new. cbn [required bind]. rewrite F. reflexivity.
Qed.

(** ** Round trip: times *)

Lemma digit_csim_TIME c :
  is_digit c = true -> csim (tests TIME_REGEX) c "0" = true.
Proof.
  intros H.
  assert (A := ascii_forall
    (fun c => implb (is_digit c) (csim (tests TIME_REGEX) c "0")) eq_refl c).
  cbv beta in A. now rewrite H in A.
Qed.

Lemma check_time_fields_range h mi s us :
  check_time_fields h mi s us = true ->
  0 <= h < 10 ^ 2 /\ 0 <= mi < 10 ^ 2 /\ 0 <= s < 10 ^ 2 /\
  0 <= us < 10 ^ 6.
Proof.
  unfold check_time_fields. intros H.
  repeat (apply andb_prop in H; destruct H as [H ?]).
  repeat match goal with
         | H : (_ <=? _) = true |- _ => apply Z.leb_le in H
         end.
  lia.
Qed.

Lemma fmt_d_2 n :
  0 <= n < 10 ^ 2 -> exists a b, fmt_d 2 n = [a; b] /\ two_digits n a b.
Proof.
  intros R. destruct (@fmt_d_spec 2 n) as (L & D & I); [lia|exact R|].
  set (s := fmt_d 2 n) in *. clearbody s.
  digits_of s L D I. unfold two_digits. eauto 10.
Qed.

Lemma fmt_d_6 n :
  0 <= n < 10 ^ 6 ->
  exists a b c d e f, fmt_d 6 n = [a; b; c; d; e; f] /\
    is_digit a = true /\ is_digit b = true /\ is_digit c = true /\
    is_digit d = true /\ is_digit e = true /\ is_digit f = true /\
    int_ [a; b; c; d; e; f] = Ok n.
Proof.
  intros R. destruct (@fmt_d_spec 6 n) as (L & D & I); [lia|exact R|].
  set (s := fmt_d 6 n) in *. clearbody s.
  digits_of s L D I. eauto 20.
Qed.

Lemma TimeFormat_validate_fields s t :
  TimeFormat.validate s = Ok t ->
  check_time_fields (t_hour t) (t_minute t) (t_second t) (t_microsecond t)
  = true /\ t_tzinfo t = None.
Proof.
  unfold TimeFormat.validate.
  destruct (re_match TIME_REGEX s) as [m|]; [|discriminate].
  destruct (int_opt (group s m "hour")) as [h|]; [|discriminate].
  destruct (int_opt (group s m "minute")) as [mi|]; [|discriminate].
  destruct (int_opt (group s m "second")) as [se|]; [|discriminate].
  destruct (int_opt (pad_microsecond (group s m "microsecond"))) as [us|];
    [|discriminate].
  cbn [bind]. unfold time_new.
  destruct (check_time_fields (default0 h) (default0 mi) (default0 se)
              (default0 us)) eqn:E; [|discriminate].
  intros [= <-]. cbn. split; [exact E|reflexivity].
Qed.

(** The match on a subject follows from the match on a subject [rep] of
    the same shape; [tac] shows that two characters are not told apart. *)
Ltac sim_with R rep tac :=
  match goal with
  | |- context [re_match R ?s'] =>
      let C := fresh "C" in
      assert (C : option_map caps (re_match R s')
                  = option_map caps (re_match R rep));
      [ apply re_match_sim;
        repeat (apply Forall2_cons; [first [apply csim_refl | tac]|]);
        apply Forall2_nil
      | vm_compute (option_map caps (re_match R rep)) in C;
        destruct (re_match R s') as [?m|]; [|discriminate C];
        cbn [option_map] in C; injection C as C; unfold group; rewrite C;
        cbn [assoc String.eqb Ascii.eqb Bool.eqb substr firstn skipn
             Nat.sub] ]
  end.

Ltac sim_match R rep dl := sim_with R rep ltac:(apply dl; assumption).

Lemma TimeFormat_roundtrip s t :
  TimeFormat.validate s = Ok t ->
  TimeFormat.validate (time_isoformat t) = Ok t.
Proof.
  intros V. destruct (TimeFormat_validate_fields _ V) as (F & Z).
  destruct t as [h mi se us tz]. cbn in F, Z. subst tz.
  destruct (check_time_fields_range _ _ _ _ F) as (Rh & Rm & Rs & Ru).
  unfold time_isoformat, format_time, format_offset.
  cbn [t_hour t_minute t_second t_microsecond t_tzinfo].
  destruct (fmt_d_2 Rh) as (h1 & h2 & -> & Dh1 & Dh2 & Ih).
  destruct (fmt_d_2 Rm) as (m1 & m2 & -> & Dm1 & Dm2 & Im).
  destruct (fmt_d_2 Rs) as (s1 & s2 & -> & Ds1 & Ds2 & Is).
  unfold TimeFormat.validate.
  destruct (Z.eqb_spec us 0) as [->|N].
  - cbn [app lit list_ascii_of_string].
    sim_match TIME_REGEX (lit "00:00:00") digit_csim_TIME.
    unfold int_opt, pad_microsecond. rewrite Ih, Im, Is. cbn [bind].
    unfold time_new. cbn [default0]. rewrite F. reflexivity.
  - destruct (fmt_d_6 Ru) as (f1 & f2 & f3 & f4 & f5 & f6 & -> & Df1 & Df2
                              & Df3 & Df4 & Df5 & Df6 & Iu).
    cbn [app lit list_ascii_of_string].
    sim_match TIME_REGEX (lit "00:00:00.000000") digit_csim_TIME.
    unfold int_opt, pad_microsecond.
    cbn [ljust0 List.length Nat.sub repeat app].
    rewrite Ih, Im, Is, Iu. cbn [bind].
    unfold time_new. cbn [default0]. rewrite F. reflexivity.
Qed.

(** ** Round trip: datetimes *)

Lemma digit_csim_DATETIME c :
  is_digit c = true -> csim (tests DATETIME_REGEX) c "0" = true.
Proof.
  intros H.
  assert (A := ascii_forall
    (fun c => implb (is_digit c) (csim (tests DATETIME_REGEX) c "0"))
    eq_refl c).
  cbv beta in A. now rewrite H in A.
Qed.

Lemma is_digit_val c : is_digit c = true -> 0 <= digit_val c < 10.
Proof.
  intros H.
  assert (A := ascii_forall
    (fun c => implb (is_digit c)
                ((0 <=? digit_val c) && (digit_val c <? 10))) eq_refl c).
  cbv beta in A. rewrite H in A. cbn [implb] in A.
  apply andb_prop in A. destruct A as [A B].
  apply Z.leb_le in A. apply Z.ltb_lt in B. lia.
Qed.

Lemma int_nonneg v n : int_ v = Ok n -> 0 <= n.
Proof.
  unfold int_. destruct v as [|c v]; [discriminate|].
  destruct (forallb is_digit (c :: v)) eqn:D; [|discriminate].
  intros [= <-]. unfold decimal.
  apply (@of_digits_bound 10 digit_val); [lia|].
  apply Forall_forall. intros x Hx. apply is_digit_val.
  rewrite forallb_forall in D. apply D, Hx.
Qed.

Lemma parse_tzinfo_minutes g tz :
  DateTimeFormat.parse_tzinfo g = Ok tz -> minutes_offset tz.
Proof.
  unfold DateTimeFormat.parse_tzinfo. destruct g as [t|].
  2:{ intros [= <-]. exact I. }
  destruct (str_eqb t (lit "Z")).
  { intros [= <-]. exists 0. split; lia. }
  destruct (if Nat.ltb 3 (List.length t)
            then int_ (skipn (List.length t - 2) t) else Ok 0)
    as [om|] eqn:Em; [|discriminate].
  destruct (int_ (substr t 1 3)) as [oh|] eqn:Eh; [|discriminate].
  cbn [bind]. apply int_nonneg in Eh.
  assert (0 <= om).
  { destruct (Nat.ltb 3 (List.length t)); [eapply int_nonneg, Em|].
    injection Em as <-. lia. }
  unfold timezone, timedelta, day_us.
  set (delta := if prefixb (lit "-") t
                then - ((oh * 3600 + om * 60) * 1000000)
                else (oh * 3600 + om * 60) * 1000000).
  destruct ((- (24 * 3600 * 1000000) <? delta)
            && (delta <? 24 * 3600 * 1000000))%bool eqn:B; [|discriminate].
  intros [= <-]. apply andb_prop in B. destruct B as [B1 B2].
  apply Z.ltb_lt in B1, B2. subst delta. cbn [minutes_offset].
  destruct (prefixb (lit "-") t).
  - exists (- (oh * 60 + om)). split; lia.
  - exists (oh * 60 + om). split; lia.
Qed.

Lemma format_offset_shape k :
  -1440 < k < 1440 ->
  exists h1 h2 m1 m2,
    format_offset (Some (k * 60000000))
    = (if k <? 0 then "-"%char else "+"%char) :: [h1; h2; ":"%char; m1; m2]
    /\ two_digits (Z.abs k / 60) h1 h2
    /\ two_digits (Z.abs k mod 60) m1 m2.
Proof.
  intros R. unfold format_offset.
  assert (A : Z.abs (k * 60000000) = Z.abs k * 60000000) by lia.
  rewrite A.
  assert (E1 : Z.abs k * 60000000 / 3600000000 = Z.abs k / 60).
  { change 3600000000 with (60 * 60000000).
    apply Z.div_mul_cancel_r; lia. }
  assert (E2 : (Z.abs k * 60000000) mod 3600000000
               = (Z.abs k mod 60) * 60000000).
  { change 3600000000 with (60 * 60000000).
    apply Z.mul_mod_distr_r; lia. }
  rewrite E1, E2, Z.div_mul, Z.mod_mul by lia. cbn [Z.eqb].
  destruct (@fmt_d_2 (Z.abs k / 60)) as (h1 & h2 & -> & Hh).
  { split; [apply Z.div_pos; lia|].
    apply Z.div_lt_upper_bound; lia. }
  destruct (@fmt_d_2 (Z.abs k mod 60)) as (m1 & m2 & -> & Hm).
  { pose proof (Z.mod_pos_bound (Z.abs k) 60). lia. }
  exists h1, h2, m1, m2. split; [|split; assumption].
  replace (k * 60000000 <? 0) with (k <? 0).
  2:{ destruct (Z.ltb_spec k 0), (Z.ltb_spec (k * 60000000) 0); lia. }
  destruct (k <? 0); reflexivity.
Qed.

Lemma DateTimeFormat_validate_fields s dt :
  DateTimeFormat.validate s = Ok dt ->
  check_date_fields (d_year (dt_date dt)) (d_month (dt_date dt))
    (d_day (dt_date dt)) = true /\
  check_time_fields (dt_hour dt) (dt_minute dt) (dt_second dt)
    (dt_microsecond dt) = true /\
  minutes_offset (dt_tzinfo dt).
Proof.
  unfold DateTimeFormat.validate.
  destruct (re_match DATETIME_REGEX s) as [m|]; [|discriminate].
  destruct (DateTimeFormat.parse_tzinfo (group s m "tzinfo"))
    as [tz|] eqn:T; [|discriminate].
  apply parse_tzinfo_minutes in T.
  destruct (int_opt (group s m "year")) as [[y|]|]; try discriminate;
  destruct (int_opt (group s m "month")) as [[mo|]|]; try discriminate;
  destruct (int_opt (group s m "day")) as [[da|]|]; try discriminate;
  destruct (int_opt (group s m "hour")) as [h|]; try discriminate;
  destruct (int_opt (group s m "minute")) as [mi|]; try discriminate;
  destruct (int_opt (group s m "second")) as [se|]; try discriminate;
  destruct (int_opt (pad_microsecond (group s m "microsecond"))) as [us|];
    try discriminate.
  cbn [bind]. unfold datetime_new. cbn [required bind].
  destruct (check_date_fields y mo da) eqn:E1; [|discriminate].
  destruct (check_time_fields (default0 h) (default0 mi) (default0 se)
              (default0 us)) eqn:E2; [|discriminate].
  intros [= <-]. cbn. auto.
Qed.

Lemma fmt_d_4 n :
  0 <= n < 10 ^ 4 ->
  exists a b c d, fmt_d 4 n = [a; b; c; d] /\
    is_digit a = true /\ is_digit b = true /\ is_digit c = true /\
    is_digit d = true /\ int_ [a; b; c; d] = Ok n.
Proof.
  intros R. destruct (@fmt_d_spec 4 n) as (L & D & I); [lia|exact R|].
  set (s := fmt_d 4 n) in *. clearbody s.
  digits_of s L D I. eauto 20.
Qed.

Lemma endswith_six a x1 x2 x3 x4 x5 x6 p :
  List.length p = 6%nat ->
  endswith (a ++ [x1; x2; x3; x4; x5; x6]) p
  = str_eqb p [x1; x2; x3; x4; x5; x6].
Proof.
  intros L. unfold endswith. rewrite rev_app_distr.
  do 6 (destruct p as [|? p]; [discriminate L|]).
  destruct p; [|discriminate L].
  cbn [rev app prefixb str_eqb].
  repeat match goal with
         | |- context [Ascii.eqb ?a ?b] =>
             let e := fresh "e" in
             set (e := Ascii.eqb a b)
         end.
  repeat match goal with e := _ : bool |- _ => destruct e end; reflexivity.
Qed.

Lemma digit_not_plus c : is_digit c = true -> Ascii.eqb "+" c = false.
Proof.
  intros H.
  assert (A := ascii_forall
    (fun c => implb (is_digit c) (negb (Ascii.eqb "+" c))) eq_refl c).
  cbv beta in A. rewrite H in A. now apply negb_true_iff in A.
Qed.

(** The end of the rendered string is split off to test it. *)
Ltac split_last6 :=
  match goal with
  | |- context [endswith ?v _] =>
      rewrite <- (firstn_skipn (List.length v - 6) v);
      cbn [List.length Nat.sub firstn skipn];
      rewrite endswith_six by reflexivity;
      cbn [str_eqb lit list_ascii_of_string]
  end.

Lemma timezone_minutes k :
  -1440 < k < 1440 -> timezone (k * 60000000) = Ok (Some (k * 60000000)).
Proof.
  intros R. unfold timezone, day_us.
  replace ((- (24 * 3600 * 1000000) <? k * 60000000)
           && (k * 60000000 <? 24 * 3600 * 1000000))%bool with true;
    [reflexivity|].
  symmetry. apply andb_true_intro. split; apply Z.ltb_lt; lia.
Qed.

Lemma timedelta_minutes a :
  0 <= a -> timedelta (a / 60) (a mod 60) = a * 60000000.
Proof.
  intros H. unfold timedelta. pose proof (Z.div_mod a 60). lia.
Qed.

Ltac ser_simpl :=
  cbn [andb]; cbv iota;
  cbn [app List.length Nat.sub firstn lit list_ascii_of_string].

Ltac dt_fields F1 F2 :=
  unfold int_opt, pad_microsecond;
  cbn [ljust0 List.length Nat.sub repeat app];
  repeat match goal with
         | I : int_ ?v = Ok _ |- context [int_ ?v] => rewrite I
         end;
  cbn [bind]; unfold datetime_new; cbn [required default0 bind];
  rewrite F1, F2.

Lemma DateTimeFormat_roundtrip s dt :
  DateTimeFormat.validate s = Ok dt ->
  exists s', DateTimeFormat.serialize (PyDateTime dt) = Ok (PyStr s') /\
             DateTimeFormat.validate s' = Ok dt.
Proof.
  intros V. destruct (DateTimeFormat_validate_fields _ V) as (Fd & Ft & Tz).
  destruct dt as [[y mo da] h mi se us tz].
  cbn [dt_date dt_hour dt_minute dt_second dt_microsecond dt_tzinfo
       d_year d_month d_day] in *.
  destruct (check_date_fields_range _ _ _ Fd) as (Ry & Rmo & Rda).
  destruct (check_time_fields_range _ _ _ _ Ft) as (Rh & Rm & Rs & Ru).
  unfold DateTimeFormat.serialize, datetime_isoformat, date_isoformat,
    format_time.
  cbn [dt_date dt_hour dt_minute dt_second dt_microsecond dt_tzinfo
       d_year d_month d_day].
  destruct (fmt_d_4 Ry) as (y1 & y2 & y3 & y4 & -> & Dy1 & Dy2 & Dy3 & Dy4
                            & Iy).
  destruct (fmt_d_2 Rmo) as (o1 & o2 & -> & Do1 & Do2 & Io).
  destruct (fmt_d_2 Rda) as (a1 & a2 & -> & Da1 & Da2 & Ia).
  destruct (fmt_d_2 Rh) as (h1 & h2 & -> & Dh1 & Dh2 & Ih).
  destruct (fmt_d_2 Rm) as (m1 & m2 & -> & Dm1 & Dm2 & Im).
  destruct (fmt_d_2 Rs) as (s1 & s2 & -> & Ds1 & Ds2 & Is).
  assert (Fr : exists fr,
    (if us =? 0 then [] else lit "." ++ fmt_d 6 us) = fr /\
    (fr = [] /\ us = 0 \/
     exists f1 f2 f3 f4 f5 f6, fr = "."%char :: [f1; f2; f3; f4; f5; f6] /\
       is_digit f1 = true /\ is_digit f2 = true /\ is_digit f3 = true /\
       is_digit f4 = true /\ is_digit f5 = true /\ is_digit f6 = true /\
       int_ [f1; f2; f3; f4; f5; f6] = Ok us)).
  { destruct (Z.eqb_spec us 0) as [->|N].
    - exists []. split; [reflexivity|]. left. split; reflexivity.
    - destruct (fmt_d_6 Ru) as (f1 & f2 & f3 & f4 & f5 & f6 & -> & X).
      eexists. split; [reflexivity|]. right.
      exists f1, f2, f3, f4, f5, f6. split; [reflexivity|exact X]. }
  destruct Fr as (fr & -> & Fr).
  destruct tz as [off|].
  2:{ (* naive *)
    cbn [format_offset].
    destruct Fr as [[-> ->]|(f1 & f2 & f3 & f4 & f5 & f6 & -> & Df1 & Df2
                             & Df3 & Df4 & Df5 & Df6 & Iu)];
      cbn [app lit list_ascii_of_string]; split_last6.
    - change (Ascii.eqb "+" ":") with false. ser_simpl.
      eexists. split; [reflexivity|]. unfold DateTimeFormat.validate.
      sim_match DATETIME_REGEX (lit "0000-00-00T00:00:00")
        digit_csim_DATETIME.
      cbn [DateTimeFormat.parse_tzinfo bind]. dt_fields Fd Ft. reflexivity.
    - rewrite (@digit_not_plus _ Df1). ser_simpl.
      eexists. split; [reflexivity|]. unfold DateTimeFormat.validate.
      sim_match DATETIME_REGEX (lit "0000-00-00T00:00:00.000000")
        digit_csim_DATETIME.
      cbn [DateTimeFormat.parse_tzinfo bind]. dt_fields Fd Ft. reflexivity. }
  destruct Tz as (k & -> & Rk).
  destruct (Z.eq_dec k 0) as [->|Nk].
  { (* UTC *)
    change (format_offset (Some (0 * 60000000))) with (lit "+00:00").
    destruct Fr as [[-> ->]|(f1 & f2 & f3 & f4 & f5 & f6 & -> & Df1 & Df2
                             & Df3 & Df4 & Df5 & Df6 & Iu)];
      cbn [app lit list_ascii_of_string]; split_last6;
      cbn [Ascii.eqb Bool.eqb andb]; ser_simpl.
    - eexists. split; [reflexivity|]. unfold DateTimeFormat.validate.
      sim_match DATETIME_REGEX (lit "0000-00-00T00:00:00Z")
        digit_csim_DATETIME.
      unfold DateTimeFormat.parse_tzinfo.
      cbn [str_eqb lit list_ascii_of_string Ascii.eqb Bool.eqb andb bind].
      dt_fields Fd Ft. reflexivity.
    - eexists. split; [reflexivity|]. unfold DateTimeFormat.validate.
      sim_match DATETIME_REGEX (lit "0000-00-00T00:00:00.000000Z")
        digit_csim_DATETIME.
      unfold DateTimeFormat.parse_tzinfo.
      cbn [str_eqb lit list_ascii_of_string Ascii.eqb Bool.eqb andb bind].
      dt_fields Fd Ft. reflexivity. }
  destruct (format_offset_shape Rk)
    as (z1 & z2 & w1 & w2 & -> & (Dz1 & Dz2 & Iz) & (Dw1 & Dw2 & Iw)).
  assert (NZ : str_eqb (lit "+00:00")
                 [(if k <? 0 then "-"%char else "+"%char); z1; z2;
                  ":"%char; w1; w2] = false).
  { destruct (str_eqb _ _) eqn:E; [|reflexivity]. exfalso.
    apply str_eqb_eq in E. injection E as E0 E1 E2 E3 E4. subst.
    assert (Z0 : int_ ["0"%char; "0"%char] = Ok 0) by reflexivity.
    rewrite Z0 in Iz, Iw. injection Iz as Iz. injection Iw as Iw.
    pose proof (Z.div_mod (Z.abs k) 60). lia. }
  assert (TD : forall sg, sg = (if k <? 0 then "-"%char else "+"%char) ->
    DateTimeFormat.parse_tzinfo (Some [sg; z1; z2; ":"%char; w1; w2])
    = Ok (Some (k * 60000000))).
  { intros sg ->. unfold DateTimeFormat.parse_tzinfo.
    pose proof (@timedelta_minutes (Z.abs k) (Z.abs_nonneg k)) as TDm.
    destruct (Z.ltb_spec k 0) as [Lk|Lk];
      cbn [str_eqb lit list_ascii_of_string Ascii.eqb Bool.eqb andb
           List.length Nat.ltb Nat.leb Nat.sub skipn substr firstn prefixb];
      rewrite Iw, Iz; cbn [bind]; rewrite TDm.
    - replace (- (Z.abs k * 60000000)) with (k * 60000000) by lia.
      now apply timezone_minutes.
    - replace (Z.abs k * 60000000) with (k * 60000000) by lia.
      now apply timezone_minutes. }
  destruct Fr as [[-> ->]|(f1 & f2 & f3 & f4 & f5 & f6 & -> & Df1 & Df2
                           & Df3 & Df4 & Df5 & Df6 & Iu)];
    cbn [app lit list_ascii_of_string]; split_last6;
    change (lit "+00:00") with ["+"%char; "0"%char; "0"%char; ":"%char;
                                "0"%char; "0"%char] in NZ;
    cbn [str_eqb] in NZ; rewrite NZ; ser_simpl;
    (eexists; split; [reflexivity|]); unfold DateTimeFormat.validate;
    destruct (Z.ltb_spec k 0) as [Lk|Lk].
  - sim_match DATETIME_REGEX (lit "0000-00-00T00:00:00-00:00")
      digit_csim_DATETIME.
    rewrite TD by (destruct (Z.ltb_spec k 0); [reflexivity|lia]).
    cbn [bind]. dt_fields Fd Ft. reflexivity.
  - sim_match DATETIME_REGEX (lit "0000-00-00T00:00:00+00:00")
      digit_csim_DATETIME.
    rewrite TD by (destruct (Z.ltb_spec k 0); [lia|reflexivity]).
    cbn [bind]. dt_fields Fd Ft. reflexivity.
  - sim_match DATETIME_REGEX (lit "0000-00-00T00:00:00.000000-00:00")
      digit_csim_DATETIME.
    rewrite TD by (destruct (Z.ltb_spec k 0); [reflexivity|lia]).
    cbn [bind]. dt_fields Fd Ft. reflexivity.
  - sim_match DATETIME_REGEX (lit "0000-00-00T00:00:00.000000+00:00")
      digit_csim_DATETIME.
    rewrite TD by (destruct (Z.ltb_spec k 0); [lia|reflexivity]).
    cbn [bind]. dt_fields Fd Ft. reflexivity.
Qed.

(** ** Round trip: UUIDs and e-mail addresses *)

Lemma UUIDFormat_roundtrip s u :
  UUIDFormat.validate s = Ok u -> UUIDFormat.validate (UUID_str u) = Ok u.
Proof.
  unfold UUIDFormat.validate.
  destruct (re_match UUID_REGEX s) as [m|] eqn:M; [|discriminate].
  assert (Ms : matches UUID_REGEX s = true) by (unfold matches; now rewrite M).
  apply UUID_REGEX_matches in Ms. destruct Ms as (p & tl & -> & Hp).
  rewrite (@UUID_new_app p tl Hp).
  destruct (uuid_tail tl); [|discriminate]. intros [= <-].
  destruct (@UUID_shape p Hp) as (L & F & Hy & _).
  destruct (@fmt_032x_hexadecimal _ L F) as (_ & Fx).
  unfold UUID_str. cbn [uuid_int]. rewrite Fx, Hy.
  assert (Mp : matches UUID_REGEX p = true).
  { apply UUID_REGEX_matches. exists p, []. now rewrite app_nil_r. }
  unfold matches in Mp. destruct (re_match UUID_REGEX p); [|discriminate].
  rewrite <- (app_nil_r p) at 1. rewrite (@UUID_new_app p [] Hp). reflexivity.
Qed.

Lemma EmailFormat_roundtrip s e :
  EmailFormat.validate s = Ok e -> EmailFormat.validate e = Ok e.
Proof.
  unfold EmailFormat.validate.
  destruct (re_match EMAIL_REGEX s) eqn:M; [|discriminate].
  intros [= <-]. now rewrite M.
Qed.

Lemma bind_Ok A B (r : result A) (k : A -> result B) b :
  bind r k = Ok b -> exists a, r = Ok a /\ k a = Ok b.
Proof. destruct r; [eauto|discriminate]. Qed.
(** ** Round trip of the six converters *)

(** C1, where it fails: [URLFormat] accepts ["a.com\nx"], a URL followed
    by a line feed and a letter; [urlparse] drops the line feed, the
    parsed URL serializes to ["http://a.comx"], and this string is
    rejected with code [format]. With CPython 3.11, ["http:////foo.com"]
    parses to an empty host and the path ["//foo.com"], serializes to
    ["http://foo.com"], and parses back to the host ["foo.com"] with an
    empty path. *)
Lemma URLFormat_round_trip_fails :
  validate_of (fun _ => true) CUrl (lit "a.com" ++ ["010"%char; "x"%char])
  = Ok (PyParseResult
          (MkParseResult (lit "http") (lit "a.comx") [] [] [] [])) /\
  serialize_of CUrl
    (PyParseResult (MkParseResult (lit "http") (lit "a.comx") [] [] [] []))
  = Ok (PyStr (lit "http://a.comx")) /\
  validate_of (fun _ => true) CUrl (lit "http://a.comx")
  = Raise (ValidationError "Must be valid URL format." "format") /\
  validate_of (fun _ => true) CUrl (lit "http:////foo.com")
  = Ok (PyParseResult
          (MkParseResult (lit "http") [] (lit "//foo.com") [] [] [])) /\
  serialize_of CUrl
    (PyParseResult
       (MkParseResult (lit "http") [] (lit "//foo.com") [] [] []))
  = Ok (PyStr (lit "http://foo.com")) /\
  validate_of (fun _ => true) CUrl (lit "http://foo.com")
  = Ok (PyParseResult
          (MkParseResult (lit "http") (lit "foo.com") [] [] [] [])).
Proof. repeat split; vm_compute; reflexivity. Qed.

(** C1 (amended): for each of [DateFormat], [TimeFormat],
    [DateTimeFormat], [UUIDFormat] and [EmailFormat], and every string
    [s] that [validate] accepts with native value [v], [serialize(v)] is
    a string that [validate] accepts again, with the same native value
    [v]. ([URLFormat] is left out.) *)
Theorem round_trip_except_URLFormat ok C s v :
  C <> CUrl ->
  validate_of ok C s = Ok v ->
  exists s', serialize_of C v = Ok (PyStr s') /\
             validate_of ok C s' = Ok v.
Proof.
  intros NU V. destruct C; cbn [validate_of serialize_of] in *;
    try (exfalso; apply NU; reflexivity);
    apply bind_Ok in V; destruct V as (x & V & [= <-]).
  - exists (date_isoformat x). split; [reflexivity|].
    now rewrite (DateFormat_roundtrip _ V).
  - exists (time_isoformat x). split; [reflexivity|].
    now rewrite (TimeFormat_roundtrip _ V).
  - destruct (DateTimeFormat_roundtrip _ V) as (s' & S' & V').
    exists s'. split; [exact S'|]. now rewrite V'.
  - exists (UUID_str x). split; [reflexivity|].
    now rewrite (UUIDFormat_roundtrip _ V).
  - exists x. split; [reflexivity|].
    now rewrite (EmailFormat_roundtrip _ V).
Qed.

Lemma round_trip_except_URLFormat_witness :
  exists s',
    serialize_of CDateTime
      (PyDateTime (DateTime (Date 2021 6 1) 12 0 0 0 (Some 0)))
    = Ok (PyStr s') /\
    validate_of (fun _ => true) CDateTime s'
    = Ok (PyDateTime (DateTime (Date 2021 6 1) 12 0 0 0 (Some 0))).
Proof.
  apply (@round_trip_except_URLFormat (fun _ => true) CDateTime
           (lit "2021-06-01T12:00:00Z")).
  - discriminate.
  - vm_compute. reflexivity.
Defined.

(** ** How far a match can reach *)

Lemma rep_runs_maxlen (body : mstate -> list mstate) k :
  (forall st x, In x (body st) -> (pos x <= pos st + k)%nat) ->
  forall hi lo st x,
    In x (rep_runs body lo hi st) -> (pos x <= pos st + hi * k)%nat.
Proof.
  intros B. induction hi as [|hi IH]; intros lo st x H; cbn [rep_runs] in H.
  - destruct H as [<-|[]]. lia.
  - destruct lo as [|lo].
    + apply in_app_or in H. destruct H as [H|[<-|[]]]; [|lia].
      apply in_flat_map in H. destruct H as (y & Y & H).
      apply B in Y. apply IH in H. lia.
    + apply in_flat_map in H. destruct H as (y & Y & H).
      apply B in Y. apply IH in H. lia.
Qed.

Lemma runs_maxlen r :
  simple r = true ->
  forall st x, In x (runs r st) -> (pos x <= pos st + maxlen r)%nat.
Proof.
  induction r; cbn [simple maxlen runs]; intros Hs st x H;
    try discriminate;
    try (apply andb_prop in Hs; destruct Hs as [S1 S2]).
  - destruct H as [<-|[]]. lia.
  - destruct (rest st) as [|c tl]; [destruct H|].
    destruct (cmatch cl c); [|destruct H].
    destruct H as [<-|[]]. cbn. lia.
  - apply in_flat_map in H. destruct H as (y & Y & H).
    apply (IHr1 S1) in Y. apply (IHr2 S2) in H. lia.
  - apply in_app_or in H. destruct H as [H|H];
      [apply (IHr1 S1) in H|apply (IHr2 S2) in H]; lia.
  - apply in_app_or in H. destruct H as [H|[<-|[]]]; [|lia].
    apply (IHr Hs) in H. lia.
  - apply (rep_runs_maxlen (runs r) (maxlen r) (IHr Hs)) in H. lia.
  - apply in_map_iff in H. destruct H as (y & <- & Y).
    apply (IHr Hs) in Y. cbn. exact Y.
  - apply (IHr Hs), H.
Qed.

(** A pattern that reads at most [e] characters matches the subject as
    it matches its first [e] characters. *)
Lemma re_match_firstn r e s :
  simple r = true -> (maxlen r <= e)%nat ->
  re_match r (firstn e s) = option_map (trunc e) (re_match r s).
Proof.
  intros Hs L. unfold re_match.
  assert (E : init (firstn e s) = trunc e (init s)).
  { unfold trunc, init; simpl. now rewrite Nat.sub_0_r. }
  rewrite E, runs_trunc by (simpl; auto; lia).
  assert (F : filter (within e) (runs r (init s)) = runs r (init s)).
  { apply forallb_filter_id. apply forallb_forall. intros x Hx.
    apply (runs_maxlen r Hs) in Hx. cbn in Hx.
    unfold within. apply Nat.leb_le. lia. }
  rewrite F. now destruct (runs r (init s)).
Qed.

Lemma group_firstn e s m n :
  caps_le m -> (pos m <= e)%nat ->
  group (firstn e s) (trunc e m) n = group s m n.
Proof.
  intros C L. unfold group. cbn [trunc caps].
  destruct (assoc n (caps m)) as [[b e']|] eqn:E; [|reflexivity].
  f_equal. apply substr_firstn.
  apply assoc_In in E. unfold caps_le in C. rewrite Forall_forall in C.
  specialize (C _ E). cbn in C. lia.
Qed.

Lemma re_match_pos_maxlen r s m :
  simple r = true -> re_match r s = Some m -> (pos m <= maxlen r)%nat.
Proof.
  intros Hs H. apply re_match_In in H.
  apply (runs_maxlen r Hs) in H. exact H.
Qed.

(** [TIME_REGEX] reads at most 21 characters. *)
Lemma TimeFormat_validate_firstn s :
  TimeFormat.validate (firstn 21 s) = TimeFormat.validate s.
Proof.
  unfold TimeFormat.validate.
  rewrite (@re_match_firstn TIME_REGEX 21 s eq_refl (Nat.le_refl 21)).
  destruct (re_match TIME_REGEX s) as [m|] eqn:M; [|reflexivity].
  cbn [option_map].
  assert (P := @re_match_pos_maxlen TIME_REGEX s m eq_refl M).
  change (maxlen TIME_REGEX) with 21%nat in P.
  rewrite !group_firstn by (try exact P; eapply re_match_caps_le; eauto).
  reflexivity.
Qed.

Lemma int_ljust0 g :
  is_digits g = true ->
  int_ (ljust0 6 g) = Ok (decimal g * 10 ^ Z.of_nat (6 - List.length g)).
Proof.
  unfold is_digits. intros H. apply andb_prop in H. destruct H as [N D].
  rewrite <- decimal_ljust0. apply int_digits.
  - destruct g; [discriminate|]. discriminate.
  - unfold ljust0. rewrite forallb_app, D. cbn [andb].
    induction (6 - List.length g)%nat; [reflexivity|exact IHn].
Qed.

(** ** Fractions of a second *)

(** The subject with every character that is not a literal replaced by
    the digit 0. *)
Ltac rep_of l :=
  lazymatch l with
  | ?c :: ?tl =>
      let r := rep_of tl in
      lazymatch c with
      | Ascii _ _ _ _ _ _ _ _ => constr:(c :: r)
      | _ => constr:("0"%char :: r)
      end
  | [] => constr:(@nil ascii)
  end.

Ltac sim_auto R dl :=
  match goal with
  | |- context [re_match R ?s'] => let rep := rep_of s' in sim_match R rep dl
  end.

Ltac digit_facts F :=
  cbn [is_field is_digits List.length Nat.leb forallb andb] in F;
  try discriminate F;
  repeat (let D := fresh "D" in apply andb_prop in F; destruct F as [D F]).

Ltac split_list l n :=
  lazymatch n with
  | O => idtac
  | S ?k => let c := fresh "c" in destruct l as [|c l]; [|split_list l k]
  end.

Ltac digits_ok :=
  cbn [is_digits List.length Nat.leb forallb andb];
  repeat (apply andb_true_intro; split; [assumption|]); reflexivity.

Ltac ints :=
  unfold int_opt, pad_microsecond;
  rewrite ?int_ljust0 by digits_ok;
  rewrite ?int_digits by (discriminate || digits_ok);
  cbn [bind].

Lemma TimeFormat_fraction H M S ds :
  is_field H = true -> is_field M = true -> is_field S = true ->
  is_digits ds = true ->
  TimeFormat.validate (H ++ lit ":" ++ M ++ lit ":" ++ S ++ lit "." ++ ds)
  = except_ValueError
      (time_new (Some (decimal H)) (Some (decimal M)) (Some (decimal S))
         (Some (microseconds ds)) None)
      (validation_error TimeFormat.errors "invalid").
Proof.
  intros FH FM FS Fd. unfold microseconds.
  split_list H 3%nat; digit_facts FH;
  split_list M 3%nat; digit_facts FM;
  split_list S 3%nat; digit_facts FS.
  all: split_list ds 16%nat; digit_facts Fd.
  all: cbn [app lit list_ascii_of_string].
  all: try (rewrite <- TimeFormat_validate_firstn; cbn [firstn app]).
  all: unfold TimeFormat.validate.
  all: sim_auto TIME_REGEX digit_csim_TIME.
  all: ints; cbn [firstn]; reflexivity.
Qed.
Lemma sep_csim_DATETIME c :
  is_sep c = true -> csim (tests DATETIME_REGEX) c "T" = true.
Proof.
  intros H.
  assert (A := ascii_forall
    (fun c => implb (is_sep c) (csim (tests DATETIME_REGEX) c "T"))
    eq_refl c).
  cbv beta in A. now rewrite H in A.
Qed.

(** The subject with every digit replaced by 0 and the separator of date
    and time by T. *)
Ltac rep_sep_of l :=
  lazymatch l with
  | ?c :: ?tl =>
      let r := rep_sep_of tl in
      lazymatch c with
      | Ascii _ _ _ _ _ _ _ _ => constr:(c :: r)
      | _ =>
          lazymatch goal with
          | _ : is_sep c = true |- _ => constr:("T"%char :: r)
          | _ => constr:("0"%char :: r)
          end
      end
  | [] => constr:(@nil ascii)
  end.

Ltac sim_datetime :=
  match goal with
  | |- context [re_match DATETIME_REGEX ?s'] =>
      let rep := rep_sep_of s' in
      sim_with DATETIME_REGEX rep
        ltac:(first [apply digit_csim_DATETIME; assumption
                    |apply sep_csim_DATETIME; assumption])
  end.

Lemma DateTimeFormat_fraction Y Mo D sep H M S ds :
  is_year Y = true -> is_field Mo = true -> is_field D = true ->
  is_sep sep = true ->
  is_field H = true -> is_field M = true -> is_field S = true ->
  is_digits ds = true -> Nat.leb (List.length ds) 12 = true ->
  DateTimeFormat.validate
    (Y ++ lit "-" ++ Mo ++ lit "-" ++ D ++ [sep]
       ++ H ++ lit ":" ++ M ++ lit ":" ++ S ++ lit "." ++ ds)
  = except_ValueError
      (datetime_new (Some (decimal Y)) (Some (decimal Mo)) (Some (decimal D))
         (Some (decimal H)) (Some (decimal M)) (Some (decimal S))
         (Some (microseconds ds)) None)
      (validation_error DateTimeFormat.errors "invalid").
Proof.
  intros FY FMo FD Fsep FH FM FS Fd L. unfold microseconds.
  split_list Y 5%nat;
    cbn [is_year List.length Nat.eqb forallb andb] in FY; try discriminate FY;
    digit_facts FY.
  all: split_list Mo 3%nat; digit_facts FMo;
    split_list D 3%nat; digit_facts FD.
  all: split_list H 3%nat; digit_facts FH;
    split_list M 3%nat; digit_facts FM;
    split_list S 3%nat; digit_facts FS.
  all: split_list ds 13%nat; cbn [List.length Nat.leb] in L;
    try discriminate L; digit_facts Fd.
  all: cbn [app lit list_ascii_of_string].
  all: unfold DateTimeFormat.validate.
  all: sim_datetime.
  all: cbn [DateTimeFormat.parse_tzinfo bind].
  all: ints; cbn [firstn]; reflexivity.
Qed.
Lemma decimal_app a c :
  decimal (a ++ c) = decimal a * 10 ^ Z.of_nat (List.length c) + decimal c.
Proof.
  induction c as [|x c IH] using rev_ind.
  - rewrite app_nil_r. cbn. change (decimal []) with 0. lia.
  - rewrite app_assoc, !decimal_snoc, IH, length_app. cbn [List.length].
    rewrite Nat2Z.inj_add, Z.pow_add_r by lia. cbn [Z.of_nat]. lia.
Qed.

Lemma decimal_bound s :
  forallb is_digit s = true ->
  0 <= decimal s < 10 ^ Z.of_nat (List.length s).
Proof.
  intros D. apply (@of_digits_bound 10 digit_val); [lia|].
  apply Forall_forall. intros x Hx. apply is_digit_val.
  rewrite forallb_forall in D. apply D, Hx.
Qed.

(** Padding to six digits, in the words of [ljust]. *)
Lemma microseconds_ljust ds :
  microseconds ds = decimal (ljust0 6 (firstn 6 ds)).
Proof. unfold microseconds. now rewrite decimal_ljust0. Qed.

(** The microseconds are the millionths in the fraction [0.ds], rounded
    down. *)
Lemma microseconds_floor ds :
  forallb is_digit ds = true ->
  microseconds ds = decimal ds * 10 ^ 6 / 10 ^ Z.of_nat (List.length ds).
Proof.
  intros D. unfold microseconds.
  rewrite <- (firstn_skipn 6 ds) in D. rewrite forallb_app in D.
  apply andb_prop in D. destruct D as [_ D]. apply decimal_bound in D.
  rewrite <- (firstn_skipn 6 ds) at 3 4.
  rewrite decimal_app, length_app.
  set (a := firstn 6 ds) in *. set (c := skipn 6 ds) in *.
  assert (La : (List.length a <= 6)%nat) by apply firstn_le_length.
  assert (Lc : c = [] \/ List.length a = 6%nat).
  { unfold a, c. destruct (Nat.le_gt_cases (List.length ds) 6) as [Q|Q].
    - left. now apply skipn_all2.
    - right. apply firstn_length_le. lia. }
  set (p := 10 ^ Z.of_nat (List.length c)) in *.
  assert (Pp : 0 < p) by (apply Z.pow_pos_nonneg; lia).
  destruct Lc as [E|E].
  - assert (Ec : decimal c = 0) by now rewrite E.
    assert (Ep : p = 1) by (unfold p; now rewrite E).
    rewrite Ec, Ep, E. cbn [List.length]. rewrite Nat.add_0_r.
    replace (10 ^ 6) with
      (10 ^ Z.of_nat (6 - List.length a) * 10 ^ Z.of_nat (List.length a)).
    + rewrite Z.mul_1_r, Z.add_0_r, Z.mul_assoc.
      rewrite Z.div_mul; [reflexivity|].
      apply Z.pow_nonzero; lia.
    + rewrite <- Z.pow_add_r by lia. f_equal. lia.
  - rewrite E, Nat.sub_diag. cbn [Z.of_nat]. rewrite Z.pow_0_r, Z.mul_1_r.
    rewrite Nat2Z.inj_add, Z.pow_add_r by lia. fold p.
    change (Z.of_nat 6) with 6.
    rewrite (Z.mul_comm (decimal a * p + decimal c) (10 ^ 6)).
    rewrite Z.div_mul_cancel_l by (try apply Z.pow_nonzero; lia).
    apply Z.div_unique with (r := decimal c); lia.
Qed.
(** C8: on a time [H:M:S.ds] ([H], [M], [S] of one or two digits, [ds]
    any non-empty run of digits) [TimeFormat.validate] builds the time
    whose microsecond is [microseconds ds]: the first six digits of
    [ds], right-padded with zeros to six digits, then read as a number.
    This is the fraction [0.ds] in millionths, rounded down: digits
    after the sixth are dropped, not rounded. [DateTimeFormat.validate]
    does the same on [Y-Mo-D], [T] or a space, and [H:M:S.ds], where the
    end-anchored pattern allows [ds] twelve digits. *)
Theorem fraction_padded_then_truncated H M S ds :
  is_field H = true -> is_field M = true -> is_field S = true ->
  is_digits ds = true ->
  TimeFormat.validate (H ++ lit ":" ++ M ++ lit ":" ++ S ++ lit "." ++ ds)
  = except_ValueError
      (time_new (Some (decimal H)) (Some (decimal M)) (Some (decimal S))
         (Some (microseconds ds)) None)
      (validation_error TimeFormat.errors "invalid") /\
  (forall Y Mo D sep,
     is_year Y = true -> is_field Mo = true -> is_field D = true ->
     is_sep sep = true -> Nat.leb (List.length ds) 12 = true ->
     DateTimeFormat.validate
       (Y ++ lit "-" ++ Mo ++ lit "-" ++ D ++ [sep]
          ++ H ++ lit ":" ++ M ++ lit ":" ++ S ++ lit "." ++ ds)
     = except_ValueError
         (datetime_new (Some (decimal Y)) (Some (decimal Mo))
            (Some (decimal D)) (Some (decimal H)) (Some (decimal M))
            (Some (decimal S)) (Some (microseconds ds)) None)
         (validation_error DateTimeFormat.errors "invalid")) /\
  microseconds ds = decimal (ljust0 6 (firstn 6 ds)) /\
  microseconds ds = decimal ds * 10 ^ 6 / 10 ^ Z.of_nat (List.length ds).
Proof.
  intros FH FM FS Fd. split; [|split; [|split]].
  - now apply TimeFormat_fraction.
  - intros. now apply DateTimeFormat_fraction.
  - apply microseconds_ljust.
  - apply microseconds_floor. unfold is_digits in Fd.
    apply andb_prop in Fd. apply Fd.
Qed.

Lemma fraction_padded_then_truncated_witness :
  TimeFormat.validate (lit "14:30:00.5") = Ok (Time 14 30 0 500000 None) /\
  TimeFormat.validate (lit "14:30:00.1234567")
  = Ok (Time 14 30 0 123456 None) /\
  DateTimeFormat.validate (lit "2021-06-01T14:30:00.5")
  = Ok (DateTime (Date 2021 6 1) 14 30 0 500000 None).
Proof.
  split; [|split].
  - exact (proj1 (@fraction_padded_then_truncated
                    (lit "14") (lit "30") (lit "00") (lit "5")
                    eq_refl eq_refl eq_refl eq_refl)).
  - exact (proj1 (@fraction_padded_then_truncated
                    (lit "14") (lit "30") (lit "00") (lit "1234567")
                    eq_refl eq_refl eq_refl eq_refl)).
  - exact (proj1 (proj2 (@fraction_padded_then_truncated
                    (lit "14") (lit "30") (lit "00") (lit "5")
                    eq_refl eq_refl eq_refl eq_refl))
             (lit "2021") (lit "06") (lit "01") "T"%char
             eq_refl eq_refl eq_refl eq_refl eq_refl).
Defined.

(** ** Serializing datetimes *)

Lemma prefixb_spec p : forall s,
  prefixb p s = true <-> exists t, s = p ++ t.
Proof.
  induction p as [|a p IH]; intros s; cbn [prefixb].
  - split; [intros _; exists s; reflexivity|reflexivity].
  - destruct s as [|b s].
    + split; [discriminate|]. intros (t & E). discriminate E.
    + split.
      * intros H. apply andb_prop in H. destruct H as [E H].
        apply Ascii.eqb_eq in E. apply IH in H. destruct H as (t & ->).
        subst b. exists t. reflexivity.
      * intros (t & E). cbn [app] in E. injection E as -> ->.
        rewrite Ascii.eqb_refl. apply IH. exists t. reflexivity.
Qed.

Lemma endswith_spec s p :
  endswith s p = true <-> exists body, s = body ++ p.
Proof.
  unfold endswith. rewrite prefixb_spec. split.
  - intros (t & E). exists (rev t).
    rewrite <- (rev_involutive s), E, rev_app_distr.
    now rewrite rev_involutive.
  - intros (body & ->). exists (rev body). apply rev_app_distr.
Qed.

Lemma firstn_body (body p : str) :
  firstn (List.length (body ++ p) - List.length p) (body ++ p) = body.
Proof.
  rewrite length_app, Nat.add_sub, firstn_app, Nat.sub_diag, firstn_all.
  cbn [firstn]. apply app_nil_r.
Qed.

Lemma DateTimeFormat_serialize_suffix dt :
  exists v,
    DateTimeFormat.serialize (PyDateTime dt) = Ok (PyStr v) /\
    ((exists body, datetime_isoformat dt = body ++ lit "+00:00" /\
                   v = body ++ lit "Z") \/
     ((forall body, datetime_isoformat dt <> body ++ lit "+00:00") /\
      v = datetime_isoformat dt)).
Proof.
  unfold DateTimeFormat.serialize. cbv zeta.
  destruct (endswith (datetime_isoformat dt) (lit "+00:00")) eqn:E.
  - apply endswith_spec in E. destruct E as (body & E). rewrite E.
    eexists. split; [reflexivity|]. left. exists body.
    split; [reflexivity|]. now rewrite firstn_body.
  - eexists. split; [reflexivity|]. right. split; [|reflexivity].
    intros body Hb.
    assert (X : endswith (datetime_isoformat dt) (lit "+00:00") = true)
      by (apply endswith_spec; eauto).
    congruence.
Qed.

Lemma DateTimeFormat_serialize_canonical dt :
  valid_datetime dt ->
  DateTimeFormat.serialize (PyDateTime dt) = Ok (PyStr (canonical dt)).
Proof.
  intros (Fd & Ft & Tz).
  destruct dt as [[y mo da] h mi se us tz].
  cbn [dt_date dt_hour dt_minute dt_second dt_microsecond dt_tzinfo
       d_year d_month d_day] in *.
  destruct (check_date_fields_range _ _ _ Fd) as (Ry & Rmo & Rda).
  destruct (check_time_fields_range _ _ _ _ Ft) as (Rh & Rm & Rs & Ru).
  unfold DateTimeFormat.serialize, canonical, datetime_isoformat,
    date_isoformat, format_time.
  cbn [dt_date dt_hour dt_minute dt_second dt_microsecond dt_tzinfo
       d_year d_month d_day].
  destruct (fmt_d_4 Ry) as (y1 & y2 & y3 & y4 & -> & _).
  destruct (fmt_d_2 Rmo) as (o1 & o2 & -> & _).
  destruct (fmt_d_2 Rda) as (a1 & a2 & -> & _).
  destruct (fmt_d_2 Rh) as (h1 & h2 & -> & _).
  destruct (fmt_d_2 Rm) as (m1 & m2 & -> & _).
  destruct (fmt_d_2 Rs) as (s1 & s2 & -> & _).
  assert (Fr : exists fr,
    (if us =? 0 then [] else lit "." ++ fmt_d 6 us) = fr /\
    (fr = [] \/
     exists f1 f2 f3 f4 f5 f6, fr = "."%char :: [f1; f2; f3; f4; f5; f6] /\
       is_digit f1 = true)).
  { destruct (Z.eqb_spec us 0) as [->|N].
    - exists []. split; [reflexivity|]. left. reflexivity.
    - destruct (fmt_d_6 Ru) as (f1 & f2 & f3 & f4 & f5 & f6 & -> & X & _).
      eexists. split; [reflexivity|]. right.
      exists f1, f2, f3, f4, f5, f6. split; [reflexivity|exact X]. }
  destruct Fr as (fr & -> & Fr).
  destruct tz as [off|].
  2:{ cbn [format_offset].
      destruct Fr as [->|(f1 & f2 & f3 & f4 & f5 & f6 & -> & Df1)];
        cbn [app lit list_ascii_of_string]; split_last6.
      - change (Ascii.eqb "+" ":") with false. ser_simpl. reflexivity.
      - rewrite (@digit_not_plus _ Df1). ser_simpl. reflexivity. }
  destruct Tz as (k & -> & Rk).
  destruct (Z.eq_dec k 0) as [->|Nk].
  { change (format_offset (Some (0 * 60000000))) with (lit "+00:00").
    change (0 * 60000000) with 0. cbv iota.
    destruct Fr as [->|(f1 & f2 & f3 & f4 & f5 & f6 & -> & Df1)];
      cbn [app lit list_ascii_of_string]; split_last6;
      cbn [Ascii.eqb Bool.eqb andb]; ser_simpl; reflexivity. }
  destruct (format_offset_shape Rk)
    as (z1 & z2 & w1 & w2 & -> & (Dz1 & Dz2 & Iz) & (Dw1 & Dw2 & Iw)).
  assert (NZ : str_eqb (lit "+00:00")
                 [(if k <? 0 then "-"%char else "+"%char); z1; z2;
                  ":"%char; w1; w2] = false).
  { destruct (str_eqb _ _) eqn:E; [|reflexivity]. exfalso.
    apply str_eqb_eq in E. injection E as E0 E1 E2 E3 E4. subst.
    assert (Z0 : int_ ["0"%char; "0"%char] = Ok 0) by reflexivity.
    rewrite Z0 in Iz, Iw. injection Iz as Iz. injection Iw as Iw.
    pose proof (Z.div_mod (Z.abs k) 60). lia. }
  change (lit "+00:00") with ["+"%char; "0"%char; "0"%char; ":"%char;
                              "0"%char; "0"%char] in NZ.
  cbn [str_eqb] in NZ.
  destruct (k * 60000000) eqn:K; [lia| |];
    destruct Fr as [->|(f1 & f2 & f3 & f4 & f5 & f6 & -> & Df1)];
    cbn [app lit list_ascii_of_string]; split_last6;
    rewrite NZ; ser_simpl; reflexivity.
Qed.

(** * Further properties of the converters *)

(** ** Every match reads a word of the pattern *)

Section RunsLang.

Variable body : mstate -> list mstate.
Variable L : str -> str -> Prop.
Hypothesis body_L :
  forall st x, In x (body st) ->
    exists w, rest st = w ++ rest x /\ L w (rest x).

Lemma rep_runs_lang hi : forall lo st x,
  In x (rep_runs body lo hi st) ->
  exists w n, rest st = w ++ rest x /\ (n <= hi)%nat /\
              ((lo <= hi)%nat -> (lo <= n)%nat) /\ pow_lang L n w (rest x).
Proof.
  induction hi as [|hi IH]; intros lo st x H; cbn [rep_runs] in H.
  - destruct H as [ <- | [] ]. exists [], 0%nat. cbn. repeat split; lia.
  - assert (C : In x (flat_map (rep_runs body (Nat.pred lo) hi) (body st))
                \/ (lo = 0%nat /\ x = st)).
    { destruct lo; cbn [Nat.pred]; auto.
      apply in_app_or in H. destruct H as [H| [ <- | [] ] ]; auto. }
    destruct C as [C|[-> ->]].
    + apply in_flat_map in C. destruct C as (y & Hy & Hx).
      destruct (body_L _ _ Hy) as (w1 & E1 & L1).
      destruct (IH _ _ _ Hx) as (w2 & n & E2 & N1 & N2 & P).
      exists (w1 ++ w2), (S n). rewrite E1, E2, app_assoc.
      split; [reflexivity|]. split; [lia|]. split; [lia|].
      cbn [pow_lang]. exists w1, w2. rewrite <- E2. auto.
    + exists [], 0%nat. cbn. repeat split; lia.
Qed.

Lemma star_runs_lang fuel : forall st x,
  In x (star_runs body fuel st) ->
  exists w n, rest st = w ++ rest x /\ pow_lang L n w (rest x).
Proof.
  induction fuel as [|f IH]; intros st x H; cbn [star_runs] in H.
  - destruct H as [ <- | [] ]. exists [], 0%nat. cbn. auto.
  - apply in_app_or in H. destruct H as [H| [ <- | [] ] ].
    + apply in_flat_map in H. destruct H as (y & Hy & Hx).
      destruct (Nat.ltb (pos st) (pos y)); [|destruct Hx].
      destruct (body_L _ _ Hy) as (w1 & E1 & L1).
      destruct (IH _ _ Hx) as (w2 & n & E2 & P).
      exists (w1 ++ w2), (S n). rewrite E1, E2, app_assoc.
      split; [reflexivity|]. cbn [pow_lang]. exists w1, w2.
      rewrite <- E2. auto.
    + exists [], 0%nat. cbn. auto.
Qed.

End RunsLang.

Lemma runs_lang r : forall st x,
  In x (runs r st) -> exists w, rest st = w ++ rest x /\ lang r w (rest x).
Proof.
  induction r; intros st x H; cbn [runs] in H; cbn [lang].
  - destruct H as [ <- | [] ]. exists []. auto.
  - destruct (rest st) as [|c tl] eqn:E; [destruct H|].
    destruct (cmatch cl c) eqn:M; [|destruct H]. destruct H as [ <- | [] ].
    exists [c]. cbn. eauto.
  - apply in_flat_map in H. destruct H as (y & Hy & Hx).
    destruct (IHr1 _ _ Hy) as (w1 & E1 & L1).
    destruct (IHr2 _ _ Hx) as (w2 & E2 & L2).
    exists (w1 ++ w2). rewrite E1, E2, app_assoc. split; [reflexivity|].
    exists w1, w2. rewrite <- E2. auto.
  - apply in_app_or in H. destruct H as [H|H];
      [destruct (IHr1 _ _ H) as (w & E & Lw)
      |destruct (IHr2 _ _ H) as (w & E & Lw)]; exists w; auto.
  - apply in_app_or in H. destruct H as [H| [ <- | [] ] ].
    + destruct (IHr _ _ H) as (w & E & Lw). exists w. auto.
    + exists []. auto.
  - destruct (star_runs_lang (runs r) (lang r) IHr _ _ _ H)
      as (w & n & E & P). exists w. eauto.
  - destruct (rep_runs_lang (runs r) (lang r) IHr _ _ _ _ H)
      as (w & n & E & N1 & N2 & P). exists w. eauto 6.
  - apply in_map_iff in H. destruct H as (y & <- & Hy).
    destruct (IHr _ _ Hy) as (w & E & Lw). exists w. auto.
  - auto.
  - destruct (Nat.eqb (pos st) 0); [|destruct H].
    destruct H as [ <- | [] ]. exists []. auto.
  - destruct (at_eol st) eqn:A; [|destruct H]. destruct H as [ <- | [] ].
    exists []. repeat split. unfold at_eol in A.
    destruct (rest st) as [|c [|d tl]]; auto; [|discriminate].
    apply Ascii.eqb_eq in A. subst c. auto.
  - destruct (at_wordb st); [|destruct H].
    destruct H as [ <- | [] ]. exists []. auto.
Qed.

(** A matched subject begins with a word of the pattern. *)
Lemma re_match_lang r s m :
  re_match r s = Some m -> exists w, s = w ++ rest m /\ lang r w (rest m).
Proof.
  intros H. apply re_match_In in H. apply runs_lang in H. exact H.
Qed.

Lemma pow_lang_Chr cl n : forall w tl,
  pow_lang (lang (Chr cl)) n w tl ->
  List.length w = n /\ forallb (cmatch cl) w = true.
Proof.
  induction n as [|n IH]; intros w tl H; cbn [pow_lang] in H.
  - subst w. auto.
  - destruct H as (w1 & w2 & -> & (c & -> & M) & P).
    apply IH in P. destruct P as [<- F]. cbn. now rewrite M, F.
Qed.
Lemma lang_Rep_Chr lo hi cl w tl :
  lang (Rep lo hi (Chr cl)) w tl -> (lo <= hi)%nat ->
  (lo <= List.length w <= hi)%nat /\ forallb (cmatch cl) w = true.
Proof.
  intros (n & N1 & N2 & P) L. apply pow_lang_Chr in P.
  destruct P as [<- F]. split; [split; auto|exact F].
Qed.

Lemma lang_field w tl :
  lang (Rep 1 2 digit) w tl -> is_field w = true.
Proof.
  intros H. apply lang_Rep_Chr in H; [|lia]. destruct H as [[A B] F].
  unfold is_field. apply Nat.leb_le in A, B. rewrite A, B. exact F.
Qed.

Lemma lang_year w tl :
  lang (Rep 4 4 digit) w tl -> is_year w = true.
Proof.
  intros H. apply lang_Rep_Chr in H; [|lia]. destruct H as [[A B] F].
  unfold is_year. replace (List.length w) with 4%nat by lia. exact F.
Qed.

Lemma lang_chr c w tl : lang (chr c) w tl -> w = [c].
Proof.
  intros (x & -> & M). cbn in M. apply Ascii.eqb_eq in M. now subst.
Qed.

(** ** DateFormat.validate on every string *)

Lemma DATE_REGEX_lang w tl :
  lang DATE_REGEX w tl ->
  exists Y Mo D,
    w = Y ++ lit "-" ++ Mo ++ lit "-" ++ D /\ is_year Y = true /\
    is_field Mo = true /\ is_field D = true /\ eol_tail tl.
Proof.
  unfold DATE_REGEX. cbn [seqs lang].
  intros (Y & w1 & -> & HY & c1 & w2 & -> & H1 & Mo & w3 & -> & HMo
          & c2 & w4 & -> & H2 & D & e & -> & HD & -> & E).
  apply lang_year in HY. apply lang_field in HMo, HD.
  apply lang_chr in H1, H2. subst c1 c2.
  exists Y, Mo, D. rewrite app_nil_r. auto.
Qed.

Lemma DateFormat_shape Y Mo D nl :
  is_year Y = true -> is_field Mo = true -> is_field D = true ->
  eol_tail nl ->
  DateFormat.validate (Y ++ lit "-" ++ Mo ++ lit "-" ++ D ++ nl)
  = except_ValueError
      (date_new (Some (decimal Y)) (Some (decimal Mo)) (Some (decimal D)))
      (validation_error DateFormat.errors "invalid").
Proof.
  intros FY FMo FD E.
  split_list Y 5%nat;
    cbn [is_year List.length Nat.eqb forallb andb] in FY; try discriminate FY;
    digit_facts FY.
  all: split_list Mo 3%nat; digit_facts FMo;
    split_list D 3%nat; digit_facts FD.
  all: destruct E as [->| ->].
  all: cbn [app lit list_ascii_of_string].
  all: unfold DateFormat.validate.
  all: sim_auto DATE_REGEX digit_csim_DATE.
  all: ints; reflexivity.
Qed.
Lemma except_date_new y m d (e : result date) :
  except_ValueError (date_new (Some y) (Some m) (Some d)) e
  = if check_date_fields y m d then Ok (Date y m d) else e.
Proof.
  unfold date_new. cbn [required bind].
  now destruct (check_date_fields y m d).
Qed.

Lemma fmt_d_decimal w n :
  (1 <= w)%nat -> 0 <= n < 10 ^ Z.of_nat w ->
  List.length (fmt_d w n) = w /\ forallb is_digit (fmt_d w n) = true /\
  decimal (fmt_d w n) = n.
Proof.
  intros W R. destruct (fmt_d_spec W R) as (L & D & I).
  repeat split; auto.
  rewrite int_digits in I; [now injection I| |exact D].
  intros E. rewrite E in L. cbn in L. lia.
Qed.

Lemma fmt_d_field n :
  0 <= n < 10 ^ 2 ->
  is_field (fmt_d 2 n) = true /\ decimal (fmt_d 2 n) = n.
Proof.
  intros R. destruct (@fmt_d_decimal 2 n) as (L & D & I); [lia|exact R|].
  unfold is_field. rewrite L, D. auto.
Qed.

Lemma fmt_d_year n :
  0 <= n < 10 ^ 4 ->
  is_year (fmt_d 4 n) = true /\ decimal (fmt_d 4 n) = n.
Proof.
  intros R. destruct (@fmt_d_decimal 4 n) as (L & D & I); [lia|exact R|].
  unfold is_year. rewrite L, D. auto.
Qed.

(** X1: [DateFormat.validate] on a string [Y-Mo-D], with [Y] of four
    digits and [Mo], [D] of one or two, alone or followed by one line
    feed (which [$] lets through): the date of the three numbers when
    they are a date of the calendar, and otherwise the error with code
    [invalid]. *)
Theorem DateFormat_validate_shape Y Mo D nl :
  is_year Y = true -> is_field Mo = true -> is_field D = true ->
  eol_tail nl ->
  DateFormat.validate (Y ++ lit "-" ++ Mo ++ lit "-" ++ D ++ nl)
  = if check_date_fields (decimal Y) (decimal Mo) (decimal D)
    then Ok (Date (decimal Y) (decimal Mo) (decimal D))
    else Raise (ValidationError "Must be a real date." "invalid").
Proof.
  intros FY FMo FD E. rewrite DateFormat_shape by assumption.
  apply except_date_new.
Qed.

Lemma DateFormat_validate_shape_witness :
  DateFormat.validate (lit "2024-2-29" ++ ["010"%char])
  = Ok (Date 2024 2 29) /\
  DateFormat.validate (lit "2023-02-29")
  = Raise (ValidationError "Must be a real date." "invalid").
Proof.
  split.
  - exact (@DateFormat_validate_shape (lit "2024") (lit "2") (lit "29")
             ["010"%char] eq_refl eq_refl eq_refl (or_intror eq_refl)).
  - exact (@DateFormat_validate_shape (lit "2023") (lit "02") (lit "29")
             [] eq_refl eq_refl eq_refl (or_introl eq_refl)).
Defined.

(** X2: [DateFormat.validate] on any string: it fails with code [format],
    or the string is [Y-Mo-D] (four digits, one or two, one or two),
    with at most a line feed after it, and the outcome is the date of
    the three numbers or the error with code [invalid]. No other
    exception leaves [validate]. *)
Theorem DateFormat_validate_cases s :
  DateFormat.validate s
  = Raise (ValidationError "Must be a valid date format." "format") \/
  exists Y Mo D nl,
    s = Y ++ lit "-" ++ Mo ++ lit "-" ++ D ++ nl /\
    is_year Y = true /\ is_field Mo = true /\ is_field D = true /\
    eol_tail nl /\
    DateFormat.validate s
    = if check_date_fields (decimal Y) (decimal Mo) (decimal D)
      then Ok (Date (decimal Y) (decimal Mo) (decimal D))
      else Raise (ValidationError "Must be a real date." "invalid").
Proof.
  destruct (re_match DATE_REGEX s) as [m|] eqn:M.
  - right. destruct (re_match_lang _ _ M) as (w & E & Lw).
    apply DATE_REGEX_lang in Lw.
    destruct Lw as (Y & Mo & D & -> & FY & FMo & FD & El).
    exists Y, Mo, D, (rest m).
    assert (Es : s = Y ++ lit "-" ++ Mo ++ lit "-" ++ D ++ rest m)
      by (rewrite E; now rewrite <- !app_assoc).
    repeat (split; [assumption|]).
    rewrite Es, DateFormat_shape by assumption. apply except_date_new.
  - left. unfold DateFormat.validate. now rewrite M.
Qed.

(** X3: every date of the calendar is parsed back from its serialized
    form: [validate(serialize(d)) = d]. *)
Theorem DateFormat_validate_serialize d :
  check_date_fields (d_year d) (d_month d) (d_day d) = true ->
  DateFormat.serialize (PyDate d) = Ok (PyStr (date_isoformat d)) /\
  DateFormat.validate (date_isoformat d) = Ok d.
Proof.
  intros F. split; [reflexivity|].
  destruct d as [y m d]. cbn [d_year d_month d_day] in *.
  destruct (check_date_fields_range _ _ _ F) as (Ry & Rm & Rd).
  destruct (fmt_d_year Ry) as (FY & DY).
  destruct (fmt_d_field Rm) as (FM & DM).
  destruct (fmt_d_field Rd) as (FD & DD).
  pose proof (@DateFormat_shape _ _ _ [] FY FM FD (or_introl eq_refl)) as E.
  rewrite app_nil_r, except_date_new, DY, DM, DD, F in E. exact E.
Qed.

Lemma DateFormat_validate_serialize_witness :
  DateFormat.serialize (PyDate (Date 2021 6 1))
  = Ok (PyStr (date_isoformat (Date 2021 6 1))) /\
  DateFormat.validate (date_isoformat (Date 2021 6 1))
  = Ok (Date 2021 6 1).
Proof. exact (@DateFormat_validate_serialize (Date 2021 6 1) eq_refl). Defined.
(** ** TimeFormat.validate on every string *)

Lemma except_time_new h m s us (e : result time) :
  except_ValueError (time_new h m s us None) e
  = if check_time_fields (default0 h) (default0 m) (default0 s) (default0 us)
    then Ok (Time (default0 h) (default0 m) (default0 s) (default0 us) None)
    else e.
Proof.
  unfold time_new. cbv zeta.
  now destruct (check_time_fields _ _ _ _).
Qed.

Lemma is_digits_app a b :
  is_digits a = true -> forallb is_digit b = true ->
  is_digits (a ++ b) = true.
Proof.
  unfold is_digits. intros H F. apply andb_prop in H. destruct H as [N D].
  rewrite forallb_app, D, F, length_app.
  destruct a; [discriminate|reflexivity].
Qed.

Lemma TIME_REGEX_lang w tl :
  lang TIME_REGEX w tl ->
  exists H M tail, w = time_text H M tail /\ time_parts_ok H M tail = true.
Proof.
  unfold TIME_REGEX, time_tail. cbn [seqs lang].
  intros (H & w1 & -> & HH & c1 & w2 & -> & H1 & M & w3 & -> & HM & T).
  apply lang_field in HH, HM. apply lang_chr in H1. subst c1.
  destruct T as [(c2 & w4 & -> & H2 & Se & w5 & -> & HS & F)| ->].
  - apply lang_chr in H2. subst c2. apply lang_field in HS.
    destruct F as [(c3 & w6 & -> & H3 & d1 & d2 & -> & D1 & D2)| ->].
    + apply lang_chr in H3. subst c3.
      apply lang_Rep_Chr in D1; [|lia]. apply lang_Rep_Chr in D2; [|lia].
      destruct D1 as [[A1 _] F1]. destruct D2 as [_ F2].
      exists H, M, (Some (Se, Some (d1 ++ d2))). split; [reflexivity|].
      unfold time_parts_ok. rewrite HH, HM, HS. cbn [andb].
      apply is_digits_app; [|exact F2].
      unfold is_digits. apply Nat.leb_le in A1. rewrite A1. exact F1.
    + exists H, M, (Some (Se, None)). rewrite app_nil_r.
      split; [reflexivity|]. unfold time_parts_ok. now rewrite HH, HM, HS.
  - exists H, M, None. split; [reflexivity|].
    unfold time_parts_ok. now rewrite HH, HM.
Qed.

Lemma TimeFormat_shape H M tail :
  time_parts_ok H M tail = true ->
  TimeFormat.validate (time_text H M tail)
  = if check_time_fields (decimal H) (decimal M) (second_of tail)
         (microsecond_of tail)
    then Ok (Time (decimal H) (decimal M) (second_of tail)
               (microsecond_of tail) None)
    else Raise (ValidationError "Must be a real time." "invalid").
Proof.
  unfold time_parts_ok, time_text. intros P.
  apply andb_prop in P. destruct P as [P FT].
  apply andb_prop in P. destruct P as [FH FM].
  destruct tail as [[Se [ds|]]|]; cbn [second_of microsecond_of].
  - apply andb_prop in FT. destruct FT as [FS Fd].
    rewrite TimeFormat_fraction by assumption. apply except_time_new.
  - split_list H 3%nat; digit_facts FH;
    split_list M 3%nat; digit_facts FM;
    split_list Se 3%nat; digit_facts FT.
    all: cbn [app lit list_ascii_of_string].
    all: unfold TimeFormat.validate.
    all: sim_auto TIME_REGEX digit_csim_TIME.
    all: ints; apply except_time_new.
  - split_list H 3%nat; digit_facts FH;
    split_list M 3%nat; digit_facts FM.
    all: cbn [app lit list_ascii_of_string].
    all: unfold TimeFormat.validate.
    all: sim_auto TIME_REGEX digit_csim_TIME.
    all: ints; apply except_time_new.
Qed.
(** X4: [TimeFormat.validate] on a string [H:M], [H:M:S] or [H:M:S.ds]
    (fields of one or two digits, [ds] any non-empty run of digits):
    the time of these numbers, seconds and microseconds being 0 where
    the string has none, when hour, minute and second are in range, and
    otherwise the error with code [invalid]. *)
Theorem TimeFormat_validate_shape H M tail :
  time_parts_ok H M tail = true ->
  TimeFormat.validate (time_text H M tail)
  = if check_time_fields (decimal H) (decimal M) (second_of tail)
         (microsecond_of tail)
    then Ok (Time (decimal H) (decimal M) (second_of tail)
               (microsecond_of tail) None)
    else Raise (ValidationError "Must be a real time." "invalid").
Proof. apply TimeFormat_shape. Qed.

Lemma TimeFormat_validate_shape_witness :
  TimeFormat.validate (lit "9:05") = Ok (Time 9 5 0 0 None) /\
  TimeFormat.validate (lit "23:59:60")
  = Raise (ValidationError "Must be a real time." "invalid").
Proof.
  split.
  - exact (@TimeFormat_validate_shape (lit "9") (lit "05") None eq_refl).
  - exact (@TimeFormat_validate_shape (lit "23") (lit "59")
             (Some (lit "60", None)) eq_refl).
Defined.

(** X5: [TimeFormat.validate] on any string: it fails with code
    [format], or the string begins with a time [H:M], [H:M:S] or
    [H:M:S.ds] and the outcome is the time of these numbers or the
    error with code [invalid]. No other exception leaves [validate]. *)
Theorem TimeFormat_validate_cases s :
  TimeFormat.validate s
  = Raise (ValidationError "Must be a valid time format." "format") \/
  exists H M tail rest,
    s = time_text H M tail ++ rest /\ time_parts_ok H M tail = true /\
    TimeFormat.validate s
    = if check_time_fields (decimal H) (decimal M) (second_of tail)
           (microsecond_of tail)
      then Ok (Time (decimal H) (decimal M) (second_of tail)
                 (microsecond_of tail) None)
      else Raise (ValidationError "Must be a real time." "invalid").
Proof.
  destruct (re_match TIME_REGEX s) as [m|] eqn:Hm.
  - right. destruct (re_match_lang _ _ Hm) as (w & E & Lw).
    destruct (re_match_prefix _ _ Hm) as (E' & _).
    assert (W : firstn (pos m) s = w).
    { rewrite E in E' at 1. now apply app_inv_tail in E'. }
    apply TIME_REGEX_lang in Lw. destruct Lw as (H & M & tail & -> & P).
    exists H, M, tail, (rest m). split; [exact E|]. split; [exact P|].
    rewrite <- (TimeFormat_validate_prefix _ Hm), W.
    now apply TimeFormat_shape.
  - left. unfold TimeFormat.validate. now rewrite Hm.
Qed.

(** ** Text after a time *)

Lemma re_match_firstn_within r e s :
  simple r = true ->
  (forall x, In x (runs r (init s)) -> (pos x <= e)%nat) ->
  re_match r (firstn e s) = option_map (trunc e) (re_match r s).
Proof.
  intros Hs B. unfold re_match.
  assert (E : init (firstn e s) = trunc e (init s)).
  { unfold trunc, init; simpl. now rewrite Nat.sub_0_r. }
  rewrite E, runs_trunc by (simpl; auto; lia).
  assert (F : filter (within e) (runs r (init s)) = runs r (init s)).
  { apply forallb_filter_id. apply forallb_forall. intros x Hx.
    unfold within. apply Nat.leb_le. now apply B. }
  rewrite F. now destruct (runs r (init s)).
Qed.

(** When no way of matching reads beyond position [e], the text after
    it does not count. *)
Lemma TimeFormat_validate_within e s :
  (forall x, In x (runs TIME_REGEX (init s)) -> (pos x <= e)%nat) ->
  TimeFormat.validate (firstn e s) = TimeFormat.validate s.
Proof.
  intros B. unfold TimeFormat.validate.
  rewrite (@re_match_firstn_within TIME_REGEX e s eq_refl B).
  destruct (re_match TIME_REGEX s) as [m|] eqn:M; [|reflexivity].
  cbn [option_map].
  assert (P : (pos m <= e)%nat) by (apply B; now apply re_match_In).
  rewrite !group_firstn by (try exact P; eapply re_match_caps_le; eauto).
  reflexivity.
Qed.

Lemma TimeFormat_validate_app p t :
  (forall x, In x (runs TIME_REGEX (init (p ++ t))) ->
             (pos x <= List.length p)%nat) ->
  TimeFormat.validate (p ++ t) = TimeFormat.validate p.
Proof.
  intros B. rewrite <- (TimeFormat_validate_within _ B).
  rewrite firstn_app, firstn_all, Nat.sub_diag. cbn [firstn].
  now rewrite app_nil_r.
Qed.

Lemma prefix_class (q : ascii -> bool) w r : forall p t,
  w ++ r = p ++ t -> forallb q w = true ->
  match t with [] => True | c :: _ => q c = false end ->
  (List.length w <= List.length p)%nat.
Proof.
  induction w as [|a w IH]; intros p t E F T; [cbn; lia|].
  cbn [forallb] in F. apply andb_prop in F. destruct F as [Fa Fw].
  destruct p as [|b p].
  - cbn [app] in E. subst t. congruence.
  - cbn [app] in E. injection E as <- E. cbn [List.length].
    apply le_n_S. now apply (IH p t).
Qed.

Lemma digits_time_chars w :
  forallb is_digit w = true -> forallb time_char w = true.
Proof.
  rewrite !forallb_forall. intros F c Hc. unfold time_char.
  now rewrite (F c Hc).
Qed.

Lemma is_field_time_chars w : is_field w = true -> forallb time_char w = true.
Proof.
  unfold is_field. intros F. apply andb_prop in F. destruct F as [_ F].
  now apply digits_time_chars.
Qed.

Lemma time_text_chars H M tail :
  time_parts_ok H M tail = true ->
  forallb time_char (time_text H M tail) = true.
Proof.
  unfold time_parts_ok, time_text. intros P.
  apply andb_prop in P. destruct P as [P FT].
  apply andb_prop in P. destruct P as [FH FM].
  apply is_field_time_chars in FH, FM.
  rewrite !forallb_app, FH, FM. cbn [lit list_ascii_of_string forallb andb].
  change (time_char ":") with true. cbn [andb].
  destruct tail as [[Se [ds|]]|]; [| |reflexivity].
  - apply andb_prop in FT. destruct FT as [FS Fd].
    apply is_field_time_chars in FS. unfold is_digits in Fd.
    apply andb_prop in Fd. destruct Fd as [_ Fd].
    cbn [app forallb]. rewrite !forallb_app, FS.
    change (time_char ":") with true. cbn [forallb andb].
    change (time_char ".") with true. cbn [andb].
    now apply digits_time_chars.
  - apply is_field_time_chars in FT. cbn [app forallb].
    change (time_char ":") with true. now rewrite FT.
Qed.

(** No way of matching [TIME_REGEX] reads a character that is not one
    of a time text. *)
Lemma TIME_REGEX_stops p t x :
  ends_time t = true ->
  In x (runs TIME_REGEX (init (p ++ t))) -> (pos x <= List.length p)%nat.
Proof.
  intros T Hx. destruct (runs_lang _ _ _ Hx) as (w & E & Lw).
  destruct (runs_reads _ _ _ Hx) as (w' & E' & P & _).
  assert (w' = w) by (rewrite E in E'; now apply app_inv_tail in E').
  subst w'. cbn [init rest pos] in E, P. rewrite P. cbn [Nat.add].
  apply TIME_REGEX_lang in Lw. destruct Lw as (H & M & tail & -> & Ok').
  apply (@prefix_class time_char _ (rest x) p t (eq_sym E)).
  - now apply time_text_chars.
  - destruct t as [|c t]; [exact I|]. cbn [ends_time] in T.
    now apply negb_true_iff in T.
Qed.

(** C10, amended: text after a time [H:M], [H:M:S] or [H:M:S.ds] is not
    looked at when it is empty or begins with a character other than a
    digit, [:] and [.], so that [TimeFormat.validate] gives what the
    time alone gives: the time of its numbers when they are in range,
    the error with code [invalid] otherwise. [DATE_REGEX] and
    [DATETIME_REGEX] are anchored at the end: what they match runs to
    the end of the string, or to the line feed that ends it, and
    [2021-06-01garbage] and [2021-06-01T12:00:00garbage] are refused
    with code [format]. *)
Theorem TimeFormat_validate_trailing H M tail t :
  time_parts_ok H M tail = true -> ends_time t = true ->
  TimeFormat.validate (time_text H M tail ++ t)
  = TimeFormat.validate (time_text H M tail) /\
  TimeFormat.validate (time_text H M tail ++ t)
  = (if check_time_fields (decimal H) (decimal M) (second_of tail)
          (microsecond_of tail)
     then Ok (Time (decimal H) (decimal M) (second_of tail)
                (microsecond_of tail) None)
     else Raise (ValidationError "Must be a real time." "invalid")) /\
  (forall s m, re_match DATE_REGEX s = Some m ->
     s = firstn (pos m) s \/ s = firstn (pos m) s ++ ["010"%char]) /\
  (forall s m, re_match DATETIME_REGEX s = Some m ->
     s = firstn (pos m) s \/ s = firstn (pos m) s ++ ["010"%char]) /\
  DateFormat.validate (lit "2021-06-01garbage")
  = Raise (ValidationError "Must be a valid date format." "format") /\
  DateTimeFormat.validate (lit "2021-06-01T12:00:00garbage")
  = Raise (ValidationError "Must be a valid datetime format." "format").
Proof.
  intros P T.
  assert (A : TimeFormat.validate (time_text H M tail ++ t)
              = TimeFormat.validate (time_text H M tail)).
  { apply TimeFormat_validate_app. intros x. now apply TIME_REGEX_stops. }
  split; [exact A|]. split; [rewrite A; now apply TimeFormat_shape|].
  split; [|split; [|split]].
  - intros s m Hm. apply (@re_match_ends_eol DATE_REGEX s m eq_refl Hm).
  - intros s m Hm. apply (@re_match_ends_eol DATETIME_REGEX s m eq_refl Hm).
  - vm_compute. reflexivity.
  - vm_compute. reflexivity.
Qed.

Lemma TimeFormat_validate_trailing_witness :
  TimeFormat.validate (lit "14:30garbage") = Ok (Time 14 30 0 0 None) /\
  TimeFormat.validate (lit "1:2:3.5 pm") = Ok (Time 1 2 3 500000 None) /\
  TimeFormat.validate (lit "14:30:99garbage")
  = Raise (ValidationError "Must be a real time." "invalid").
Proof.
  split; [|split].
  - exact (proj1 (proj2 (@TimeFormat_validate_trailing (lit "14") (lit "30")
             None (lit "garbage") eq_refl eq_refl))).
  - exact (proj1 (proj2 (@TimeFormat_validate_trailing (lit "1") (lit "2")
             (Some (lit "3", Some (lit "5"))) (lit " pm") eq_refl eq_refl))).
  - exact (proj1 (proj2 (@TimeFormat_validate_trailing (lit "14") (lit "30")
             (Some (lit "99", None)) (lit "garbage") eq_refl eq_refl))).
Defined.

(** C10, as stated, fails: [14:30:45] and [14:30:99] begin with the
    valid time [14:30], which alone validates to 14:30. What follows is
    read, not ignored: the first is the time 14:30:45 and the second is
    refused with code [invalid]. *)
Lemma TimeFormat_validate_trailing_read :
  TimeFormat.validate (lit "14:30") = Ok (Time 14 30 0 0 None) /\
  TimeFormat.validate (lit "14:30:45") = Ok (Time 14 30 45 0 None) /\
  TimeFormat.validate (lit "14:30:99")
  = Raise (ValidationError "Must be a real time." "invalid").
Proof.
  split; [|split]; vm_compute; reflexivity.
Qed.




(** ** DateTimeFormat.validate on the strings isoformat writes *)

Lemma except_datetime_new y mo d h mi s us tz (e : result datetime) :
  except_ValueError
    (datetime_new (Some y) (Some mo) (Some d) h mi s us tz) e
  = if (check_date_fields y mo d
        && check_time_fields (default0 h) (default0 mi) (default0 s)
             (default0 us))%bool
    then Ok (DateTime (Date y mo d) (default0 h) (default0 mi) (default0 s)
               (default0 us) tz)
    else e.
Proof.
  unfold datetime_new. cbn [required bind]. cbv zeta.
  destruct (check_date_fields y mo d); [|reflexivity].
  now destruct (check_time_fields _ _ _ _).
Qed.

Ltac pair_facts F :=
  cbn [is_pair is_year List.length Nat.eqb forallb andb] in F;
  try discriminate F;
  repeat (let D := fresh "D" in apply andb_prop in F; destruct F as [D F]).

Ltac tz_eval :=
  unfold DateTimeFormat.parse_tzinfo;
  cbn [str_eqb lit list_ascii_of_string Ascii.eqb Bool.eqb andb
       List.length Nat.ltb Nat.leb Nat.sub skipn substr firstn prefixb];
  rewrite ?int_digits by (discriminate || digits_ok);
  cbn [bind].

Lemma DateTimeFormat_iso_shape Y Mo D sep H M Se frac tz :
  is_year Y = true -> is_pair Mo = true -> is_pair D = true ->
  is_sep sep = true -> is_pair H = true -> is_pair M = true ->
  is_pair Se = true ->
  match frac with
  | Some ds => (is_digits ds && Nat.leb (List.length ds) 12)%bool
  | None => true
  end = true ->
  tz_ok tz = true ->
  DateTimeFormat.validate
    (datetime_text Y Mo D sep H M (Some (Se, frac)) ++ tz_text tz)
  = datetime_of (decimal Y) (decimal Mo) (decimal D) (decimal H) (decimal M)
      (decimal Se) (microsecond_of (Some (Se, frac))) (tzinfo_of tz).
Proof.
  intros FY FMo FD Fsep FH FM FS Ff Ftz.
  unfold datetime_text, time_text, microsecond_of, microseconds, datetime_of.
  split_list Y 5%nat; pair_facts FY.
  split_list Mo 3%nat; pair_facts FMo.
  split_list D 3%nat; pair_facts FD.
  split_list H 3%nat; pair_facts FH.
  split_list M 3%nat; pair_facts FM.
  split_list Se 3%nat; pair_facts FS.
  destruct frac as [ds|].
  1: apply andb_prop in Ff; destruct Ff as [Fd Ln];
     split_list ds 13%nat; cbn [List.length Nat.leb] in Ln;
     try discriminate Ln; digit_facts Fd.
  all: destruct tz as [[|[|] hh [[[|] mm]|]]|];
    cbn [tz_ok designator_ok] in Ftz;
    try (apply andb_prop in Ftz; destruct Ftz as [Fhh Fmm];
         split_list mm 3%nat; pair_facts Fmm);
    try (rename Ftz into Fhh);
    try (split_list hh 3%nat; pair_facts Fhh).
  all: cbn [tz_text designator_text app lit list_ascii_of_string].
  all: unfold DateTimeFormat.validate.
  all: sim_datetime.
  all: cbn [tzinfo_of offset_of]; tz_eval.
  all: try (destruct (timezone _) as [tzv|e]; [|reflexivity]).
  all: cbn [bind]; ints; cbn [firstn]; apply except_datetime_new.
Qed.
Lemma fmt_d_pair n :
  0 <= n < 10 ^ 2 ->
  is_pair (fmt_d 2 n) = true /\ decimal (fmt_d 2 n) = n.
Proof.
  intros R. destruct (@fmt_d_decimal 2 n) as (L & D & I); [lia|exact R|].
  unfold is_pair. rewrite L, D. auto.
Qed.

Lemma microseconds_fmt_d n :
  0 <= n < 10 ^ 6 ->
  (is_digits (fmt_d 6 n) && Nat.leb (List.length (fmt_d 6 n)) 12)%bool = true
  /\ microseconds (fmt_d 6 n) = n.
Proof.
  intros R. destruct (@fmt_d_decimal 6 n) as (L & D & I); [lia|exact R|].
  unfold is_digits, microseconds. rewrite L, D. split; [reflexivity|].
  rewrite firstn_all2 by lia. rewrite L, I. cbn. lia.
Qed.

(** The designator that [isoformat] writes for an offset of [k]
    minutes, with [Z] for [+00:00]. *)
Lemma canonical_designator k :
  -1440 < k < 1440 ->
  exists tz,
    tz_ok tz = true /\ tzinfo_of tz = Ok (Some (k * 60000000)) /\
    tz_text tz = if k =? 0 then lit "Z"
                 else format_offset (Some (k * 60000000)).
Proof.
  intros R. destruct (Z.eqb_spec k 0) as [->|N].
  - exists (Some TzZ). auto.
  - destruct (format_offset_shape R)
      as (z1 & z2 & w1 & w2 & E & (Dz1 & Dz2 & Iz) & (Dw1 & Dw2 & Iw)).
    exists (Some (TzOffset (k <? 0) [z1; z2] (Some (true, [w1; w2])))).
    rewrite E. cbn [tz_ok designator_ok is_pair List.length Nat.eqb
                      forallb andb].
    rewrite Dz1, Dz2, Dw1, Dw2. split; [reflexivity|]. split.
    + cbn [tzinfo_of offset_of].
      rewrite int_digits in Iz, Iw by (discriminate || digits_ok).
      injection Iz as ->. injection Iw as ->.
      rewrite (@timedelta_minutes (Z.abs k) (Z.abs_nonneg k)).
      destruct (Z.ltb_spec k 0).
      * replace (- (Z.abs k * 60000000)) with (k * 60000000) by lia.
        now apply timezone_minutes.
      * replace (Z.abs k * 60000000) with (k * 60000000) by lia.
        now apply timezone_minutes.
    + cbn [tz_text designator_text]. now destruct (k <? 0).
Qed.

Lemma canonical_text dt :
  minutes_offset (dt_tzinfo dt) ->
  canonical dt
  = date_isoformat (dt_date dt) ++ lit "T"
    ++ format_time (dt_hour dt) (dt_minute dt) (dt_second dt)
         (dt_microsecond dt)
    ++ match dt_tzinfo dt with
       | None => []
       | Some off => if off =? 0 then lit "Z" else format_offset (Some off)
       end.
Proof.
  unfold canonical, datetime_isoformat.
  destruct (dt_tzinfo dt) as [off|]; [|reflexivity].
  intros _. now destruct off.
Qed.

Lemma DateTimeFormat_validate_canonical dt :
  valid_datetime dt -> DateTimeFormat.validate (canonical dt) = Ok dt.
Proof.
  intros (Fd & Ft & Tz). rewrite canonical_text by exact Tz.
  destruct dt as [[y mo da] h mi se us tz].
  cbn [dt_date dt_hour dt_minute dt_second dt_microsecond dt_tzinfo
       d_year d_month d_day] in *.
  destruct (check_date_fields_range _ _ _ Fd) as (Ry & Rmo & Rda).
  destruct (check_time_fields_range _ _ _ _ Ft) as (Rh & Rm & Rs & Ru).
  destruct (fmt_d_year Ry) as (FY & DY).
  destruct (fmt_d_pair Rmo) as (FMo & DMo).
  destruct (fmt_d_pair Rda) as (FD & DD).
  destruct (fmt_d_pair Rh) as (FH & DH).
  destruct (fmt_d_pair Rm) as (FM & DM).
  destruct (fmt_d_pair Rs) as (FS & DS).
  destruct (microseconds_fmt_d Ru) as (FU & DU).
  assert (T : exists tzd,
    tz_ok tzd = true /\ tzinfo_of tzd = Ok tz /\
    tz_text tzd = match tz with
                  | None => []
                  | Some off =>
                      if off =? 0 then lit "Z" else format_offset (Some off)
                  end).
  { destruct tz as [off|]; [|exists None; auto].
    destruct Tz as (k & -> & Rk).
    destruct (canonical_designator Rk) as (tzd & A & B & C).
    exists tzd. split; [exact A|]. split; [exact B|]. rewrite C.
    replace (k * 60000000 =? 0) with (k =? 0); [reflexivity|].
    destruct (Z.eqb_spec k 0), (Z.eqb_spec (k * 60000000) 0);
      try reflexivity; lia. }
  destruct T as (tzd & Tok & Tv & Tt).
  set (frac := if us =? 0 then None else Some (fmt_d 6 us)).
  match goal with
  | |- DateTimeFormat.validate ?v = _ =>
      assert (E : v = datetime_text (fmt_d 4 y) (fmt_d 2 mo) (fmt_d 2 da) "T"
                        (fmt_d 2 h) (fmt_d 2 mi) (Some (fmt_d 2 se, frac))
                      ++ tz_text tzd)
  end.
  { rewrite Tt.
    unfold date_isoformat, format_time, datetime_text, time_text, frac.
    cbn [d_year d_month d_day lit list_ascii_of_string].
    destruct (us =? 0); rewrite <- ?app_assoc; cbn [app];
      rewrite <- ?app_assoc; reflexivity. }
  rewrite E. rewrite DateTimeFormat_iso_shape; auto.
  - rewrite DY, DMo, DD, DH, DM, DS, Tv. unfold datetime_of. cbn [bind].
    assert (U : microsecond_of (Some (fmt_d 2 se, frac)) = us).
    { unfold frac, microsecond_of. destruct (Z.eqb_spec us 0); auto. }
    rewrite U, Fd, Ft. reflexivity.
  - unfold frac. now destruct (us =? 0).
Qed.

(** X7: [DateTimeFormat.validate] on a date and time written as
    [YYYY-MM-DD], [T] or a space, [HH:MM:SS], an optional fraction of up
    to twelve digits and an optional designator: [Z] is UTC, a signed
    designator gives its hours and, when it has them, its minutes, with
    the sign of its first character, and no designator gives a naive
    datetime. The designator is read before the fields are checked. *)
Theorem DateTimeFormat_validate_designator Y Mo D sep H M Se frac tz :
  is_year Y = true -> is_pair Mo = true -> is_pair D = true ->
  is_sep sep = true -> is_pair H = true -> is_pair M = true ->
  is_pair Se = true ->
  match frac with
  | Some ds => (is_digits ds && Nat.leb (List.length ds) 12)%bool
  | None => true
  end = true ->
  tz_ok tz = true ->
  DateTimeFormat.validate
    (datetime_text Y Mo D sep H M (Some (Se, frac)) ++ tz_text tz)
  = datetime_of (decimal Y) (decimal Mo) (decimal D) (decimal H) (decimal M)
      (decimal Se) (microsecond_of (Some (Se, frac))) (tzinfo_of tz).
Proof. apply DateTimeFormat_iso_shape. Qed.

Lemma DateTimeFormat_validate_designator_witness :
  DateTimeFormat.validate (lit "2021-06-01T12:00:00+05:30")
  = Ok (DateTime (Date 2021 6 1) 12 0 0 0 (Some 19800000000)) /\
  DateTimeFormat.validate (lit "2021-06-01 12:00:00.25-0800")
  = Ok (DateTime (Date 2021 6 1) 12 0 0 250000 (Some (-28800000000))) /\
  DateTimeFormat.validate (lit "2021-06-01T12:00:00Z")
  = Ok (DateTime (Date 2021 6 1) 12 0 0 0 (Some 0)) /\
  DateTimeFormat.validate (lit "2021-06-01T12:00:00")
  = Ok (DateTime (Date 2021 6 1) 12 0 0 0 None).
Proof.
  split; [|split; [|split]].
  - exact (@DateTimeFormat_validate_designator
             (lit "2021") (lit "06") (lit "01") "T" (lit "12") (lit "00")
             (lit "00") None
             (Some (TzOffset false (lit "05") (Some (true, lit "30"))))
             eq_refl eq_refl eq_refl eq_refl eq_refl eq_refl eq_refl
             eq_refl eq_refl).
  - exact (@DateTimeFormat_validate_designator
             (lit "2021") (lit "06") (lit "01") " " (lit "12") (lit "00")
             (lit "00") (Some (lit "25"))
             (Some (TzOffset true (lit "08") (Some (false, lit "00"))))
             eq_refl eq_refl eq_refl eq_refl eq_refl eq_refl eq_refl
             eq_refl eq_refl).
  - exact (@DateTimeFormat_validate_designator
             (lit "2021") (lit "06") (lit "01") "T" (lit "12") (lit "00")
             (lit "00") None (Some TzZ)
             eq_refl eq_refl eq_refl eq_refl eq_refl eq_refl eq_refl
             eq_refl eq_refl).
  - exact (@DateTimeFormat_validate_designator
             (lit "2021") (lit "06") (lit "01") "T" (lit "12") (lit "00")
             (lit "00") None None
             eq_refl eq_refl eq_refl eq_refl eq_refl eq_refl eq_refl
             eq_refl eq_refl).
Defined.



(** X9: a datetime with fields in range and no offset or an offset of
    whole minutes is serialized to its canonical string (ISO 8601, with
    [Z] for UTC) and parsed back from it as itself:
    [validate(serialize(dt)) = dt]. *)
Theorem DateTimeFormat_validate_serialize dt :
  valid_datetime dt ->
  DateTimeFormat.serialize (PyDateTime dt) = Ok (PyStr (canonical dt)) /\
  DateTimeFormat.validate (canonical dt) = Ok dt.
Proof.
  intros V. split.
  - now apply DateTimeFormat_serialize_canonical.
  - now apply DateTimeFormat_validate_canonical.
Qed.

Lemma DateTimeFormat_validate_serialize_witness :
  DateTimeFormat.serialize
    (PyDateTime (DateTime (Date 2021 6 1) 12 0 0 0 (Some 0)))
  = Ok (PyStr (lit "2021-06-01T12:00:00Z")) /\
  DateTimeFormat.validate (lit "2021-06-01T12:00:00Z")
  = Ok (DateTime (Date 2021 6 1) 12 0 0 0 (Some 0)).
Proof.
  apply (@DateTimeFormat_validate_serialize
           (DateTime (Date 2021 6 1) 12 0 0 0 (Some 0))).
  split; [reflexivity|]. split; [reflexivity|].
  exists 0. split; [reflexivity|lia].
Defined.

(** X10: [DateTimeFormat.serialize] on any datetime: when the string
    that [isoformat] writes ends with [+00:00], these six characters
    are replaced by [Z]; otherwise the string is returned as it is. *)
Theorem DateTimeFormat_serialize_Z dt :
  exists v,
    DateTimeFormat.serialize (PyDateTime dt) = Ok (PyStr v) /\
    ((exists body, datetime_isoformat dt = body ++ lit "+00:00" /\
                   v = body ++ lit "Z") \/
     ((forall body, datetime_isoformat dt <> body ++ lit "+00:00") /\
      v = datetime_isoformat dt)).
Proof. apply DateTimeFormat_serialize_suffix. Qed.

(** ** What the groups of a match hold *)

Lemma runs_nogroup r :
  nogroup r = true -> forall st x, In x (runs r st) -> caps x = caps st.
Proof.
  induction r; cbn [nogroup]; intros N st x H; cbn [runs] in H;
    try discriminate;
    try (apply andb_prop in N; destruct N as [N1 N2]).
  - destruct H as [ <- | [] ]. reflexivity.
  - destruct (rest st) as [|c tl]; [destruct H|].
    destruct (cmatch cl c); [|destruct H]. destruct H as [ <- | [] ].
    reflexivity.
  - apply in_flat_map in H. destruct H as (y & Hy & Hx).
    rewrite (IHr2 N2 _ _ Hx). apply (IHr1 N1 _ _ Hy).
  - apply in_app_or in H. destruct H as [H|H]; eauto.
  - apply in_app_or in H. destruct H as [H| [ <- | [] ] ]; eauto.
  - revert H.
    apply (@star_runs_invariant (fun st x => caps x = caps st));
      [reflexivity|intros; congruence|auto].
  - revert H.
    apply (@rep_runs_invariant (fun st x => caps x = caps st));
      [reflexivity|intros; congruence|auto].
  - eauto.
  - destruct (Nat.eqb (pos st) 0); [|destruct H].
    destruct H as [ <- | [] ]. reflexivity.
  - destruct (at_eol st); [|destruct H].
    destruct H as [ <- | [] ]. reflexivity.
  - destruct (at_wordb st); [|destruct H].
    destruct H as [ <- | [] ]. reflexivity.
Qed.

Section Steps.

Variable s : str.

(** A part of the pattern without groups reads a word of its language
    and leaves the groups as they are. *)
Lemma step_plain r st x :
  In x (runs r st) -> on_subject s st -> nogroup r = true ->
  exists w, rest st = w ++ rest x /\ on_subject s x /\
            pos x = (pos st + List.length w)%nat /\
            caps x = caps st /\ lang r w (rest x).
Proof.
  intros H G N. destruct (runs_lang _ _ _ H) as (w & E & Lw).
  destruct (runs_reads _ _ _ H) as (w' & E' & P & _).
  assert (w' = w) by (rewrite E in E'; now apply app_inv_tail in E').
  subst w'. exists w. split; [exact E|].
  split; [|split; [exact P|split; [|exact Lw]]].
  - unfold on_subject in *. rewrite P, Nat.add_comm, <- skipn_skipn, G, E.
    now rewrite skipn_app, skipn_all, Nat.sub_diag.
  - now apply runs_nogroup with (r := r).
Qed.

(** A group whose pattern has no group inside holds the word that its
    pattern read. *)
Lemma step_group n r st x :
  In x (runs (Group n r) st) -> on_subject s st -> nogroup r = true ->
  exists w, rest st = w ++ rest x /\ on_subject s x /\
            caps x = (n, (pos st, pos x)) :: caps st /\
            substr s (pos st) (pos x) = w /\ lang r w (rest x).
Proof.
  intros H G N. cbn [runs] in H. apply in_map_iff in H.
  destruct H as (y & <- & Hy).
  destruct (@step_plain r st y Hy G N) as (w & E & Gy & P & C & Lw).
  exists w. cbn [set_cap rest pos caps]. rewrite C.
  repeat (split; [assumption || reflexivity|]). split; [|exact Lw].
  unfold substr. rewrite G, E, P.
  replace (pos st + List.length w - pos st)%nat with (List.length w) by lia.
  now rewrite firstn_app, firstn_all, Nat.sub_diag, app_nil_r.
Qed.

Lemma step_eol st x :
  In x (runs Eol st) -> x = st /\ eol_tail (rest st).
Proof.
  intros H. destruct (runs_lang _ _ _ H) as (w & E & -> & T).
  cbn [runs] in H. destruct (at_eol st); [|destruct H].
  destruct H as [ <- | [] ]. auto.
Qed.

End Steps.
(** ** Every word of a pattern is matched *)

Lemma rep_runs_last (body : mstate -> list mstate) hi st :
  In st (rep_runs body 0 hi st).
Proof.
  destruct hi; cbn [rep_runs]; [now left|].
  apply in_or_app. right. now left.
Qed.

Lemma rep_runs_can (body : mstate -> list mstate) (L : str -> str -> Prop) :
  (forall w tl, L w tl -> forall st, rest st = w ++ tl ->
                exists x, In x (body st) /\ rest x = tl) ->
  forall n hi lo w tl,
    pow_lang L n w tl -> (n <= hi)%nat -> (lo <= n)%nat ->
    forall st, rest st = w ++ tl ->
    exists x, In x (rep_runs body lo hi st) /\ rest x = tl.
Proof.
  intros B. induction n as [|n IH]; intros hi lo w tl P Hn Ln st E;
    cbn [pow_lang] in P.
  - subst w. assert (lo = 0%nat) by lia. subst lo.
    exists st. split; [apply rep_runs_last|exact E].
  - destruct P as (w1 & w2 & -> & L1 & P).
    destruct hi as [|hi]; [lia|].
    rewrite <- app_assoc in E.
    destruct (B _ _ L1 st E) as (y & Hy & Ey).
    destruct (IH hi (Nat.pred lo) w2 tl P ltac:(lia) ltac:(lia) y Ey)
      as (x & Hx & Ex).
    exists x. split; [|exact Ex]. cbn [rep_runs].
    destruct lo as [|lo]; cbn [Nat.pred] in Hx.
    + apply in_or_app. left. apply in_flat_map. eauto.
    + apply in_flat_map. eauto.
Qed.

(** Completeness of the matcher on plain patterns. *)
Lemma lang_can r :
  plain r = true -> forall w tl, lang r w tl -> can r (w ++ tl) tl.
Proof.
  induction r; cbn [plain]; intros Pl w tl Lw st E; cbn [lang] in Lw;
    try discriminate;
    try (apply andb_prop in Pl; destruct Pl as [P1 P2]).
  - subst w. exists st. split; [now left|exact E].
  - destruct Lw as (c & -> & M). cbn [runs]. cbn [app] in E. rewrite E, M.
    exists (advance st c tl). split; [now left|reflexivity].
  - destruct Lw as (w1 & w2 & -> & L1 & L2). rewrite <- app_assoc in E.
    destruct (IHr1 P1 _ _ L1 st E) as (y & Hy & Ey).
    destruct (IHr2 P2 _ _ L2 y Ey) as (x & Hx & Ex).
    exists x. split; [|exact Ex]. cbn [runs]. apply in_flat_map. eauto.
  - cbn [runs]. destruct Lw as [Lw|Lw];
      [destruct (IHr1 P1 _ _ Lw st E) as (x & Hx & Ex)
      |destruct (IHr2 P2 _ _ Lw st E) as (x & Hx & Ex)];
      exists x; (split; [|exact Ex]); apply in_or_app; auto.
  - cbn [runs]. destruct Lw as [Lw| ->].
    + destruct (IHr Pl _ _ Lw st E) as (x & Hx & Ex).
      exists x. split; [|exact Ex]. apply in_or_app. auto.
    + exists st. split; [|exact E]. apply in_or_app. right. now left.
  - destruct Lw as (n & N1 & N2 & P). apply Nat.leb_le in P1.
    cbn [runs].
    apply (@rep_runs_can (runs r) (lang r)) with (n := n) (w := w); auto.
    intros w' tl' L' st' E'. exact (IHr P2 _ _ L' st' E').
  - destruct (IHr Pl _ _ Lw st E) as (x & Hx & Ex).
    exists (set_cap name (pos st) x). split; [|exact Ex].
    cbn [runs]. now apply in_map.
  - exact (IHr Pl _ _ Lw st E).
  - destruct Lw as (-> & T). exists st. split; [|exact E].
    cbn [runs]. unfold at_eol. cbn [app] in E. rewrite E.
    destruct T as [->| ->]; now left.
Qed.

(** ** The first match *)

Lemma hd_flat_map_inv {A B} (f : A -> list B) l m :
  hd_error (flat_map f l) = Some m ->
  exists y, In y l /\ hd_error (f y) = Some m.
Proof.
  induction l as [|a l IH]; cbn [flat_map]; [discriminate|].
  destruct (f a) as [|b t] eqn:E; cbn [app hd_error].
  - intros H. destruct (IH H) as (y & Hy & Hm). exists y. split; auto.
    now right.
  - intros [= <-]. exists a. split; [now left|]. now rewrite E.
Qed.

Lemma hd_app_inv {A} (l1 l2 : list A) m :
  hd_error (l1 ++ l2) = Some m ->
  hd_error l1 = Some m \/ (l1 = [] /\ hd_error l2 = Some m).
Proof. destruct l1; cbn; auto. Qed.

Lemma flat_map_assoc {A B C} (f : B -> list C) (g : A -> list B) l :
  flat_map f (flat_map g l) = flat_map (fun x => flat_map f (g x)) l.
Proof.
  induction l as [|a l IH]; [reflexivity|].
  cbn [flat_map]. now rewrite flat_map_app, IH.
Qed.

Lemma flat_map_nil_inv {A B} (f : A -> list B) l :
  flat_map f l = [] -> forall a, In a l -> f a = [].
Proof.
  induction l as [|x l IH]; cbn [flat_map]; intros H a Ha; [destruct Ha|].
  apply app_eq_nil in H. destruct H as [H1 H2].
  destruct Ha as [ <- |Ha]; auto.
Qed.

Lemma flat_map_unit {A} (l : list A) : flat_map (fun x => [x]) l = l.
Proof. induction l as [|a l IH]; [reflexivity|]. cbn. now rewrite IH. Qed.

Lemma re_match_first r s m :
  re_match r s = Some m <-> first_with (fun x => [x]) r (init s) m.
Proof. unfold re_match, first_with. now rewrite flat_map_unit. Qed.

Lemma first_Seq K a b st m :
  first_with K (Seq a b) st m ->
  exists y, In y (runs a st) /\ first_with K b y m.
Proof.
  unfold first_with. cbn [runs]. rewrite flat_map_assoc.
  apply hd_flat_map_inv.
Qed.

Lemma first_Seq_cont K a b st m :
  first_with K (Seq a b) st m ->
  first_with (fun y => flat_map K (runs b y)) a st m.
Proof. unfold first_with. cbn [runs]. now rewrite flat_map_assoc. Qed.

Lemma first_Opt K a st m :
  first_with K (Opt a) st m ->
  first_with K a st m \/ hd_error (K st) = Some m.
Proof.
  unfold first_with. cbn [runs]. rewrite flat_map_app. intros H.
  apply hd_app_inv in H. destruct H as [H|[_ H]]; [now left|right].
  cbn [flat_map] in H. now rewrite app_nil_r in H.
Qed.

Lemma first_In r st m : first_with (fun x => [x]) r st m -> In m (runs r st).
Proof.
  unfold first_with. rewrite flat_map_unit.
  destruct (runs r st); cbn; [discriminate|]. intros [= ->]. now left.
Qed.

(** A counted run of one class is greedy: when the first match takes
    fewer characters than it may, the continuation fails after one
    more. *)
Lemma rep_chr_greedy cl (f : mstate -> list mstate) m : forall hi lo st,
  hd_error (flat_map f (rep_runs (runs (Chr cl)) lo hi st)) = Some m ->
  exists x,
    In x (rep_runs (runs (Chr cl)) lo hi st) /\ hd_error (f x) = Some m /\
    ((pos x < pos st + hi)%nat ->
     forall c tl, rest x = c :: tl -> cmatch cl c = true ->
                  f (advance x c tl) = []).
Proof.
  induction hi as [|hi IH]; intros lo st H.
  - cbn [rep_runs flat_map] in *. rewrite app_nil_r in H.
    exists st. split; [now left|]. split; [exact H|]. lia.
  - cbn [rep_runs] in H |- *.
    assert (B : runs (Chr cl) st = [] \/
                exists c tl, rest st = c :: tl /\ cmatch cl c = true /\
                             runs (Chr cl) st = [advance st c tl]).
    { cbn [runs]. destruct (rest st) as [|c tl]; [now left|].
      destruct (cmatch cl c) eqn:M; [right; eauto|now left]. }
    destruct B as [B|(c0 & tl0 & E0 & M0 & B)].
    + destruct lo as [|lo]; rewrite B in *; cbn [flat_map app] in H;
        [|discriminate].
      rewrite app_nil_r in H. exists st. split; [now left|].
      split; [exact H|]. intros _ c tl E M.
      cbn [runs] in B. rewrite E, M in B. discriminate B.
    + assert (C : hd_error (flat_map f
                    (rep_runs (runs (Chr cl)) (Nat.pred lo) hi
                       (advance st c0 tl0))) = Some m
                  \/ (lo = 0%nat /\
                      flat_map f (rep_runs (runs (Chr cl)) 0 hi
                                    (advance st c0 tl0)) = [] /\
                      hd_error (f st) = Some m)).
      { destruct lo as [|lo]; rewrite B in H; cbn [Nat.pred flat_map] in H |- *;
          rewrite app_nil_r in H; [|now left].
        rewrite flat_map_app in H. apply hd_app_inv in H.
        destruct H as [H|[N H]]; [now left|right].
        cbn [flat_map] in H. rewrite app_nil_r in H. auto. }
      destruct C as [C|(-> & N & Hs)].
      * destruct (IH _ _ C) as (x & Hx & Hm & G).
        exists x. split.
        { destruct lo; rewrite B; cbn [Nat.pred flat_map] in Hx |- *;
            rewrite app_nil_r; [apply in_or_app; now left|exact Hx]. }
        split; [exact Hm|]. intros Lt. apply G. cbn [advance pos]. lia.
      * exists st. split; [rewrite B; apply in_or_app; right; now left|].
        split; [exact Hs|]. intros _ c tl E M.
        rewrite E0 in E. injection E as <- <-.
        apply (flat_map_nil_inv _ _ N). apply rep_runs_last.
Qed.

Lemma flat_map_map_ {A B C} (f : B -> list C) (g : A -> B) l :
  flat_map f (map g l) = flat_map (fun x => f (g x)) l.
Proof.
  induction l as [|a l IH]; [reflexivity|]. cbn. now rewrite IH.
Qed.

(** The first match of a group of one counted class, with what it
    leaves to its continuation. *)
Lemma first_Group_Rep K n cl lo hi st m :
  first_with K (Group n (Rep lo hi (Chr cl))) st m ->
  exists x,
    In x (runs (Rep lo hi (Chr cl)) st) /\
    hd_error (K (set_cap n (pos st) x)) = Some m /\
    ((pos x < pos st + hi)%nat ->
     forall c tl, rest x = c :: tl -> cmatch cl c = true ->
                  K (set_cap n (pos st) (advance x c tl)) = []).
Proof.
  unfold first_with. cbn [runs]. rewrite flat_map_map_.
  apply rep_chr_greedy.
Qed.

Lemma first_with_can (K : mstate -> list mstate) r st w tl :
  plain r = true -> lang r w tl -> rest st = w ++ tl ->
  flat_map K (runs r st) = [] -> exists x, rest x = tl /\ K x = [].
Proof.
  intros P L E F. destruct (lang_can r P _ _ L st E) as (x & Hx & Ex).
  exists x. split; [exact Ex|]. exact (flat_map_nil_inv _ _ F x Hx).
Qed.

(** The digits after the first of a counted run are a shorter run. *)
Lemma lang_Rep_tail cl hi c w tl :
  lang (Rep 0 (S hi) (Chr cl)) (c :: w) tl -> lang (Rep 0 hi (Chr cl)) w tl.
Proof.
  intros (n & N1 & _ & P). destruct n as [|n]; [discriminate P|].
  cbn [pow_lang] in P. destruct P as (w1 & w2 & E & (c' & -> & M) & P).
  injection E as <- <-. exists n. split; [lia|]. split; [lia|exact P].
Qed.

Lemma lang_Rep_more a lo hi w tl :
  lang (Rep lo hi a) w tl -> (lo <= hi)%nat -> lang (Rep lo (S hi) a) w tl.
Proof.
  intros (n & N1 & N2 & P) L. exists n. split; [lia|]. split; [auto|exact P].
Qed.

Lemma microseconds_first d1 d2 :
  List.length d1 = 6%nat \/ d2 = [] ->
  microseconds d1 = microseconds (d1 ++ d2).
Proof.
  intros [L| ->]; [|now rewrite app_nil_r].
  unfold microseconds. rewrite firstn_app, L, Nat.sub_diag.
  cbn [firstn]. now rewrite app_nil_r.
Qed.

(** ** DateTimeFormat.validate on every string *)

Lemma lang_sep w tl :
  lang (Chr (CUnion (CLit "T") (CLit " "))) w tl ->
  exists c, w = [c] /\ is_sep c = true.
Proof. intros (c & -> & M). exists c. auto. Qed.

Lemma lang_pair w tl : lang (Rep 2 2 digit) w tl -> is_pair w = true.
Proof.
  intros H. apply lang_Rep_Chr in H; [|lia]. destruct H as [[A B] F].
  unfold is_pair. replace (List.length w) with 2%nat by lia. exact F.
Qed.

Lemma tz_designator_lang w tl :
  lang tz_designator w tl ->
  exists d, designator_ok d = true /\ w = designator_text d.
Proof.
  unfold tz_designator. cbn [seqs lang].
  intros [Z|(sg & w1 & -> & (c & -> & Sg) & hh & w2 & -> & Hh & O)].
  - apply lang_chr in Z. subst w. exists TzZ. auto.
  - apply lang_pair in Hh.
    assert (S' : exists neg : bool, c = if neg then "-"%char else "+"%char).
    { cbn [cmatch] in Sg. apply orb_prop in Sg. destruct Sg as [Sg|Sg];
        apply Ascii.eqb_eq in Sg; subst c;
        [exists false|exists true]; reflexivity. }
    destruct S' as (neg & ->).
    destruct O as [(co & mm & -> & Co & Mm)| ->].
    + apply lang_pair in Mm. destruct Co as [Co| ->].
      * apply lang_chr in Co. subst co.
        exists (TzOffset neg hh (Some (true, mm))). cbn.
        rewrite Hh, Mm. split; [reflexivity|]. now destruct neg.
      * exists (TzOffset neg hh (Some (false, mm))). cbn.
        rewrite Hh, Mm. split; [reflexivity|]. now destruct neg.
    + exists (TzOffset neg hh None). cbn. rewrite Hh, app_nil_r.
      split; [reflexivity|]. now destruct neg.
Qed.

Lemma parse_tzinfo_designator tz :
  tz_ok tz = true ->
  DateTimeFormat.parse_tzinfo (option_map designator_text tz) = tzinfo_of tz.
Proof.
  intros Ftz.
  destruct tz as [[|[|] hh [[[|] mm]|]]|];
    cbn [tz_ok designator_ok] in Ftz;
    try (apply andb_prop in Ftz; destruct Ftz as [Fhh Fmm];
         split_list mm 3%nat; pair_facts Fmm);
    try (rename Ftz into Fhh);
    try (split_list hh 3%nat; pair_facts Fhh).
  all: cbn [option_map designator_text app lit list_ascii_of_string
            tzinfo_of offset_of]; tz_eval; reflexivity.
Qed.
Lemma is_digits_int w : is_digits w = true -> int_ w = Ok (decimal w).
Proof.
  unfold is_digits. intros H. apply andb_prop in H. destruct H as [N D].
  apply int_digits; [|exact D]. destruct w; [discriminate|discriminate].
Qed.

Lemma is_field_digits w : is_field w = true -> is_digits w = true.
Proof.
  unfold is_field, is_digits. intros H.
  apply andb_prop in H. destruct H as [H D].
  apply andb_prop in H. destruct H as [A _]. now rewrite A, D.
Qed.

Lemma is_year_digits w : is_year w = true -> is_digits w = true.
Proof.
  unfold is_year, is_digits. intros H.
  apply andb_prop in H. destruct H as [A D].
  apply Nat.eqb_eq in A. now rewrite A, D.
Qed.

(** What [validate] computes from the groups of a match. *)
Lemma DateTimeFormat_validate_groups s m Y Mo D H M tail g tz :
  re_match DATETIME_REGEX s = Some m ->
  group s m "year" = Some Y -> group s m "month" = Some Mo ->
  group s m "day" = Some D -> group s m "hour" = Some H ->
  group s m "minute" = Some M ->
  group s m "second" = option_map fst tail ->
  group s m "microsecond" = g ->
  group s m "tzinfo" = option_map designator_text tz ->
  is_year Y = true -> is_field Mo = true -> is_field D = true ->
  time_parts_ok H M tail = true -> micro_group tail g ->
  tz_ok tz = true ->
  DateTimeFormat.validate s
  = datetime_of (decimal Y) (decimal Mo) (decimal D) (decimal H) (decimal M)
      (second_of tail) (micro_of_group g) (tzinfo_of tz).
Proof.
  intros Hm GY GMo GD GH GM GS Gg Gtz FY FMo FD FT FG Ftz.
  unfold DateTimeFormat.validate. rewrite Hm, GY, GMo, GD, GH, GM, GS, Gg, Gtz.
  rewrite parse_tzinfo_designator by exact Ftz.
  unfold datetime_of. destruct (tzinfo_of tz) as [tzv|e]; [|reflexivity].
  cbn [bind]. unfold time_parts_ok in FT.
  apply andb_prop in FT. destruct FT as [FT FS].
  apply andb_prop in FT. destruct FT as [FH FM].
  apply is_year_digits, is_digits_int in FY.
  apply is_field_digits, is_digits_int in FMo, FD, FH, FM.
  unfold int_opt at 1 2 3 4 5. rewrite FY, FMo, FD, FH, FM. cbn [bind].
  assert (ES : int_opt (option_map fst tail) = Ok (option_map (fun _ => second_of tail) tail)).
  { destruct tail as [[Se fr]|]; [|reflexivity]. cbn [option_map fst int_opt].
    assert (FS' : is_field Se = true)
      by (destruct fr; [apply andb_prop in FS; apply FS|exact FS]).
    apply is_field_digits, is_digits_int in FS'. now rewrite FS'. }
  rewrite ES. cbn [bind].
  assert (EG : int_opt (pad_microsecond g)
               = Ok (option_map (fun _ => micro_of_group g) g)).
  { destruct tail as [[Se [ds|]]|]; cbn [micro_group] in FG;
      try (rewrite FG; reflexivity).
    destruct FG as (d1 & d2 & -> & _ & Fd & Ld).
    cbn [option_map micro_of_group]. unfold microseconds.
    rewrite firstn_all2 by lia.
    assert (N : exists c tl, d1 = c :: tl).
    { destruct d1; [discriminate Fd|eauto]. }
    destruct N as (c & tl & E). rewrite E at 1. cbn [pad_microsecond].
    rewrite <- E. cbn [int_opt]. rewrite int_ljust0 by exact Fd.
    reflexivity. }
  rewrite EG. cbn [bind]. rewrite except_datetime_new. cbn [default0].
  replace (default0 (option_map (fun _ => second_of tail) tail))
    with (second_of tail) by (now destruct tail as [[? ?]|]).
  replace (default0 (option_map (fun _ => micro_of_group g) g))
    with (micro_of_group g) by (now destruct g).
  reflexivity.
Qed.
Lemma runs_Opt_inv r st x :
  In x (runs (Opt r) st) -> In x (runs r st) \/ x = st.
Proof.
  cbn [runs]. intros H. apply in_app_or in H.
  destruct H as [H| [ <- | [] ] ]; auto.
Qed.

(** One element of a sequence on the way to the first match. *)
Ltac first_beta Hm :=
  cbv beta in Hm;
  match type of Hm with
  | hd_error (flat_map ?K (runs ?r ?st)) = Some ?m =>
      change (first_with K r st m) in Hm
  end.

Ltac first_group Hm G x w E G' C Sx L :=
  apply first_Seq in Hm;
  let H := fresh "H" in
  destruct Hm as (x & H & Hm);
  destruct (@step_group _ _ _ _ _ H G eq_refl) as (w & E & G' & C & Sx & L);
  clear H.

Ltac first_plain Hm G x w E G' C L :=
  apply first_Seq in Hm;
  let H := fresh "H" in
  let P := fresh "P" in
  destruct Hm as (x & H & Hm);
  destruct (@step_plain _ _ _ _ H G eq_refl) as (w & E & G' & P & C & L);
  clear H P.

(** The optional designator and the end of the subject. *)
Ltac first_tz Hm z Hz El :=
  apply first_Seq in Hm; destruct Hm as (z & Hz & Hm);
  apply first_In, step_eol in Hm; destruct Hm as [-> El];
  apply runs_Opt_inv in Hz.

(** The group of a name, from the groups recorded on the way. *)
Ltac lookup :=
  unfold group;
  repeat match goal with
         | C : caps ?x = _ |- context [caps ?x] => rewrite C
         end;
  cbn [assoc String.eqb Ascii.eqb Bool.eqb caps init];
  repeat match goal with
         | Sx : substr _ _ _ = _ |- _ => rewrite Sx
         end;
  reflexivity.

Ltac datetime_first Y Mo D c H M tail tz nl g Mi :=
  exists Y, Mo, D, c, H, M, tail, tz, nl, g;
  split;
  [ unfold datetime_text, time_text, tz_text;
    cbn [lit list_ascii_of_string];
    match goal with
    | E : ?s = _ ++ rest _ |- ?s = _ => rewrite E at 1
    end;
    repeat match goal with
           | E : rest ?x = _ |- context [rest ?x] => rewrite E
           end;
    rewrite <- ?app_assoc; cbn [app]; rewrite <- ?app_assoc; reflexivity
  | split;
    [ unfold time_parts_ok, tz_ok, micro_group;
      repeat match goal with F : _ = true |- _ => rewrite F; clear F end;
      repeat split; eauto 10
    | split; [repeat split; lookup|exact Mi] ] ].

Lemma DATETIME_REGEX_groups s m :
  re_match DATETIME_REGEX s = Some m ->
  exists Y Mo D sep H M tail tz nl g,
    s = datetime_text Y Mo D sep H M tail ++ tz_text tz ++ nl /\
    (is_year Y = true /\ is_field Mo = true /\ is_field D = true /\
     is_sep sep = true /\ time_parts_ok H M tail = true /\
     tz_ok tz = true /\ eol_tail nl /\ micro_group tail g) /\
    (group s m "year" = Some Y /\ group s m "month" = Some Mo /\
     group s m "day" = Some D /\ group s m "hour" = Some H /\
     group s m "minute" = Some M /\
     group s m "second" = option_map fst tail /\
     group s m "microsecond" = g /\
     group s m "tzinfo" = option_map designator_text tz) /\
    micro_of_group g = microsecond_of tail.
Proof.
  intros Hm. apply re_match_first in Hm.
  unfold DATETIME_REGEX in Hm. cbn [seqs] in Hm.
  assert (G0 : on_subject s (init s)) by reflexivity.
  first_group Hm G0 x1 Y E1 G1 C1 S1 L1.
  first_plain Hm G1 x2 c2 E2 G2 C2 L2.
  first_group Hm G2 x3 Mo E3 G3 C3 S3 L3.
  first_plain Hm G3 x4 c4 E4 G4 C4 L4.
  first_group Hm G4 x5 D E5 G5 C5 S5 L5.
  first_plain Hm G5 x6 c6 E6 G6 C6 L6.
  first_group Hm G6 x7 H E7 G7 C7 S7 L7.
  first_plain Hm G7 x8 c8 E8 G8 C8 L8.
  first_group Hm G8 x9 M E9 G9 C9 S9 L9.
  cbn [init rest] in E1.
  apply lang_year in L1. apply lang_field in L3, L5, L7, L9.
  apply lang_chr in L2, L4, L8. subst c2 c4 c8.
  apply lang_sep in L6. destruct L6 as (c & -> & Fc).
  apply first_Seq_cont in Hm. unfold time_tail in Hm. cbn [seqs] in Hm.
  apply first_Opt in Hm. destruct Hm as [Hm|Hm].
  - first_plain Hm G9 x10 c10 E10 G10 C10 L10.
    first_group Hm G10 x11 Se E11 G11 C11 S11 L11.
    apply lang_chr in L10. subst c10. apply lang_field in L11.
    apply first_Opt in Hm. destruct Hm as [Hm|Hm].
    + first_plain Hm G11 x12 c12 E12 G12 C12 L12.
      apply lang_chr in L12. subst c12.
      apply first_Seq_cont in Hm. unfold digit in Hm.
      apply first_Group_Rep in Hm. destruct Hm as (x & Hx & Hm & Gr).
      destruct (@step_plain _ _ _ _ Hx G12 eq_refl)
        as (d0 & E0 & _ & P0 & _ & _).
      assert (Hx' : In (set_cap "microsecond" (pos x12) x)
                      (runs (Group "microsecond" (Rep 1 6 (Chr CDigit))) x12))
        by (cbn [runs]; now apply in_map).
      destruct (@step_group _ _ _ _ _ Hx' G12 eq_refl)
        as (d1 & E13 & G13 & C13 & S13 & L13).
      cbn [set_cap rest] in E13.
      assert (d0 = d1) by (rewrite E13 in E0; now apply app_inv_tail in E0).
      subst d0. clear Hx Hx'. first_beta Hm.
      apply hd_flat_map_inv in Hm. destruct Hm as (y & Hy & Hm).
      destruct (@step_plain _ _ _ _ Hy G13 eq_refl)
        as (d2 & E14 & Gy & _ & Cy & L14).
      cbn [set_cap rest] in E14. first_beta Hm.
      assert (Fin := first_In Hm). apply runs_lang in Fin.
      destruct Fin as (w' & Ew & Lw).
      assert (Gd : List.length d1 = 6%nat \/ d2 = []).
      { destruct d2 as [|c2 d2]; [now right|left].
        destruct (Nat.lt_ge_cases (List.length d1) 6) as [Lt|Ge];
          [exfalso|apply lang_Rep_Chr in L13; lia].
        assert (Mc : cmatch CDigit c2 = true).
        { apply lang_Rep_Chr in L14; [|lia]. destruct L14 as [_ F].
          cbn [forallb] in F. apply andb_prop in F. apply F. }
        assert (N := Gr ltac:(lia) c2 (d2 ++ rest y) E14 Mc).
        apply lang_Rep_tail in L14. apply lang_Rep_more in L14; [|lia].
        match type of N with
        | flat_map ?K (runs ?r ?st) = [] =>
            destruct (@first_with_can K r st d2 (rest y) eq_refl L14
                        eq_refl N) as (y' & Ey & N')
        end.
        rewrite <- Ey in Ew.
        destruct (@first_with_can _
                    (Seq (Opt (Group "tzinfo" tz_designator)) Eol) _ _ _
                    eq_refl Lw Ew N')
          as (m' & _ & N''). discriminate N''. }
      assert (Mi : micro_of_group (Some d1)
                   = microsecond_of (Some (Se, Some (d1 ++ d2))))
        by (apply microseconds_first; exact Gd).
      clear Gr Gd Ew Lw.
      apply lang_Rep_Chr in L13; [|lia]. apply lang_Rep_Chr in L14; [|lia].
      destruct L13 as [[A1 B1] F1]. destruct L14 as [_ F2].
      assert (Fd1 : is_digits d1 = true).
      { unfold is_digits. apply Nat.leb_le in A1. now rewrite A1. }
      assert (Fds : is_digits (d1 ++ d2) = true)
        by (now apply is_digits_app).
      first_tz Hm z Hz El. destruct Hz as [Hz| ->].
      * destruct (@step_group _ _ _ _ _ Hz Gy eq_refl)
          as (tzw & Ez & Gz & Cz & Sz & Lz).
        apply tz_designator_lang in Lz. destruct Lz as (d & Fd & ->).
        datetime_first Y Mo D c H M (Some (Se, Some (d1 ++ d2))) (Some d)
          (rest z) (Some d1) Mi.
      * datetime_first Y Mo D c H M (Some (Se, Some (d1 ++ d2)))
          (@None designator) (rest y) (Some d1) Mi.
    + first_beta Hm. first_tz Hm z Hz El. destruct Hz as [Hz| ->].
      * destruct (@step_group _ _ _ _ _ Hz G11 eq_refl)
          as (tzw & Ez & Gz & Cz & Sz & Lz).
        apply tz_designator_lang in Lz. destruct Lz as (d & Fd & ->).
        datetime_first Y Mo D c H M (Some (Se, @None str)) (Some d)
          (rest z) (@None str) (@eq_refl Z 0).
      * datetime_first Y Mo D c H M (Some (Se, @None str))
          (@None designator) (rest x11) (@None str) (@eq_refl Z 0).
  - first_beta Hm. first_tz Hm z Hz El. destruct Hz as [Hz| ->].
    + destruct (@step_group _ _ _ _ _ Hz G9 eq_refl)
        as (tzw & Ez & Gz & Cz & Sz & Lz).
      apply tz_designator_lang in Lz. destruct Lz as (d & Fd & ->).
      datetime_first Y Mo D c H M (@None (str * option str)) (Some d)
        (rest z) (@None str) (@eq_refl Z 0).
    + datetime_first Y Mo D c H M (@None (str * option str))
        (@None designator) (rest x9) (@None str) (@eq_refl Z 0).
Qed.

Lemma DateTimeFormat_cases s :
  DateTimeFormat.validate s
  = Raise (ValidationError "Must be a valid datetime format." "format") \/
  exists Y Mo D sep H M tail tz nl,
    s = datetime_text Y Mo D sep H M tail ++ tz_text tz ++ nl /\
    (is_year Y = true /\ is_field Mo = true /\ is_field D = true /\
     is_sep sep = true /\ time_parts_ok H M tail = true /\
     tz_ok tz = true /\ eol_tail nl) /\
    DateTimeFormat.validate s
    = datetime_of (decimal Y) (decimal Mo) (decimal D) (decimal H)
        (decimal M) (second_of tail) (microsecond_of tail) (tzinfo_of tz).
Proof.
  destruct (re_match DATETIME_REGEX s) as [m|] eqn:Hm.
  - right. destruct (DATETIME_REGEX_groups _ Hm)
      as (Y & Mo & D & sep & H & M & tail & tz & nl & g & E & W & Gs & Mi).
    exists Y, Mo, D, sep, H, M, tail, tz, nl.
    split; [exact E|].
    destruct W as (FY & FMo & FD & Fsep & FT & Ftz & El & FG).
    split; [auto 10|].
    destruct Gs as (GY & GMo & GD & GH & GM & GS & Gg & Gtz).
    rewrite <- Mi.
    now apply (@DateTimeFormat_validate_groups s m Y Mo D H M tail g tz).
  - left. unfold DateTimeFormat.validate. now rewrite Hm.
Qed.

(** X11: [DateTimeFormat.validate] on any string: it fails with code
    [format], or the string is a date [Y-Mo-D], [T] or a space, a time
    [H:M], [H:M:S] or [H:M:S.ds], an optional designator and at most a
    line feed, and the outcome is the one of these numbers and of the
    designator; the microseconds are those of the first six digits of
    [ds], padded with zeros when [ds] has fewer. *)
Theorem DateTimeFormat_validate_cases s :
  DateTimeFormat.validate s
  = Raise (ValidationError "Must be a valid datetime format." "format") \/
  exists Y Mo D sep H M tail tz nl,
    s = datetime_text Y Mo D sep H M tail ++ tz_text tz ++ nl /\
    (is_year Y = true /\ is_field Mo = true /\ is_field D = true /\
     is_sep sep = true /\ time_parts_ok H M tail = true /\
     tz_ok tz = true /\ eol_tail nl) /\
    DateTimeFormat.validate s
    = datetime_of (decimal Y) (decimal Mo) (decimal D) (decimal H)
        (decimal M) (second_of tail) (microsecond_of tail) (tzinfo_of tz).
Proof. apply DateTimeFormat_cases. Qed.

(** X12: the outcomes of [DateTimeFormat.validate], on any string: a
    datetime with fields in range and no offset or an offset of whole
    minutes below 24 hours; the error with code [format]; the error
    with code [invalid]; or a bare [ValueError], which happens only
    when the string holds a designator of 24 hours or more. *)
Theorem DateTimeFormat_validate_outcomes s :
  (exists dt, DateTimeFormat.validate s = Ok dt /\ valid_datetime dt) \/
  DateTimeFormat.validate s
  = Raise (ValidationError "Must be a valid datetime format." "format") \/
  DateTimeFormat.validate s
  = Raise (ValidationError "Must be a real datetime." "invalid") \/
  (DateTimeFormat.validate s = Raise ValueError /\
   exists a d b, s = a ++ designator_text d ++ b /\
                 designator_ok d = true /\ day_us <= Z.abs (offset_of d)).
Proof.
  destruct (DateTimeFormat_cases s)
    as [F|(Y & Mo & D & sep & H & M & tail & tz & nl & E & W & V)].
  - auto.
  - destruct W as (_ & _ & _ & _ & _ & Ftz & _).
    unfold datetime_of in V.
    destruct (tzinfo_of tz) as [tzv|e] eqn:T; cbn [bind] in V.
    + destruct (check_date_fields _ _ _ && check_time_fields _ _ _ _)%bool;
        [|auto].
      left. eexists. split; [exact V|].
      apply DateTimeFormat_validate_fields in V. exact V.
    + right. right. right. destruct tz as [d|]; [|discriminate T].
      cbn [tzinfo_of] in T. unfold timezone in T.
      destruct ((- day_us <? offset_of d) && (offset_of d <? day_us))%bool
        eqn:B; [discriminate T|]. injection T as <-.
      split; [exact V|].
      exists (datetime_text Y Mo D sep H M tail), d, nl.
      split; [exact E|]. split; [exact Ftz|].
      apply andb_false_iff in B. destruct B as [B|B]; apply Z.ltb_ge in B; lia.
Qed.

(** ** UUIDFormat.validate on every string *)


(** X14: the string that [UUIDFormat.serialize] gives for the UUID of an
    accepted string is the first 36 characters of that string. *)
Theorem UUIDFormat_serialize_validate s u :
  UUIDFormat.validate s = Ok u ->
  UUIDFormat.serialize (PyUUID u) = Ok (PyStr (firstn 36 s)).
Proof.
  unfold UUIDFormat.validate, UUIDFormat.serialize.
  destruct (re_match UUID_REGEX s) as [m|] eqn:Hm; [|discriminate].
  assert (M : matches UUID_REGEX s = true) by (unfold matches; now rewrite Hm).
  apply UUID_REGEX_matches in M. destruct M as (p & tl & -> & M).
  rewrite (@UUID_new_app p tl M).
  destruct (uuid_tail tl); [|discriminate]. intros [= <-].
  destruct (@UUID_shape p M) as (L & F & Hy & _).
  destruct (@fmt_032x_hexadecimal _ L F) as (_ & Fx).
  cbn [py_str]. unfold UUID_str. cbn [uuid_int]. rewrite Fx, Hy.
  pose proof (classes_match_length _ _ M) as Lp.
  change (List.length UUID_CLASSES) with 36%nat in Lp.
  rewrite firstn_app, Lp, Nat.sub_diag, firstn_O, app_nil_r.
  rewrite firstn_all2 by (rewrite Lp; apply Nat.le_refl). reflexivity.
Qed.

Lemma UUIDFormat_serialize_validate_witness :
  UUIDFormat.serialize (PyUUID (MkUUID 113059749145936325402354257176981405696))
  = Ok (PyStr (firstn 36 (lit "550e8400-e29b-41d4-a716-446655440000}"))).
Proof.
  apply UUIDFormat_serialize_validate. vm_compute. reflexivity.
Defined.

(** ** URLFormat.validate on hosts and paths *)

Lemma partition_absent c s :
  forallb (fun x => negb (Ascii.eqb x c)) s = true ->
  partition_ c s = (s, None).
Proof.
  induction s as [|x s IH]; [reflexivity|]. cbn [forallb partition_].
  intros H. apply andb_prop in H. destruct H as [A B].
  apply negb_true_iff in A. now rewrite A, (IH B).
Qed.

Lemma mem_absent c s :
  forallb (fun x => negb (Ascii.eqb x c)) s = true -> mem c s = false.
Proof.
  induction s as [|x s IH]; [reflexivity|]. cbn [forallb mem existsb].
  intros H. apply andb_prop in H. destruct H as [A B].
  apply negb_true_iff in A. rewrite Ascii.eqb_sym, A. apply (IH B).
Qed.

Lemma remove_absent x s :
  forallb (fun c => negb (Ascii.eqb c x)) s = true -> remove [x] s = s.
Proof.
  intros H. rewrite remove_single.
  induction s as [|c s IH]; [reflexivity|]. cbn [forallb filter] in *.
  apply andb_prop in H. destruct H as [A B].
  rewrite Ascii.eqb_sym, A. now rewrite (IH B).
Qed.

Lemma forallb_weaken (f g : ascii -> bool) s :
  (forall c, f c = true -> g c = true) ->
  forallb f s = true -> forallb g s = true.
Proof.
  intros W H. rewrite forallb_forall in *. auto.
Qed.

Lemma path_char_not c x :
  mem x (["009"; "013"; "010"]%char ++ lit "?#;") = true ->
  path_char c = true -> negb (Ascii.eqb c x) = true.
Proof.
  unfold path_char. intros X P. apply negb_true_iff in P.
  apply negb_true_iff. destruct (Ascii.eqb_spec c x) as [->|]; [|reflexivity].
  congruence.
Qed.

Lemma span_app (p : ascii -> bool) s :
  s = fst (span_ p s) ++ snd (span_ p s).
Proof.
  induction s as [|x s IH]; [reflexivity|]. cbn [span_].
  destruct (p x); [|reflexivity].
  destruct (span_ p s) as [a b]. cbn [fst snd app] in *. now rewrite <- IH.
Qed.

Lemma span_head (p : ascii -> bool) s :
  match snd (span_ p s) with
  | [] => True
  | c :: _ => p c = false
  end.
Proof.
  induction s as [|x s IH]; [exact I|]. cbn [span_].
  destruct (p x) eqn:P; [|exact P].
  destruct (span_ p s) as [a b]. exact IH.
Qed.

Lemma url_split s : s = url_host s ++ url_path s.
Proof. apply span_app. Qed.

Lemma remove3_absent u :
  forallb path_char u = true ->
  remove ["010"%char] (remove ["013"%char] (remove ["009"%char] u)) = u.
Proof.
  intros P.
  rewrite (@remove_absent "009" u), (@remove_absent "013" u),
    (@remove_absent "010" u); try reflexivity;
    (revert P; apply forallb_weaken; intros c; now apply path_char_not).
Qed.

Lemma path_absent c s :
  mem c (["009"; "013"; "010"]%char ++ lit "?#;") = true ->
  forallb path_char s = true -> partition_ c s = (s, None).
Proof.
  intros X P. apply partition_absent. revert P. apply forallb_weaken.
  intros x. now apply path_char_not.
Qed.

Lemma mem_filter c (p : ascii -> bool) s :
  mem c (filter p s) = (p c && mem c s)%bool.
Proof.
  unfold mem. induction s as [|x s IH]; [now rewrite andb_false_r|].
  cbn [filter existsb]. destruct (Ascii.eqb c x) eqn:E.
  - apply Ascii.eqb_eq in E. subst x. cbn [orb].
    destruct (p c) eqn:P; [cbn [existsb]; now rewrite Ascii.eqb_refl|].
    rewrite IH. reflexivity.
  - cbn [orb]. destruct (p x); [|exact IH]. cbn [existsb].
    now rewrite E.
Qed.

Lemma existsb_flat_map {A B} (f : B -> bool) (g : A -> list B) l :
  existsb f (flat_map g l) = existsb (fun x => existsb f (g x)) l.
Proof.
  induction l as [|a l IH]; [reflexivity|].
  cbn [flat_map existsb]. now rewrite existsb_app, IH.
Qed.

(** The normal form of a character holds one of [/?#@:] only when the
    character is that one. *)
Lemma nfkc_delims k c :
  mem k (lit "/?#@:") = true ->
  existsb (N.eqb (N_of_ascii k)) (nfkc c) = Ascii.eqb k c.
Proof.
  intros K. apply Bool.eqb_prop. revert c.
  unfold mem in K. cbn [lit list_ascii_of_string existsb] in K.
  repeat (apply orb_prop in K; destruct K as [K|K]);
    try discriminate K; apply Ascii.eqb_eq in K; subst k;
    apply ascii_forall; vm_compute; reflexivity.
Qed.

Lemma nfkc_mem k n :
  mem k (lit "/?#@:") = true ->
  existsb (N.eqb (N_of_ascii k)) (flat_map nfkc n) = mem k n.
Proof.
  intros K. rewrite existsb_flat_map. unfold mem.
  induction n as [|c n IH]; [reflexivity|].
  cbn [existsb]. now rewrite IH, (@nfkc_delims k c K).
Qed.

(** [_checknetloc] accepts every netloc without [/]: those that
    [urlsplit] hands to it. *)
Lemma checknetloc_Ok netloc :
  mem "/" netloc = false -> checknetloc netloc = Ok tt.
Proof.
  intros Sl. unfold checknetloc.
  destruct (_ || _)%bool; [reflexivity|]. cbv zeta.
  destruct (codes_eqb _ _); [reflexivity|].
  cbn [lit list_ascii_of_string existsb].
  rewrite (@nfkc_mem "/" _ eq_refl), (@nfkc_mem "?" _ eq_refl),
    (@nfkc_mem "#" _ eq_refl), (@nfkc_mem "@" _ eq_refl),
    (@nfkc_mem ":" _ eq_refl).
  rewrite !remove_single, !mem_filter, Sl. reflexivity.
Qed.

Lemma span_fst (p : ascii -> bool) s : forallb p (fst (span_ p s)) = true.
Proof.
  induction s as [|x s IH]; [reflexivity|]. cbn [span_].
  destruct (p x) eqn:P; [|reflexivity].
  destruct (span_ p s) as [a b]. cbn [fst forallb] in *. now rewrite P.
Qed.

Lemma url_host_slash s : mem "/" (url_host s) = false.
Proof.
  apply mem_absent. unfold url_host.
  generalize (span_fst (fun c => negb (mem c (lit "/?#"))) s).
  apply forallb_weaken. intros c H.
  destruct (Ascii.eqb_spec c "/") as [->|]; [discriminate H|reflexivity].
Qed.

Lemma url_chars_app a b : url_chars (a ++ b) = url_chars a ++ url_chars b.
Proof.
  unfold url_chars. now rewrite !remove_single, !filter_app.
Qed.

(** [urlsplit] on [scheme://] followed by a host and a path. *)
Lemma urlsplit_http ok (https : bool) s :
  forallb path_char s = true ->
  urlsplit ok ((if https then lit "https://" else lit "http://") ++ s)
  = if xorb (mem "[" (url_host s)) (mem "]" (url_host s))
    then Raise ValueError
    else if (mem "[" (url_host s) && mem "]" (url_host s)
             && negb (check_bracketed_netloc ok (url_host s)))%bool
    then Raise ValueError
    else Ok (if https then lit "https" else lit "http",
             url_host s, url_path s, [], []).
Proof.
  intros P. unfold urlsplit.
  set (u := (if https then lit "https://" else lit "http://") ++ s).
  assert (Pu : forallb path_char u = true).
  { unfold u. rewrite forallb_app, P. now destruct https. }
  assert (Ls : lstrip is_c0_or_space u = u) by (unfold u; now destruct https).
  rewrite Ls, (remove3_absent _ Pu).
  assert (Pt : partition_ ":" u
               = (if https then lit "https" else lit "http",
                  Some (lit "//" ++ s)))
    by (unfold u; now destruct https).
  rewrite Pt.
  assert (Pp : forallb path_char (url_path s) = true)
    by (rewrite (url_split s), forallb_app in P;
        apply andb_prop in P; apply P).
  unfold splitnetloc.
  destruct https; cbn [lit list_ascii_of_string app];
    cbv beta iota zeta;
    match goal with
    | |- context [(is_ascii_alpha ?c && forallb is_scheme_char ?l)%bool] =>
        replace (is_ascii_alpha c && forallb is_scheme_char l)%bool
          with true by reflexivity
    end;
    cbv beta iota zeta;
    match goal with
    | |- context [startswith ?a ?b] =>
        replace (startswith a b) with true by reflexivity
    end;
    cbn [skipn]; cbv beta iota zeta;
    rewrite (surjective_pairing (span_ _ s));
    match goal with
    | |- context [span_ ?f s] =>
        change (snd (span_ f s)) with (url_path s);
        change (fst (span_ f s)) with (url_host s)
    end;
    destruct (xorb _ _); try reflexivity;
    destruct (_ && _ && _)%bool; try reflexivity;
    cbn [bind]; cbv beta iota zeta;
    rewrite (@path_absent "#" (url_path s) eq_refl Pp);
    rewrite (@path_absent "?" (url_path s) eq_refl Pp);
    rewrite (checknetloc_Ok _ (url_host_slash s));
    reflexivity.
Qed.
Lemma urlparse_http ok (https : bool) s :
  forallb path_char s = true ->
  mem "[" (url_host s) = false -> mem "]" (url_host s) = false ->
  urlparse ok ((if https then lit "https://" else lit "http://") ++ s)
  = Ok (MkParseResult (if https then lit "https" else lit "http")
          (url_host s) (url_path s) [] [] []).
Proof.
  intros P B1 B2. unfold urlparse. rewrite urlsplit_http by exact P.
  rewrite B1, B2. cbn [xorb andb bind].
  assert (Pp : forallb path_char (url_path s) = true)
    by (rewrite (url_split s), forallb_app in P;
        apply andb_prop in P; apply P).
  assert (M : mem ";" (url_path s) = false).
  { apply mem_absent. revert Pp. apply forallb_weaken. intros c.
    now apply path_char_not. }
  rewrite M, andb_false_r. reflexivity.
Qed.

Lemma url_path_slash s :
  forallb path_char s = true ->
  url_path s = [] \/ startswith (url_path s) (lit "/") = true.
Proof.
  intros P.
  assert (Pp : forallb path_char (url_path s) = true)
    by (rewrite (url_split s), forallb_app in P;
        apply andb_prop in P; apply P).
  pose proof (span_head (fun c => negb (mem c (lit "/?#"))) s) as Hd.
  fold (url_path s) in Hd.
  destruct (url_path s) as [|c p]; [now left|right].
  cbn [forallb] in Pp. apply andb_prop in Pp. destruct Pp as [Pc _].
  apply negb_false_iff in Hd.
  assert (A := ascii_forall
    (fun c => implb (path_char c && mem c (lit "/?#")) (Ascii.eqb "/" c))
    eq_refl c).
  cbv beta in A. rewrite Pc, Hd in A. cbn [andb implb] in A.
  cbn [startswith prefixb lit list_ascii_of_string]. now rewrite A.
Qed.

Lemma geturl_http (https : bool) s :
  forallb path_char s = true -> nonempty (url_host s) = true ->
  geturl (MkParseResult (if https then lit "https" else lit "http")
            (url_host s) (url_path s) [] [] [])
  = (if https then lit "https://" else lit "http://") ++ s.
Proof.
  intros P N. unfold geturl, urlunparse, urlunsplit.
  cbn [params path scheme netloc query fragment nonempty].
  rewrite N. cbn [orb].
  assert (Sl : (nonempty (url_path s)
                && negb (startswith (url_path s) (lit "/")))%bool = false).
  { destruct (url_path_slash s P) as [->| ->]; [reflexivity|].
    apply andb_false_r. }
  rewrite Sl. rewrite <- (url_split s).
  destruct https; reflexivity.
Qed.

Lemma url_host_nonempty s :
  matches URL_REGEX s = true -> nonempty (url_host s) = true.
Proof.
  intros M. apply URL_REGEX_first_char in M.
  destruct s as [|c s]; [discriminate M|]. cbn [hd_error word_opt] in M.
  unfold url_host. cbn [span_].
  assert (A := ascii_forall
    (fun c => implb (is_word c) (negb (mem c (lit "/?#")))) eq_refl c).
  cbv beta in A. rewrite M in A. cbn [implb] in A. rewrite A.
  now destruct (span_ _ s).
Qed.

(** X15: a string (of characters below U+0100, as all strings here)
    that [URL_REGEX] matches, that does not begin with [http] and has
    no tab, carriage return, line feed, [?], [#] or [;] and no bracket
    in its host, is parsed as if [http://] were written before it:
    scheme [http], the host up to the first [/], the rest as path; and
    it is serialized to [http://] followed by the string.
    [_checknetloc] accepts the host: no character below U+0100 has one
    of [/?#@:] in its NFKC form. *)
Theorem URLFormat_validate_host ok s :
  matches URL_REGEX s = true -> startswith s (lit "http") = false ->
  forallb path_char s = true ->
  mem "[" (url_host s) = false -> mem "]" (url_host s) = false ->
  URLFormat.validate ok s
  = Ok (MkParseResult (lit "http") (url_host s) (url_path s) [] [] []) /\
  URLFormat.serialize
    (PyParseResult
       (MkParseResult (lit "http") (url_host s) (url_path s) [] [] []))
  = Ok (PyStr (lit "http://" ++ s)).
Proof.
  intros M Hs P B1 B2. split.
  - unfold URLFormat.validate. unfold matches in M.
    destruct (re_match URL_REGEX s); [|discriminate M].
    rewrite Hs. cbn [negb]. apply (@urlparse_http ok false s P B1 B2).
  - cbn [URLFormat.serialize].
    now rewrite (@geturl_http false s P (url_host_nonempty _ M)).
Qed.

Lemma URLFormat_validate_host_witness :
  URLFormat.validate (fun _ => true) (lit "example.com/a/b")
  = Ok (MkParseResult (lit "http") (lit "example.com") (lit "/a/b")
          [] [] []) /\
  URLFormat.serialize
    (PyParseResult
       (MkParseResult (lit "http") (lit "example.com") (lit "/a/b")
          [] [] []))
  = Ok (PyStr (lit "http://example.com/a/b")).
Proof.
  apply (@URLFormat_validate_host (fun _ => true) (lit "example.com/a/b"));
    vm_compute; reflexivity.
Defined.

(** X16: a string (of characters below U+0100) with an explicit
    [http://] or [https://] that [URL_REGEX] matches, without tab,
    carriage return, line feed, [?], [#] or [;] and without bracket in
    its host, is parsed into that scheme, the host up to the first [/]
    (which may be empty, as in [http:///x.com]) and the rest as path;
    when the host is not empty, the result is serialized to the string
    itself. *)
Theorem URLFormat_validate_scheme ok (https : bool) h :
  matches URL_REGEX ((if https then lit "https://" else lit "http://") ++ h)
  = true ->
  forallb path_char h = true ->
  mem "[" (url_host h) = false -> mem "]" (url_host h) = false ->
  URLFormat.validate ok
    ((if https then lit "https://" else lit "http://") ++ h)
  = Ok (MkParseResult (if https then lit "https" else lit "http")
          (url_host h) (url_path h) [] [] []) /\
  (nonempty (url_host h) = true ->
   URLFormat.serialize
     (PyParseResult
        (MkParseResult (if https then lit "https" else lit "http")
           (url_host h) (url_path h) [] [] []))
   = Ok (PyStr ((if https then lit "https://" else lit "http://") ++ h))).
Proof.
  intros M P B1 B2. split.
  - unfold URLFormat.validate. unfold matches in M.
    destruct (re_match URL_REGEX _); [|discriminate M].
    replace (startswith ((if https then lit "https://" else lit "http://")
                           ++ h) (lit "http"))
      with true by (now destruct https).
    cbn [negb]. apply (@urlparse_http ok https h P B1 B2).
  - intros N. cbn [URLFormat.serialize].
    now rewrite (@geturl_http https h P N).
Qed.

Lemma URLFormat_validate_scheme_witness :
  (URLFormat.validate (fun _ => true) (lit "https://example.org/x.html")
   = Ok (MkParseResult (lit "https") (lit "example.org") (lit "/x.html")
           [] [] []) /\
   URLFormat.serialize
     (PyParseResult
        (MkParseResult (lit "https") (lit "example.org") (lit "/x.html")
           [] [] []))
   = Ok (PyStr (lit "https://example.org/x.html"))) /\
  URLFormat.validate (fun _ => true) (lit "http:///x.com")
  = Ok (MkParseResult (lit "http") [] (lit "/x.com") [] [] []).
Proof.
  split; [split|].
  - exact (proj1 (@URLFormat_validate_scheme (fun _ => true) true
             (lit "example.org/x.html") eq_refl eq_refl eq_refl eq_refl)).
  - exact (proj2 (@URLFormat_validate_scheme (fun _ => true) true
             (lit "example.org/x.html") eq_refl eq_refl eq_refl eq_refl)
             eq_refl).
  - exact (proj1 (@URLFormat_validate_scheme (fun _ => true) false
             (lit "/x.com") eq_refl eq_refl eq_refl eq_refl)).
Defined.

(** [urlsplit] stops at a netloc that has one bracket without the
    other, whatever follows the netloc. *)
Lemma urlsplit_bracket ok s :
  xorb (mem "[" (url_host (url_chars s))) (mem "]" (url_host (url_chars s)))
  = true ->
  urlsplit ok (lit "http://" ++ s) = Raise ValueError.
Proof.
  intros X. unfold urlsplit.
  change (lstrip is_c0_or_space (lit "http://" ++ s)) with (lit "http://" ++ s).
  fold (url_chars (lit "http://" ++ s)). rewrite url_chars_app.
  change (url_chars (lit "http://")) with (lit "http://").
  set (v := url_chars s) in *.
  change (partition_ ":" (lit "http://" ++ v))
    with (lit "http", Some (lit "//" ++ v)).
  cbn [lit list_ascii_of_string app]. cbv beta iota zeta.
  match goal with
  | |- context [(is_ascii_alpha ?c && forallb is_scheme_char ?l)%bool] =>
      replace (is_ascii_alpha c && forallb is_scheme_char l)%bool
        with true by reflexivity
  end.
  cbv beta iota zeta.
  match goal with
  | |- context [startswith ?a ?b] =>
      replace (startswith a b) with true by reflexivity
  end.
  unfold splitnetloc. cbn [skipn]. cbv beta iota zeta.
  rewrite (surjective_pairing (span_ _ v)).
  match goal with
  | |- context [span_ ?f v] =>
      change (fst (span_ f v)) with (url_host v)
  end.
  rewrite X. reflexivity.
Qed.

(** X17: a string that [URL_REGEX] matches, that does not begin with
    [http], and whose host has one of [[] and []] without the other,
    makes [URLFormat.validate] raise a bare [ValueError]: [urlparse]
    rejects the host and [validate] has no [try]. The host is the text
    before the first [/], [?] or [#] of the string, the tabs, carriage
    returns and line feeds, which [urlsplit] removes first, left
    out. *)
Theorem URLFormat_validate_bracket_ValueError ok s :
  matches URL_REGEX s = true -> startswith s (lit "http") = false ->
  xorb (mem "[" (url_host (url_chars s))) (mem "]" (url_host (url_chars s)))
  = true ->
  URLFormat.validate ok s = Raise ValueError.
Proof.
  intros M Hs X. unfold URLFormat.validate. unfold matches in M.
  destruct (re_match URL_REGEX s); [|discriminate M].
  rewrite Hs. cbn [negb]. unfold urlparse.
  now rewrite (@urlsplit_bracket ok s X).
Qed.

Lemma URLFormat_validate_bracket_ValueError_witness :
  URLFormat.validate (fun _ => true) (lit "a[.com") = Raise ValueError /\
  URLFormat.validate (fun _ => true) (lit "a[.com/x?y=1") = Raise ValueError.
Proof.
  split; apply URLFormat_validate_bracket_ValueError; vm_compute; reflexivity.
Defined.

(** X18: a string that [URL_REGEX] matches and that begins with [http]
    but holds no colon, and no tab, carriage return, line feed, [?],
    [#] or [;], such as [httpbin.org/get], gets no scheme: [validate]
    adds [http://] only to strings that do not begin with [http], and
    [urlparse] then finds neither scheme nor host, the whole string
    being the path. It is serialized to itself. *)
Theorem URLFormat_validate_http_host ok s :
  matches URL_REGEX s = true -> startswith s (lit "http") = true ->
  forallb path_char s = true ->
  forallb (fun c => negb (Ascii.eqb c ":")) s = true ->
  URLFormat.validate ok s = Ok (MkParseResult [] [] s [] [] []) /\
  URLFormat.serialize (PyParseResult (MkParseResult [] [] s [] [] []))
  = Ok (PyStr s).
Proof.
  intros M Hs P C. split.
  - unfold URLFormat.validate. unfold matches in M.
    destruct (re_match URL_REGEX s); [|discriminate M].
    rewrite Hs. cbn [negb]. unfold urlparse, urlsplit.
    assert (Hd : exists r, s = "h"%char :: r).
    { destruct s as [|c r]; [discriminate Hs|].
      cbn [startswith prefixb lit list_ascii_of_string] in Hs.
      apply andb_prop in Hs. destruct Hs as [Hc _].
      apply Ascii.eqb_eq in Hc. subst c. eauto. }
    destruct Hd as (r & Hd).
    assert (Ls : lstrip is_c0_or_space s = s) by (now rewrite Hd).
    assert (S2 : startswith s (lit "//") = false) by (now rewrite Hd).
    assert (Mp : mem ";" s = false).
    { apply mem_absent. revert P. apply forallb_weaken. intros c.
      now apply path_char_not. }
    rewrite Ls, (remove3_absent _ P), (partition_absent _ _ C).
    rewrite Hd at 1. cbv beta iota zeta. rewrite S2. cbn [bind].
    cbv beta iota zeta.
    rewrite (@path_absent "#" s eq_refl P). cbv beta iota zeta.
    rewrite (@path_absent "?" s eq_refl P). cbv beta iota zeta.
    rewrite (@checknetloc_Ok [] eq_refl).
    cbn [bind]. cbv beta iota zeta.
    rewrite Mp, andb_false_r. reflexivity.
  - cbn [URLFormat.serialize]. unfold geturl, urlunparse, urlunsplit.
    reflexivity.
Qed.

Lemma URLFormat_validate_http_host_witness :
  URLFormat.validate (fun _ => true) (lit "httpbin.org/get")
  = Ok (MkParseResult [] [] (lit "httpbin.org/get") [] [] []) /\
  URLFormat.serialize
    (PyParseResult (MkParseResult [] [] (lit "httpbin.org/get") [] [] []))
  = Ok (PyStr (lit "httpbin.org/get")).
Proof.
  apply URLFormat_validate_http_host; vm_compute; reflexivity.
Defined.

(** ** EmailFormat.validate on every string *)

Lemma forallb_eq (f g : ascii -> bool) l :
  (forall x, f x = g x) -> forallb f l = forallb g l.
Proof.
  intros E. induction l as [|x l IH]; [reflexivity|].
  cbn [forallb]. now rewrite E, IH.
Qed.

Lemma pow_lang_Chr_all cl n w tl :
  pow_lang (lang (Chr cl)) n w tl -> forallb (cmatch cl) w = true.
Proof. intros H. now apply pow_lang_Chr in H. Qed.

Lemma lang_Plus_Chr cl (p : ascii -> bool) w tl :
  (forall c, cmatch cl c = p c) ->
  lang (Plus (Chr cl)) w tl -> is_run p w = true.
Proof.
  intros E. unfold Plus. cbn [lang].
  intros (w1 & w2 & -> & (c & -> & M) & n & P).
  apply pow_lang_Chr_all in P. unfold is_run. cbn [app nonempty forallb andb].
  rewrite <- E, M. cbn [andb]. rewrite <- P.
  apply forallb_eq. intros x. symmetry. apply E.
Qed.

Lemma local_class c :
  cmatch (CUnion alnum (CUnion (CLit "_") (CUnion (CLit ".")
            (CUnion (CLit "+") (CLit "-"))))) c = is_local c.
Proof.
  apply Bool.eqb_prop.
  apply (ascii_forall
    (fun c => Bool.eqb
       (cmatch (CUnion alnum (CUnion (CLit "_") (CUnion (CLit ".")
                  (CUnion (CLit "+") (CLit "-"))))) c) (is_local c))
    eq_refl).
Qed.

Lemma label_class c : cmatch (CUnion alnum (CLit "-")) c = is_label c.
Proof.
  apply Bool.eqb_prop.
  apply (ascii_forall
    (fun c => Bool.eqb (cmatch (CUnion alnum (CLit "-")) c) (is_label c))
    eq_refl).
Qed.

Lemma domain_class c :
  cmatch (CUnion alnum (CUnion (CLit "-") (CLit "."))) c = is_domain c.
Proof.
  apply Bool.eqb_prop.
  apply (ascii_forall
    (fun c => Bool.eqb
       (cmatch (CUnion alnum (CUnion (CLit "-") (CLit "."))) c)
       (is_domain c))
    eq_refl).
Qed.

Lemma EMAIL_REGEX_lang w tl :
  lang EMAIL_REGEX w tl ->
  exists loc label dom,
    w = loc ++ lit "@" ++ label ++ lit "." ++ dom /\
    is_run is_local loc = true /\ is_run is_label label = true /\
    is_run is_domain dom = true /\ eol_tail tl.
Proof.
  unfold EMAIL_REGEX. cbn [seqs lang].
  intros (b & w0 & -> & -> & loc & w1 & -> & Hl & at_ & w2 & -> & Ha
          & label & w3 & -> & Hb & dot & w4 & -> & Hd & dom & e & ->
          & Hm & -> & E).
  apply lang_chr in Ha, Hd. subst at_ dot.
  apply (lang_Plus_Chr _ local_class) in Hl.
  apply (lang_Plus_Chr _ label_class) in Hb.
  apply (lang_Plus_Chr _ domain_class) in Hm.
  exists loc, label, dom. rewrite app_nil_r. cbn [app]. auto.
Qed.

Lemma can_Seq a b u v w : can a u v -> can b v w -> can (Seq a b) u w.
Proof.
  intros A B st E. destruct (A st E) as (y & Hy & Ey).
  destruct (B y Ey) as (x & Hx & Ex). exists x. split; [|exact Ex].
  cbn [runs]. apply in_flat_map. eauto.
Qed.

Lemma can_Chr cl c tl : cmatch cl c = true -> can (Chr cl) (c :: tl) tl.
Proof.
  intros M st E. cbn [runs]. rewrite E, M.
  exists (advance st c tl). split; [now left|reflexivity].
Qed.

Lemma star_Chr cl w : forall tl fuel st,
  forallb (cmatch cl) w = true -> (List.length w <= fuel)%nat ->
  rest st = w ++ tl ->
  exists x, In x (star_runs (runs (Chr cl)) fuel st) /\ rest x = tl.
Proof.
  induction w as [|c w IH]; intros tl fuel st F L E.
  - exists st. split; [|exact E].
    destruct fuel; cbn [star_runs]; [now left|].
    apply in_or_app. right. now left.
  - destruct fuel as [|f]; [cbn in L; lia|].
    cbn [forallb] in F. apply andb_prop in F. destruct F as [Fc Fw].
    cbn [List.length] in L.
    destruct (IH tl f (advance st c (w ++ tl)) Fw ltac:(lia) eq_refl)
      as (x & Hx & Ex).
    exists x. split; [|exact Ex]. cbn [star_runs]. apply in_or_app. left.
    apply in_flat_map. exists (advance st c (w ++ tl)). split.
    + cbn [runs]. cbn [app] in E. rewrite E, Fc. now left.
    + cbn [advance pos].
      replace (Nat.ltb (pos st) (S (pos st))) with true; [exact Hx|].
      symmetry. apply Nat.ltb_lt. lia.
Qed.

Lemma can_Plus_Chr cl (p : ascii -> bool) w tl :
  (forall c, cmatch cl c = p c) -> is_run p w = true ->
  can (Plus (Chr cl)) (w ++ tl) tl.
Proof.
  intros E R. unfold is_run in R. apply andb_prop in R. destruct R as [N F].
  destruct w as [|c w]; [discriminate N|].
  cbn [forallb] in F. apply andb_prop in F. destruct F as [Fc Fw].
  unfold Plus. apply can_Seq with (v := w ++ tl).
  - apply can_Chr. now rewrite E.
  - intros st Es. cbn [runs]. apply star_Chr with (w := w); auto.
    + rewrite <- Fw. apply forallb_eq. exact E.
    + rewrite Es, length_app. lia.
Qed.

Lemma can_Eol tl : eol_tail tl -> can Eol tl tl.
Proof.
  intros T st E. exists st. split; [|exact E]. cbn [runs].
  unfold at_eol. rewrite E. destruct T as [->| ->]; now left.
Qed.

Lemma EMAIL_REGEX_matches loc label dom nl :
  is_run is_local loc = true -> is_run is_label label = true ->
  is_run is_domain dom = true -> eol_tail nl ->
  matches EMAIL_REGEX (email_text loc label dom nl) = true.
Proof.
  intros Hl Hb Hm T. unfold matches, re_match, EMAIL_REGEX.
  cbn [seqs]. cbn [runs]. cbn [init pos Nat.eqb flat_map]. rewrite app_nil_r.
  assert (C : can
    (Seq (Plus (Chr (CUnion alnum (CUnion (CLit "_") (CUnion (CLit ".")
                       (CUnion (CLit "+") (CLit "-")))))))
       (Seq (chr "@")
          (Seq (Plus (Chr (CUnion alnum (CLit "-"))))
             (Seq (chr ".")
                (Seq (Plus (Chr (CUnion alnum (CUnion (CLit "-")
                                                 (CLit ".")))))
                   Eol)))))
    (email_text loc label dom nl) nl).
  { unfold email_text.
    eapply can_Seq; [apply (@can_Plus_Chr _ _ _ _ local_class Hl)|].
    eapply can_Seq; [apply can_Chr; reflexivity|].
    eapply can_Seq; [apply (@can_Plus_Chr _ _ _ _ label_class Hb)|].
    eapply can_Seq; [apply can_Chr; reflexivity|].
    eapply can_Seq; [apply (@can_Plus_Chr _ _ _ _ domain_class Hm)|].
    now apply can_Eol. }
  destruct (C (init (email_text loc label dom nl)) eq_refl) as (x & Hx & _).
  cbn [runs] in Hx.
  match goal with
  | |- match hd_error ?l with _ => _ end = true =>
      destruct l; [destruct Hx|reflexivity]
  end.
Qed.
(** X19: [EmailFormat.validate] accepts [local@label.domain], each part
    a non-empty run of its characters, alone or followed by one line
    feed, and returns the string as it is, the line feed included. *)
Theorem EmailFormat_validate_shape loc label dom nl :
  is_run is_local loc = true -> is_run is_label label = true ->
  is_run is_domain dom = true -> eol_tail nl ->
  EmailFormat.validate (email_text loc label dom nl)
  = Ok (email_text loc label dom nl).
Proof.
  intros Hl Hb Hm T. unfold EmailFormat.validate.
  pose proof (EMAIL_REGEX_matches _ _ _ Hl Hb Hm T) as M.
  unfold matches in M.
  destruct (re_match EMAIL_REGEX _); [reflexivity|discriminate M].
Qed.

Lemma EmailFormat_validate_shape_witness :
  EmailFormat.validate (lit "a.b+c@x-y.co.uk" ++ ["010"%char])
  = Ok (lit "a.b+c@x-y.co.uk" ++ ["010"%char]).
Proof.
  apply (@EmailFormat_validate_shape (lit "a.b+c") (lit "x-y") (lit "co.uk")
           ["010"%char]); try reflexivity.
  right. reflexivity.
Defined.

(** X20: [EmailFormat.validate] on any string: it fails with code
    [format], or the string is [local@label.domain] with at most a
    line feed after it and is returned unchanged. No other exception
    leaves [validate]. *)
Theorem EmailFormat_validate_cases s :
  EmailFormat.validate s
  = Raise (ValidationError "Must be valid Email format." "format") \/
  exists loc label dom nl,
    s = email_text loc label dom nl /\
    is_run is_local loc = true /\ is_run is_label label = true /\
    is_run is_domain dom = true /\ eol_tail nl /\
    EmailFormat.validate s = Ok s.
Proof.
  unfold EmailFormat.validate.
  destruct (re_match EMAIL_REGEX s) as [m|] eqn:Hm; [right|left; reflexivity].
  destruct (re_match_lang _ _ Hm) as (w & E & Lw).
  apply EMAIL_REGEX_lang in Lw.
  destruct Lw as (loc & label & dom & -> & Hl & Hb & Hd & T).
  exists loc, label, dom, (rest m). unfold email_text.
  split; [rewrite E; now rewrite <- !app_assoc|]. auto.
Qed.
(** ** A datetime given to DateFormat *)



